(** * Verification of the claude-agent-skills command-line scripts

    A shallow embedding of the five scripts of the repository

    - [fetching-github-user-data/scripts/fetch.py]      (module [Exporter])
    - [uploading-to-imgur/scripts/upload.py]            (module [Uploader])
    - [uploading-to-imgur/scripts/get_token.py]         (module [TokenHelper])
    - [downloading-youtube-playlist/scripts/download.py] (module [Downloader])
    - [generating-images/scripts/generate.py]           (module [Generator])

    Every script is glue around external effects (HTTP, the file system, a
    subprocess, the terminal).  The outside world is a record of oracles
    ([env]) that says what each external call returns or raises; the mutable
    state of a script (statistics, files, printed lines) is threaded
    explicitly, and Python exceptions are values of type [exn] carried by
    [result]. *)

From Stdlib Require Import ZArith NArith List String Ascii Bool Lia Arith.
From Stdlib Require Import DecimalString Permutation Strings.Byte.
Import ListNotations.

Set Warnings "-register-all".
Local Open Scope string_scope.
Local Open Scope list_scope.

(** ** Python preliminaries shared by the scripts *)

Module Py.

(** JSON values as [json.load] / [response.json()] return them and as
    [json.dump] writes them.  Numbers are integers: every number the scripts
    read and do arithmetic on (sizes, counts) is an integer in the APIs they
    call.  [JDec h] is the two-decimal number h/100 that [round(x, 2)]
    produces; the scripts only ever write it. *)
Inductive json : Type :=
| JNull
| JBool (b : bool)
| JNum (n : Z)
| JDec (hundredths : Z)
| JStr (s : string)
| JArr (xs : list json)
| JObj (kv : list (string * json)).

(** The exception classes the scripts raise, catch or let through. *)
Inductive exn : Type :=
| HTTPError (status : Z)        (* requests: raise_for_status *)
| ConnectionError               (* requests *)
| Timeout                       (* requests *)
| JSONDecodeError               (* requests: response.json() *)
| KeyError (key : string)
| TypeError
| AttributeError
| IndexError
| ValueError
| OSError
| FileNotFoundError
| PermissionError
| BinasciiError                 (* binascii.Error, a ValueError *)
| CalledProcessError (returncode : Z)
| EOFError
| KeyboardInterrupt
| SystemExit (code : Z).

(** [except Exception] catches everything but the two [BaseException]-only
    classes. *)
Definition is_Exception (e : exn) : bool :=
  match e with
  | KeyboardInterrupt | SystemExit _ => false
  | _ => true
  end.

(** [except requests.exceptions.RequestException]. *)
Definition is_RequestException (e : exn) : bool :=
  match e with
  | HTTPError _ | ConnectionError | Timeout | JSONDecodeError => true
  | _ => false
  end.

(** [except KeyboardInterrupt]. *)
Definition is_KeyboardInterrupt (e : exn) : bool :=
  match e with KeyboardInterrupt => true | _ => false end.

(** The exception [sys.exit] raises. *)
Definition is_SystemExit (e : exn) : bool :=
  match e with SystemExit _ => true | _ => false end.

(** [except requests.exceptions.Timeout]. *)
Definition is_Timeout (e : exn) : bool :=
  match e with Timeout => true | _ => false end.

Inductive result (A : Type) : Type :=
| Ret (a : A)
| Raise (e : exn).
Arguments Ret {A} a.
Arguments Raise {A} e.

(** The status a finished CPython process reports: 0 when the script falls
    off its end, the argument of [sys.exit], 1 after the traceback of an
    uncaught exception, 130 for an uncaught [KeyboardInterrupt]. *)
Definition exit_code {A : Type} (r : result A) : Z :=
  match r with
  | Ret _ => 0
  | Raise (SystemExit c) => c
  | Raise KeyboardInterrupt => 130
  | Raise _ => 1
  end.

(** *** Strings *)

Definition dquote : ascii := ascii_of_nat 34.

Fixpoint startswith (p s : string) : bool :=
  match p, s with
  | EmptyString, _ => true
  | String a p', String b s' => Ascii.eqb a b && startswith p' s'
  | String _ _, EmptyString => false
  end.

(** [needle in hay] *)
Fixpoint contains (needle hay : string) : bool :=
  startswith needle hay ||
  match hay with
  | EmptyString => false
  | String _ hay' => contains needle hay'
  end.

(** [c.isspace()] for an ASCII character. *)
Definition is_space (c : ascii) : bool :=
  let n := nat_of_ascii c in
  (n =? 32)%nat || ((9 <=? n)%nat && (n <=? 13)%nat)
  || ((28 <=? n)%nat && (n <=? 31)%nat).

Fixpoint lstrip (s : string) : string :=
  match s with
  | String c s' => if is_space c then lstrip s' else s
  | EmptyString => EmptyString
  end.

Fixpoint rstrip (s : string) : string :=
  match s with
  | EmptyString => EmptyString
  | String c s' =>
      match rstrip s' with
      | EmptyString => if is_space c then EmptyString else String c EmptyString
      | r => String c r
      end
  end.

(** [s.strip()] *)
Definition strip (s : string) : string := rstrip (lstrip s).

Definition lower_ascii (c : ascii) : ascii :=
  let n := nat_of_ascii c in
  if ((65 <=? n)%nat && (n <=? 90)%nat)%bool then ascii_of_nat (n + 32) else c.

(** [s.lower()] on ASCII text. *)
Fixpoint lower (s : string) : string :=
  match s with
  | EmptyString => EmptyString
  | String c s' => String (lower_ascii c) (lower s')
  end.

Definition is_empty (s : string) : bool :=
  match s with EmptyString => true | _ => false end.

(** *** Dictionaries with string keys, in insertion order *)

Definition dict (V : Type) : Type := list (string * V).

Fixpoint dict_get {V : Type} (k : string) (d : dict V) : option V :=
  match d with
  | [] => None
  | (k', v) :: d' => if String.eqb k k' then Some v else dict_get k d'
  end.

(** [d[k] = v]: an existing key keeps its position. *)
Fixpoint dict_set {V : Type} (k : string) (v : V) (d : dict V) : dict V :=
  match d with
  | [] => [(k, v)]
  | (k', v') :: d' =>
      if String.eqb k k' then (k', v) :: d' else (k', v') :: dict_set k v d'
  end.

(** *** JSON values used as Python objects *)

(** Truth value of an object: [if x:], [not x]. *)
Definition truthy (j : json) : bool :=
  match j with
  | JNull => false
  | JBool b => b
  | JNum n => negb (n =? 0)%Z
  | JDec h => negb (h =? 0)%Z
  | JStr s => negb (is_empty s)
  | JArr xs => match xs with [] => false | _ => true end
  | JObj kv => match kv with [] => false | _ => true end
  end.

(** [x[k]] *)
Definition getitem (x : json) (k : string) : result json :=
  match x with
  | JObj kv => match dict_get k kv with
               | Some v => Ret v
               | None => Raise (KeyError k)
               end
  | _ => Raise TypeError
  end.

(** [x.get(k, default)] *)
Definition get_default (x : json) (k : string) (default : json) : result json :=
  match x with
  | JObj kv => match dict_get k kv with
               | Some v => Ret v
               | None => Ret default
               end
  | _ => Raise AttributeError
  end.

(** [x.get(k)] *)
Definition get (x : json) (k : string) : result json := get_default x k JNull.

Fixpoint chars (s : string) : list json :=
  match s with
  | EmptyString => []
  | String c s' => JStr (String c EmptyString) :: chars s'
  end.

(** The elements a [for] loop or [list.extend] draws from an object:
    the items of a list, the keys of a dict, the characters of a string. *)
Definition iterate (x : json) : result (list json) :=
  match x with
  | JArr xs => Ret xs
  | JObj kv => Ret (map (fun p => JStr (fst p)) kv)
  | JStr s => Ret (chars s)
  | _ => Raise TypeError
  end.

(** Monadic plumbing for pure code that may raise. *)
Definition rbind {A B : Type} (r : result A) (k : A -> result B) : result B :=
  match r with
  | Ret a => k a
  | Raise e => Raise e
  end.

Fixpoint rmap {A B : Type} (f : A -> result B) (xs : list A) : result (list B) :=
  match xs with
  | [] => Ret []
  | x :: xs' =>
      rbind (f x) (fun y => rbind (rmap f xs') (fun ys => Ret (y :: ys)))
  end.

(** [len(x)] *)
Definition len (x : json) : result Z :=
  match x with
  | JArr xs => Ret (Z.of_nat (List.length xs))
  | JObj kv => Ret (Z.of_nat (List.length kv))
  | JStr s => Ret (Z.of_nat (String.length s))
  | _ => Raise TypeError
  end.

(** [k in x] for a string [k]. *)
Definition has_key (k : string) (x : json) : result bool :=
  match x with
  | JObj kv => Ret (match dict_get k kv with Some _ => true | None => false end)
  | JArr xs =>
      Ret (existsb (fun y => match y with
                             | JStr s => String.eqb s k
                             | _ => false
                             end) xs)
  | JStr s => Ret (contains k s)
  | _ => Raise TypeError
  end.

(** [list(x.keys())] *)
Definition keys (x : json) : result json :=
  match x with
  | JObj kv => Ret (JArr (map (fun p => JStr (fst p)) kv))
  | _ => Raise AttributeError
  end.

Definition z_str (z : Z) : string := NilZero.string_of_int (Z.to_int z).

(** [str(x)] as an f-string interpolates it.  Strings, integers, booleans
    and [None] are rendered as Python does; the [repr] of containers and of
    decimals is not spelled out. *)
Definition py_str (x : json) : string :=
  match x with
  | JStr s => s
  | JNum n => z_str n
  | JBool true => "True"
  | JBool false => "False"
  | JNull => "None"
  | JDec h => "<float>"
  | JArr _ => "<list>"
  | JObj _ => "<dict>"
  end.

(** [s.split(sep)] for a one-character separator. *)
Fixpoint split (sep : ascii) (s : string) : list string :=
  match s with
  | EmptyString => [EmptyString]
  | String c s' =>
      if Ascii.eqb c sep then EmptyString :: split sep s'
      else match split sep s' with
           | w :: ws => String c w :: ws
           | [] => [String c EmptyString]
           end
  end.

(** [xs[-n:]] *)
Definition last_n {A : Type} (n : nat) (xs : list A) : list A :=
  skipn (List.length xs - n) xs.

(** The value of [a + b] when [a] is an [int]: [bool] operands count as 0
    or 1, anything else that JSON can hold raises [TypeError]. *)
Definition int_add (a : Z) (b : json) : result Z :=
  match b with
  | JNum n => Ret (a + n)%Z
  | JBool true => Ret (a + 1)%Z
  | JBool false => Ret a
  | _ => Raise TypeError
  end.

(** Hashable truthy objects used as dictionary keys.  [True] and [1] are
    the same key in Python. *)
Inductive pykey : Type :=
| KStr (s : string)
| KInt (n : Z).

Definition pykey_eqb (a b : pykey) : bool :=
  match a, b with
  | KStr s, KStr t => String.eqb s t
  | KInt n, KInt m => (n =? m)%Z
  | _, _ => false
  end.

Definition to_key (x : json) : result pykey :=
  match x with
  | JStr s => Ret (KStr s)
  | JNum n => Ret (KInt n)
  | JBool b => Ret (KInt (if b then 1 else 0))
  | JDec h => Raise TypeError   (* not produced by the APIs read here *)
  | JNull => Raise TypeError    (* hashable, but never reached: falsy *)
  | JArr _ | JObj _ => Raise TypeError   (* unhashable type *)
  end.

(** The key as [json.dump] writes it. *)
Definition key_str (k : pykey) : string :=
  match k with
  | KStr s => s
  | KInt n => z_str n
  end.

Fixpoint endswith_aux (rs rsuf : list ascii) : bool :=
  match rsuf, rs with
  | [], _ => true
  | a :: rsuf', b :: rs' => Ascii.eqb a b && endswith_aux rs' rsuf'
  | _ :: _, [] => false
  end.

(** [s.endswith(suf)] *)
Definition endswith (suf s : string) : bool :=
  endswith_aux (rev (list_ascii_of_string s)) (rev (list_ascii_of_string suf)).

(** The last component of a path: [Path(p).name]. *)
Definition path_name (p : string) : string :=
  last (filter (fun c => negb (is_empty c)) (split "/" p)) EmptyString.

(** The part of [s] from its last dot on, if it has a dot. *)
Fixpoint from_last_dot (s : string) : option string :=
  match s with
  | EmptyString => None
  | String c s' =>
      match from_last_dot s' with
      | Some t => Some t
      | None => if Ascii.eqb c "."%char then Some s else None
      end
  end.

(** [Path(p).suffix]: the extension of the name, empty when the last dot
    is the first or the last character of the name. *)
Definition suffix (p : string) : string :=
  match path_name p with
  | EmptyString => EmptyString
  | String _ rest =>
      match from_last_dot rest with
      | Some (String _ EmptyString) => EmptyString
      | Some t => t
      | None => EmptyString
      end
  end.

(** A result that, when it is an exception, is an [Exception]: what pure
    Python code over JSON values raises ([KeyError], [TypeError], ...). *)
Definition plain {A : Type} (r : result A) : Prop :=
  forall e, r = Raise e -> is_Exception e = true.

End Py.
(** ** The account data exporter: [fetch.py] *)

Module Exporter.
Import Py.

(** A file below [self.output_dir], as its path components. *)
Definition path : Type := list string.

Fixpoint path_eqb (p q : path) : bool :=
  match p, q with
  | [], [] => true
  | a :: p', b :: q' => String.eqb a b && path_eqb p' q'
  | _, _ => false
  end.

(** Directory part of a file path: [filepath.parent]. *)
Definition parent (p : path) : path := removelast p.

(** What [requests] hands back when a call returns: the status code, the
    body ([None]: not JSON, so [response.json()] raises) and the headers. *)
Record response : Type := {
  status_code : Z;
  body : option json;
  headers : dict string
}.

(** The outside world of one run. *)
Record env : Type := {
  (* self.session.get(url, params=params, timeout=30), by endpoint *)
  session_get : string -> option (dict json) -> result response;
  (* self.session.post(graphql_url, json={"query": query}, timeout=30) *)
  session_post : string -> result response;
  (* Path.mkdir(parents=True, exist_ok=True): [Some e] when it raises e *)
  mkdir_raises : path -> option exn;
  (* open(filepath, 'w') and json.dump: [Some e] when they raise e *)
  open_raises : path -> option exn;
  (* datetime.now().isoformat() *)
  now : string
}.

(** Entries of [self.stats["errors"]]. *)
Inductive error_msg : Type :=
| ErrRequest (endpoint : string) (e : exn)   (* "请求失败: {endpoint} - {e}" *)
| ErrGraphQL (e : exn).                      (* "GraphQL 请求失败: {e}" *)

Record stats : Type := {
  requests_made : nat;
  data_fetched : dict json;
  errors : list error_msg
}.

Inductive stream : Type := Stdout | Stderr.

(** The lines the exporter prints, one constructor per [print] call. *)
Inductive msg : Type :=
| MStart                              (* fetch_all: banner and output directory *)
| MHeader (what : string)             (* first line of each fetch_* method *)
| MPage (page : nat)                  (* "正在获取第 {page} 页..." *)
| MPageError (page : nat) (e : exn)   (* "获取第 {page} 页时出错: {e}" *)
| MRequestFailed (endpoint : string) (e : exn)
| MGraphQLFailed (e : exn)
| MSaved (p : path)                   (* "✓ 已保存到: {filepath}" *)
| MTotal (what : string) (n : json)   (* "共获取 {n} ..." *)
| MFailed (what : string) (e : option exn)
| MNeedRepos                          (* "需要先获取仓库数据" *)
| MSkipCalendar                       (* "跳过贡献日历获取（需要 Personal Access Token）" *)
| MInterrupted                        (* "用户中断操作" *)
| MError (e : exn)                    (* "发生错误: {e}" *)
| MSavingMetadata
| MSummaryHead (requests : nat)
| MSummaryItem (key : string) (value : json)
| MSummaryErrors (count : nat)
| MSummaryError (e : error_msg)
| MSummaryFoot.

(** Everything observable a run does, in order. *)
Inductive event : Type :=
| Print (s : stream) (m : msg)
| Get (endpoint : string) (params : option (dict json))
| Post (query : string)
| Write (p : path) (content : json).

Record state : Type := {
  st_stats : stats;
  st_files : list (path * json);   (* JSON files below output_dir *)
  st_dirs : list path;             (* directories below output_dir *)
  st_trace : list event
}.

(** A computation returns a value or raises, in a new state; [None] is a
    pagination loop that has not stopped within its fuel. *)
Definition M (A : Type) : Type := state -> option (result A * state).

Definition ret {A : Type} (a : A) : M A := fun s => Some (Ret a, s).
Definition raise {A : Type} (e : exn) : M A := fun s => Some (Raise e, s).
Definition diverge {A : Type} : M A := fun _ => None.

Definition bind {A B : Type} (m : M A) (k : A -> M B) : M B :=
  fun s =>
    match m s with
    | Some (Ret a, s') => k a s'
    | Some (Raise e, s') => Some (Raise e, s')
    | None => None
    end.

Declare Scope py_scope.
Delimit Scope py_scope with py.
Notation "x <- m ;; k" := (bind m (fun x => k))
  (at level 61, m at next level, right associativity) : py_scope.
Notation "m ;; k" := (bind m (fun _ => k))
  (at level 61, right associativity) : py_scope.
Local Open Scope py_scope.

Definition lift {A : Type} (r : result A) : M A := fun s => Some (r, s).

(** [try: m  except <classes> as e: h e], the handler taking the exceptions
    that satisfy [catches]. *)
Definition try_except {A : Type} (m : M A) (catches : exn -> bool)
    (h : exn -> M A) : M A :=
  fun s =>
    match m s with
    | Some (Raise e, s') => if catches e then h e s' else Some (Raise e, s')
    | r => r
    end.

(** [try: m  finally: f] *)
Definition try_finally {A : Type} (m : M A) (f : M unit) : M A :=
  fun s =>
    match m s with
    | Some (r, s') =>
        match f s' with
        | Some (Ret _, s'') => Some (r, s'')
        | Some (Raise e, s'') => Some (Raise e, s'')
        | None => None
        end
    | None => None
    end.

Definition log (ev : event) : M unit :=
  fun s => Some (Ret tt, {| st_stats := st_stats s; st_files := st_files s;
                            st_dirs := st_dirs s;
                            st_trace := st_trace s ++ [ev] |}).

Definition print (o : stream) (m : msg) : M unit := log (Print o m).

Definition modify_stats (f : stats -> stats) : M unit :=
  fun s => Some (Ret tt, {| st_stats := f (st_stats s); st_files := st_files s;
                            st_dirs := st_dirs s; st_trace := st_trace s |}).

(** [self.stats["requests_made"] += 1] *)
Definition count_request : M unit :=
  modify_stats (fun t => {| requests_made := S (requests_made t);
                            data_fetched := data_fetched t;
                            errors := errors t |}).

(** [self.stats["errors"].append(m)] *)
Definition append_error (m : error_msg) : M unit :=
  modify_stats (fun t => {| requests_made := requests_made t;
                            data_fetched := data_fetched t;
                            errors := errors t ++ [m] |}).

(** [self.stats["data_fetched"][key] = v] *)
Definition set_fetched (key : string) (v : json) : M unit :=
  modify_stats (fun t => {| requests_made := requests_made t;
                            data_fetched := dict_set key v (data_fetched t);
                            errors := errors t |}).

(** [response.raise_for_status()] *)
Definition raise_for_status (r : response) : result unit :=
  if ((400 <=? status_code r) && (status_code r <? 600))%Z
  then Raise (HTTPError (status_code r)) else Ret tt.

(** [response.json()] *)
Definition response_json (r : response) : result json :=
  match body r with
  | Some j => Ret j
  | None => Raise JSONDecodeError
  end.

(** The marker looked for in the Link header: [rel="next"]. *)
Definition rel_next : string :=
  "rel=" ++ String dquote ("next" ++ String dquote EmptyString).

(** *** The arithmetic of [fetch_language_stats] *)

(** One value of the [language_stats] dict while the repositories are read:
    [{"repo_count": .., "total_size_kb": ..}]. *)
Record lang_acc : Type := {
  acc_repo_count : Z;
  acc_total_size_kb : Z
}.

(** [language_stats[k]["repo_count"] += 1] and
    [language_stats[k]["total_size_kb"] += size] on an existing key. *)
Fixpoint bump (k : pykey) (size : json) (d : list (pykey * lang_acc))
    : option (result (list (pykey * lang_acc))) :=
  match d with
  | [] => None
  | (k', a) :: d' =>
      if pykey_eqb k k' then
        Some (rbind (int_add (acc_total_size_kb a) size) (fun t =>
              Ret ((k', {| acc_repo_count := acc_repo_count a + 1;
                           acc_total_size_kb := t |}) :: d')))
      else
        match bump k size d' with
        | Some r => Some (rbind r (fun d'' => Ret ((k', a) :: d'')))
        | None => None
        end
  end.

(** The body of the loop over the repository files, on the pair
    [(language_stats, total_size)]. *)
Definition count_repo (acc : list (pykey * lang_acc) * Z) (repo : json)
    : result (list (pykey * lang_acc) * Z) :=
  let (language_stats, total_size) := acc in
  rbind (get repo "language") (fun language =>
  rbind (get_default repo "size" (JNum 0)) (fun size =>
  if truthy language then
    rbind (to_key language) (fun k =>
    rbind (match bump k size language_stats with
           | Some r => r
           | None =>   (* language not in language_stats *)
               rbind (int_add 0 size) (fun t =>
               Ret (language_stats ++
                    [(k, {| acc_repo_count := 0 + 1; acc_total_size_kb := t |})]))
           end) (fun language_stats' =>
    rbind (int_add total_size size) (fun total_size' =>
    Ret (language_stats', total_size'))))
  else Ret acc)).

Fixpoint count_repos (acc : list (pykey * lang_acc) * Z) (repos : list json)
    : result (list (pykey * lang_acc) * Z) :=
  match repos with
  | [] => Ret acc
  | repo :: repos' => rbind (count_repo acc repo) (fun acc' => count_repos acc' repos')
  end.

(** The integer nearest to n/d for d > 0, ties going to the even one. *)
Definition round_div (n d : Z) : Z :=
  let q := (n / d)%Z in
  let r := (n mod d)%Z in
  if (2 * r <? d)%Z then q
  else if (d <? 2 * r)%Z then (q + 1)%Z
  else if Z.even q then q else (q + 1)%Z.

(** [round((size / total_size * 100) if total_size > 0 else 0, 2)], in
    hundredths of a percent.  Python evaluates the quotient in binary
    floating point; the embedding rounds the exact quotient. *)
Definition percentage (size total_size : Z) : Z :=
  if (total_size >? 0)%Z then round_div (size * 10000) total_size else 0%Z.

(** One value of the finished dict, with its ["percentage"]. *)
Record lang_stat : Type := {
  repo_count : Z;
  total_size_kb : Z;
  percentage_hundredths : Z
}.

Definition with_percentage (total_size : Z) (e : pykey * lang_acc)
    : pykey * lang_stat :=
  (fst e, {| repo_count := acc_repo_count (snd e);
             total_size_kb := acc_total_size_kb (snd e);
             percentage_hundredths :=
               percentage (acc_total_size_kb (snd e)) total_size |}).

(** [sorted(items, key=lambda x: x[1]["total_size_kb"], reverse=True)]:
    a stable sort, larger sizes first. *)
Fixpoint insert_desc (x : pykey * lang_stat) (l : list (pykey * lang_stat))
    : list (pykey * lang_stat) :=
  match l with
  | [] => [x]
  | y :: l' =>
      if (total_size_kb (snd y) <=? total_size_kb (snd x))%Z
      then x :: y :: l'
      else y :: insert_desc x l'
  end.

Fixpoint sorted_desc (l : list (pykey * lang_stat)) : list (pykey * lang_stat) :=
  match l with
  | [] => []
  | x :: l' => insert_desc x (sorted_desc l')
  end.

(** What [fetch_language_stats] computes from the repository records it
    reads: [(sorted_languages, total_size)]. *)
Definition language_stats (repos : list json)
    : result (list (pykey * lang_stat) * Z) :=
  rbind (count_repos ([], 0%Z) repos) (fun acc =>
  let (stats, total_size) := acc in
  Ret (sorted_desc (map (with_percentage total_size) stats), total_size)).

Definition lang_stat_json (e : pykey * lang_stat) : string * json :=
  (key_str (fst e),
   JObj [("repo_count", JNum (repo_count (snd e)));
         ("total_size_kb", JNum (total_size_kb (snd e)));
         ("percentage", JDec (percentage_hundredths (snd e)))]).

(** The content of [statistics/languages.json]. *)
Definition languages_json (sorted_languages : list (pykey * lang_stat))
    (total_size : Z) : json :=
  JObj [("languages", JObj (map lang_stat_json sorted_languages));
        ("total_size_kb", JNum total_size);
        ("language_count", JNum (Z.of_nat (List.length sorted_languages)))].

(** *** The arithmetic of [fetch_repository_stats] *)

Record by_lang : Type := { bl_repos : Z; bl_stars : Z; bl_forks : Z }.

Record repo_totals : Type := {
  total_stars : Z;
  total_forks : Z;
  by_language : list (pykey * by_lang)
}.

Fixpoint bump_by_lang (k : pykey) (stars forks : json) (d : list (pykey * by_lang))
    : option (result (list (pykey * by_lang))) :=
  match d with
  | [] => None
  | (k', a) :: d' =>
      if pykey_eqb k k' then
        Some (rbind (int_add (bl_stars a) stars) (fun st =>
              rbind (int_add (bl_forks a) forks) (fun fk =>
              Ret ((k', {| bl_repos := bl_repos a + 1; bl_stars := st;
                           bl_forks := fk |}) :: d'))))
      else
        match bump_by_lang k stars forks d' with
        | Some r => Some (rbind r (fun d'' => Ret ((k', a) :: d'')))
        | None => None
        end
  end.

Definition total_repo (acc : repo_totals) (repo : json) : result repo_totals :=
  rbind (get_default repo "stars" (JNum 0)) (fun stars =>
  rbind (int_add (total_stars acc) stars) (fun ts =>
  rbind (get_default repo "forks" (JNum 0)) (fun forks =>
  rbind (int_add (total_forks acc) forks) (fun tf =>
  rbind (get repo "language") (fun language =>
  if truthy language then
    rbind (to_key language) (fun k =>
    rbind (match bump_by_lang k stars forks (by_language acc) with
           | Some r => r
           | None =>
               rbind (int_add 0 stars) (fun st =>
               rbind (int_add 0 forks) (fun fk =>
               Ret (by_language acc ++
                    [(k, {| bl_repos := 0 + 1; bl_stars := st; bl_forks := fk |})])))
           end) (fun bl =>
    Ret {| total_stars := ts; total_forks := tf; by_language := bl |}))
  else Ret {| total_stars := ts; total_forks := tf;
              by_language := by_language acc |}))))).

Fixpoint total_repos (acc : repo_totals) (repos : list json) : result repo_totals :=
  match repos with
  | [] => Ret acc
  | repo :: repos' => rbind (total_repo acc repo) (fun acc' => total_repos acc' repos')
  end.

Definition by_lang_json (e : pykey * by_lang) : string * json :=
  (key_str (fst e),
   JObj [("repos", JNum (bl_repos (snd e))); ("stars", JNum (bl_stars (snd e)));
         ("forks", JNum (bl_forks (snd e)))]).

(** The content of [statistics/repositories.json]. *)
Definition repo_totals_json (total_repos_count : Z) (t : repo_totals) : json :=
  JObj [("total_stars", JNum (total_stars t));
        ("total_forks", JNum (total_forks t));
        ("total_watchers", JNum 0);
        ("total_repos", JNum total_repos_count);
        ("by_language", JObj (map by_lang_json (by_language t)))].

(** *** Reading the output tree back *)

Fixpoint is_prefix (p q : path) : bool :=
  match p, q with
  | [], _ => true
  | a :: p', b :: q' => String.eqb a b && is_prefix p' q'
  | _ :: _, [] => false
  end.

(** [d.exists()] for a directory [d]. *)
Definition dir_exists (d : path) (s : state) : bool :=
  existsb (is_prefix d) (st_dirs s).

Fixpoint read_file (p : path) (fs : list (path * json)) : option json :=
  match fs with
  | [] => None
  | (q, c) :: fs' => if path_eqb p q then Some c else read_file p fs'
  end.

(** The parsed contents of the files [d.glob("*.json")] yields. *)
Definition glob_json (d : path) (fs : list (path * json)) : list json :=
  map snd
    (filter (fun f => path_eqb (parent (fst f)) d &&
                      endswith ".json" (last (fst f) EmptyString)) fs).

Definition get_state : M state := fun s => Some (Ret s, s).

(** [str(e)], standing for the message text the raising library chose. *)
Definition exn_str (e : exn) : string :=
  match e with
  | HTTPError c => "HTTPError " ++ z_str c
  | ConnectionError => "ConnectionError"
  | Timeout => "Timeout"
  | JSONDecodeError => "JSONDecodeError"
  | KeyError k => k
  | TypeError => "TypeError"
  | AttributeError => "AttributeError"
  | IndexError => "IndexError"
  | ValueError => "ValueError"
  | OSError => "OSError"
  | FileNotFoundError => "FileNotFoundError"
  | PermissionError => "PermissionError"
  | BinasciiError => "binascii.Error"
  | CalledProcessError c => "CalledProcessError " ++ z_str c
  | EOFError => "EOFError"
  | KeyboardInterrupt => "KeyboardInterrupt"
  | SystemExit c => z_str c
  end.

Definition error_str (m : error_msg) : string :=
  match m with
  | ErrRequest endpoint e => "request failed: " ++ endpoint ++ " - " ++ exn_str e
  | ErrGraphQL e => "GraphQL request failed: " ++ exn_str e
  end.

(** [self.stats] as [json.dump] writes it. *)
Definition stats_json (t : stats) : json :=
  JObj [("requests_made", JNum (Z.of_nat (requests_made t)));
        ("data_fetched", JObj (data_fetched t));
        ("errors", JArr (map (fun m => JStr (error_str m)) (errors t)))].

(** [isinstance(value, int)]; [bool] is a subclass of [int]. *)
Definition is_int (v : json) : bool :=
  match v with
  | JNum _ | JBool _ => true
  | _ => false
  end.

Section WithEnv.

Variable E : env.

(** [_make_request] *)
Definition _make_request (endpoint : string) (params : option (dict json))
    : M response :=
  count_request ;;
  try_except
    (log (Get endpoint params) ;;
     response <- lift (session_get E endpoint params) ;;
     lift (raise_for_status response) ;;
     ret response)
    is_RequestException
    (fun e =>
       append_error (ErrRequest endpoint e) ;;
       print Stderr (MRequestFailed endpoint e) ;;
       raise e).

(** How one turn of the [while True] loop ends. *)
Inductive ctl : Type := Break | Continue.

(** The [try] block of one turn of the loop of [_fetch_paginated_data],
    with the list [all_data] as it stands when the block is left. *)
Definition page_body (endpoint : string) (params : dict json)
    (all_data : list json) : M (ctl * list json) :=
  response <- _make_request endpoint (Some params) ;;
  data <- lift (response_json response) ;;
  if negb (truthy data) then ret (Break, all_data)
  else
    items <- lift (iterate data) ;;
    let all_data := all_data ++ items in
    let link_header :=
      match dict_get "Link" (headers response) with
      | Some h => h
      | None => EmptyString
      end in
    if negb (contains rel_next link_header) then ret (Break, all_data)
    else ret (Continue, all_data).

(** The loop of [_fetch_paginated_data], from page [page] on. *)
Fixpoint fetch_pages (fuel : nat) (endpoint : string) (params : dict json)
    (page : nat) (all_data : list json) : M (list json) :=
  match fuel with
  | O => diverge
  | S fuel' =>
      let params := dict_set "page" (JNum (Z.of_nat page)) params in
      print Stdout (MPage page) ;;
      r <- try_except (page_body endpoint params all_data) is_Exception
             (fun e => print Stderr (MPageError page e) ;;
                       ret (Break, all_data)) ;;
      match r with
      | (Break, all_data) => ret all_data
      | (Continue, all_data) =>
          fetch_pages fuel' endpoint params (S page) all_data
      end
  end.

(** The query parameters before the loop of [_fetch_paginated_data]:
    [if params is None: params = {}] and [params["per_page"] = per_page]
    with [per_page = 100]. *)
Definition page_params (params : option (dict json)) : dict json :=
  dict_set "per_page" (JNum 100) match params with Some p => p | None => [] end.

(** [_fetch_paginated_data] *)
Definition _fetch_paginated_data (fuel : nat) (endpoint : string)
    (params : option (dict json)) : M (list json) :=
  fetch_pages fuel endpoint (page_params params) 1 [].

(** [d.mkdir(parents=True, exist_ok=True)] *)
Definition mkdir (d : path) : M unit :=
  fun s =>
    match mkdir_raises E d with
    | Some e => Some (Raise e, s)
    | None => Some (Ret tt, {| st_stats := st_stats s; st_files := st_files s;
                               st_dirs := d :: st_dirs s;
                               st_trace := st_trace s |})
    end.

Fixpoint set_file (p : path) (content : json) (fs : list (path * json))
    : list (path * json) :=
  match fs with
  | [] => [(p, content)]
  | (q, c) :: fs' =>
      if path_eqb p q then (q, content) :: fs' else (q, c) :: set_file p content fs'
  end.

(** [with open(filepath, 'w') as f: json.dump(data, f, ...)].  A write that
    raises is taken to leave the file system as it was. *)
Definition write_json (p : path) (data : json) : M unit :=
  fun s =>
    match open_raises E p with
    | Some e => Some (Raise e, s)
    | None => Some (Ret tt, {| st_stats := st_stats s;
                               st_files := set_file p data (st_files s);
                               st_dirs := st_dirs s;
                               st_trace := st_trace s ++ [Write p data] |})
    end.

(** [_save_json] *)
Definition _save_json (data : json) (filepath : path) : M unit :=
  mkdir (parent filepath) ;;
  write_json filepath data ;;
  print Stdout (MSaved filepath).

Fixpoint for_each {A : Type} (xs : list A) (f : A -> M unit) : M unit :=
  match xs with
  | [] => ret tt
  | x :: xs' => f x ;; for_each xs' f
  end.

(** A dict display [{k1: e1(x), k2: e2(x), ...}], its entries evaluated in
    order. *)
Definition build (fields : list (string * (json -> result json))) (x : json)
    : result json :=
  rbind (rmap (fun f => rbind (snd f x) (fun v => Ret (fst f, v))) fields)
        (fun kv => Ret (JObj kv)).

(** [x[k]] as a field of a dict display. *)
Definition item (k : string) : json -> result json := fun x => getitem x k.

Definition list_len (xs : list json) : json := JNum (Z.of_nat (List.length xs)).

Variable username : string.
Variable token : option string.
(** [str(self.output_dir)] *)
Variable output_directory : string.

(** [if self.token:] *)
Definition token_given : bool :=
  match token with
  | Some t => negb (is_empty t)
  | None => false
  end.

Definition user_endpoint (suffix : string) : string :=
  "/users/" ++ username ++ suffix.

(** [fetch_profile] *)
Definition fetch_profile : M json :=
  print Stdout (MHeader "profile") ;;
  response <- _make_request (user_endpoint EmptyString) None ;;
  profile <- lift (response_json response) ;;
  _save_json profile ["profile.json"] ;;
  set_fetched "profile" (JBool true) ;;
  ret profile.

Definition repo_summary : json -> result json :=
  build [("name", item "name"); ("full_name", item "full_name");
         ("description", item "description");
         ("stars", item "stargazers_count"); ("forks", item "forks_count");
         ("language", item "language"); ("updated_at", item "updated_at");
         ("html_url", item "html_url")].

(** [fetch_repositories] *)
Definition fetch_repositories (fuel : nat) : M unit :=
  print Stdout (MHeader "repositories") ;;
  repos <- _fetch_paginated_data fuel (user_endpoint "/repos")
             (Some [("type", JStr "all"); ("sort", JStr "updated")]) ;;
  repos_summary <- lift (rmap repo_summary repos) ;;
  _save_json (JArr repos_summary) ["repositories"; "list.json"] ;;
  for_each repos (fun repo =>
    repo_name <- lift (getitem repo "name") ;;
    _save_json repo ["repositories"; "details"; (py_str repo_name ++ ".json")%string]) ;;
  set_fetched "repositories" (list_len repos) ;;
  print Stdout (MTotal "repositories" (list_len repos)).

Definition gist_summary : json -> result json :=
  build [("id", item "id"); ("description", item "description");
         ("public", item "public");
         ("files", fun gist => rbind (getitem gist "files") keys);
         ("created_at", item "created_at"); ("updated_at", item "updated_at");
         ("html_url", item "html_url")].

(** [fetch_gists] *)
Definition fetch_gists (fuel : nat) : M unit :=
  print Stdout (MHeader "gists") ;;
  gists <- _fetch_paginated_data fuel (user_endpoint "/gists") None ;;
  gists_summary <- lift (rmap gist_summary gists) ;;
  _save_json (JArr gists_summary) ["gists"; "list.json"] ;;
  for_each gists (fun gist =>
    gist_id <- lift (getitem gist "id") ;;
    _save_json gist ["gists"; "details"; (py_str gist_id ++ ".json")%string]) ;;
  set_fetched "gists" (list_len gists) ;;
  print Stdout (MTotal "gists" (list_len gists)).

Definition starred_summary : json -> result json :=
  build [("name", item "name"); ("full_name", item "full_name");
         ("description", item "description");
         ("stars", item "stargazers_count"); ("language", item "language");
         ("html_url", item "html_url")].

(** [fetch_starred] *)
Definition fetch_starred (fuel : nat) : M unit :=
  print Stdout (MHeader "starred") ;;
  starred <- _fetch_paginated_data fuel (user_endpoint "/starred")
               (Some [("sort", JStr "created")]) ;;
  summary <- lift (rmap starred_summary starred) ;;
  _save_json (JArr summary) ["starred"; "repositories.json"] ;;
  set_fetched "starred" (list_len starred) ;;
  print Stdout (MTotal "starred" (list_len starred)).

Definition user_summary : json -> result json :=
  build [("login", item "login"); ("id", item "id");
         ("avatar_url", item "avatar_url"); ("html_url", item "html_url");
         ("type", item "type")].

(** [fetch_followers] *)
Definition fetch_followers (fuel : nat) : M unit :=
  print Stdout (MHeader "followers") ;;
  followers <- _fetch_paginated_data fuel (user_endpoint "/followers") None ;;
  summary <- lift (rmap user_summary followers) ;;
  _save_json (JArr summary) ["social"; "followers.json"] ;;
  set_fetched "followers" (list_len followers) ;;
  print Stdout (MTotal "followers" (list_len followers)).

(** [fetch_following] *)
Definition fetch_following (fuel : nat) : M unit :=
  print Stdout (MHeader "following") ;;
  following <- _fetch_paginated_data fuel (user_endpoint "/following") None ;;
  summary <- lift (rmap user_summary following) ;;
  _save_json (JArr summary) ["social"; "following.json"] ;;
  set_fetched "following" (list_len following) ;;
  print Stdout (MTotal "following" (list_len following)).

(** The shape shared by the methods whose whole body after the header line
    sits in [try: ... except Exception as e:], the handler printing the
    failure and recording a count of 0 (or [False]). *)
Definition guarded (what : string) (on_failure : json) (body : M unit) : M unit :=
  print Stdout (MHeader what) ;;
  try_except body is_Exception
    (fun e => print Stderr (MFailed what (Some e)) ;;
              set_fetched what on_failure).

Definition org_summary : json -> result json :=
  build [("login", item "login"); ("id", item "id");
         ("description", fun org => get org "description");
         ("avatar_url", item "avatar_url");
         ("html_url", fun org =>
            rbind (getitem org "login") (fun l =>
            Ret (JStr ("https://github.com/" ++ py_str l)%string)))].

(** [fetch_organizations] *)
Definition fetch_organizations (fuel : nat) : M unit :=
  guarded "organizations" (JNum 0)
    (orgs <- _fetch_paginated_data fuel (user_endpoint "/orgs") None ;;
     summary <- lift (rmap org_summary orgs) ;;
     _save_json (JArr summary) ["organizations.json"] ;;
     set_fetched "organizations" (list_len orgs) ;;
     print Stdout (MTotal "organizations" (list_len orgs))).

Definition event_summary : json -> result json :=
  build [("id", item "id"); ("type", item "type");
         ("repo", fun event =>
            rbind (getitem event "repo") (fun r => getitem r "name"));
         ("created_at", item "created_at"); ("public", item "public")].

(** [fetch_events] *)
Definition fetch_events (fuel : nat) : M unit :=
  guarded "events" (JNum 0)
    (events <- _fetch_paginated_data fuel (user_endpoint "/events/public") None ;;
     summary <- lift (rmap event_summary events) ;;
     _save_json (JArr summary) ["events"; "public_events.json"] ;;
     set_fetched "events" (list_len events) ;;
     print Stdout (MTotal "events" (list_len events))).

Definition subscription_summary : json -> result json :=
  build [("name", item "name"); ("full_name", item "full_name");
         ("description", item "description"); ("html_url", item "html_url")].

(** [fetch_subscriptions] *)
Definition fetch_subscriptions (fuel : nat) : M unit :=
  guarded "subscriptions" (JNum 0)
    (subscriptions <-
       _fetch_paginated_data fuel (user_endpoint "/subscriptions") None ;;
     summary <- lift (rmap subscription_summary subscriptions) ;;
     _save_json (JArr summary) ["subscriptions.json"] ;;
     set_fetched "subscriptions" (list_len subscriptions) ;;
     print Stdout (MTotal "subscriptions" (list_len subscriptions))).

(** [_make_graphql_request] *)
Definition _make_graphql_request (query : string) : M json :=
  count_request ;;
  try_except
    (log (Post query) ;;
     response <- lift (session_post E query) ;;
     lift (raise_for_status response) ;;
     lift (response_json response))
    is_RequestException
    (fun e =>
       append_error (ErrGraphQL e) ;;
       print Stderr (MGraphQLFailed e) ;;
       raise e).

(** The GraphQL query text, which only depends on the user name. *)
Definition calendar_query : string :=
  "{ user(login: " ++ String dquote (username ++ String dquote
  ") { contributionsCollection { contributionCalendar { totalContributions weeks { contributionDays { contributionCount date weekday } } } restrictedContributionsCount } } }").

(** [fetch_contribution_calendar] *)
Definition fetch_contribution_calendar : M unit :=
  guarded "contribution_calendar" (JNum 0)
    (result <- _make_graphql_request calendar_query ;;
     has_data <- lift (has_key "data" result) ;;
     user <- (if has_data
              then lift (rbind (getitem result "data") (fun d => getitem d "user"))
              else ret JNull) ;;
     if has_data && truthy user then
       contribution_data <- lift (getitem user "contributionsCollection") ;;
       _save_json contribution_data ["contributions"; "calendar.json"] ;;
       total <- lift (rbind (getitem contribution_data "contributionCalendar")
                            (fun c => getitem c "totalContributions")) ;;
       set_fetched "contribution_calendar" total ;;
       print Stdout (MTotal "contribution_calendar" total)
     else
       print Stderr (MFailed "contribution_calendar" None) ;;
       set_fetched "contribution_calendar" (JNum 0)).

(** [x["repository_url"].split("/")[-2:]] *)
Definition repository_of (x : json) : result json :=
  rbind (getitem x "repository_url") (fun u =>
    match u with
    | JStr s => Ret (JArr (map JStr (last_n 2 (split "/" s))))
    | _ => Raise AttributeError
    end).

(** [[label["name"] for label in x.get("labels", [])]] *)
Definition labels_of (x : json) : result json :=
  rbind (get_default x "labels" (JArr [])) (fun ls =>
  rbind (iterate ls) (fun ls =>
  rbind (rmap (fun label => getitem label "name") ls) (fun names =>
  Ret (JArr names)))).

Definition search_summary : json -> result json :=
  build [("title", item "title"); ("state", item "state");
         ("created_at", item "created_at"); ("updated_at", item "updated_at");
         ("closed_at", fun x => get x "closed_at");
         ("repository", repository_of);
         ("html_url", item "html_url");
         ("comments", fun x => get_default x "comments" (JNum 0));
         ("labels", labels_of)].

(** The common body of [fetch_pull_requests] and [fetch_issues]: one
    request to the search API, the first 100 hits summarised. *)
Definition fetch_search (what kind list_key : string) (file : path) : M unit :=
  guarded what (JNum 0)
    (response <- _make_request "/search/issues"
       (Some [("q", JStr ("author:" ++ username ++ " type:" ++ kind)%string);
              ("per_page", JNum 100); ("sort", JStr "created");
              ("order", JStr "desc")]) ;;
     search_result <- lift (response_json response) ;;
     total_count <- lift (get_default search_result "total_count" (JNum 0)) ;;
     found <- lift (get_default search_result "items" (JArr [])) ;;
     hits <- lift (iterate found) ;;
     summary <- lift (rmap search_summary hits) ;;
     fetched_count <- lift (len found) ;;
     _save_json (JObj [("total_count", total_count);
                       ("fetched_count", JNum fetched_count);
                       (list_key, JArr summary)]) file ;;
     set_fetched what total_count ;;
     print Stdout (MTotal what total_count)).

(** [fetch_pull_requests] *)
Definition fetch_pull_requests : M unit :=
  fetch_search "pull_requests" "pr" "pull_requests" ["pull_requests"; "created.json"].

(** [fetch_issues] *)
Definition fetch_issues : M unit :=
  fetch_search "issues" "issue" "issues" ["issues"; "created.json"].

(** [fetch_language_stats] *)
Definition fetch_language_stats : M unit :=
  guarded "language_stats" (JNum 0)
    (s <- get_state ;;
     let repos_dir := ["repositories"; "details"] in
     if negb (dir_exists repos_dir s) then print Stderr MNeedRepos
     else
       r <- lift (language_stats (glob_json repos_dir (st_files s))) ;;
       let (sorted_languages, total_size) := r in
       let count := JNum (Z.of_nat (List.length sorted_languages)) in
       _save_json (languages_json sorted_languages total_size)
                  ["statistics"; "languages.json"] ;;
       set_fetched "language_stats" count ;;
       print Stdout (MTotal "language_stats" count)).

(** [fetch_repository_stats] *)
Definition fetch_repository_stats : M unit :=
  guarded "repository_stats" (JBool false)
    (s <- get_state ;;
     match read_file ["repositories"; "list.json"] (st_files s) with
     | None => print Stderr MNeedRepos
     | Some repos =>
         n <- lift (len repos) ;;
         records <- lift (iterate repos) ;;
         totals <- lift (total_repos {| total_stars := 0; total_forks := 0;
                                        by_language := [] |} records) ;;
         _save_json (repo_totals_json n totals) ["statistics"; "repositories.json"] ;;
         set_fetched "repository_stats" (JBool true) ;;
         print Stdout (MTotal "repository_stats" (JNum (total_stars totals)))
     end).

Definition metadata_path : path := ["metadata.json"].

(** [save_metadata] *)
Definition save_metadata : M unit :=
  print Stdout MSavingMetadata ;;
  s <- get_state ;;
  _save_json (JObj [("username", JStr username);
                    ("fetched_at", JStr (now E));
                    ("output_directory", JStr output_directory);
                    ("statistics", stats_json (st_stats s));
                    ("api_version", JStr "2022-11-28")])
             metadata_path.

(** [print_summary] *)
Definition print_summary : M unit :=
  s <- get_state ;;
  let t := st_stats s in
  print Stdout (MSummaryHead (requests_made t)) ;;
  for_each (data_fetched t) (fun kv => print Stdout (MSummaryItem (fst kv) (snd kv))) ;;
  match errors t with
  | [] => ret tt
  | errs =>
      print Stdout (MSummaryErrors (List.length errs)) ;;
      for_each (firstn 5 errs) (fun e => print Stdout (MSummaryError e))
  end ;;
  print Stdout MSummaryFoot.

(** The statements inside the [try] of [fetch_all]. *)
Definition fetch_sequence (fuel : nat) : M unit :=
  fetch_profile ;;
  fetch_repositories fuel ;;
  fetch_gists fuel ;;
  fetch_starred fuel ;;
  fetch_followers fuel ;;
  fetch_following fuel ;;
  fetch_organizations fuel ;;
  fetch_events fuel ;;
  fetch_subscriptions fuel ;;
  (if token_given then fetch_contribution_calendar
   else print Stdout MSkipCalendar) ;;
  fetch_pull_requests ;;
  fetch_issues ;;
  fetch_language_stats ;;
  fetch_repository_stats.

(** [fetch_all] *)
Definition fetch_all (fuel : nat) : M unit :=
  print Stdout MStart ;;
  mkdir [] ;;
  try_finally
    (try_except (fetch_sequence fuel)
       (fun e => is_KeyboardInterrupt e || is_Exception e)
       (fun e => if is_KeyboardInterrupt e then print Stdout MInterrupted
                 else print Stderr (MError e)))
    (save_metadata ;; print_summary).

End WithEnv.

(** The command line of [fetch.py] after [argparse]. *)
Record args : Type := {
  arg_username : string;
  arg_token : option string;      (* -t / --token *)
  arg_output : option string      (* -o / --output *)
}.

(** State of a fresh [GitHubUserDataFetcher], over the output tree the run
    finds on disk. *)
Definition initial_state (files : list (path * json)) (dirs : list path) : state :=
  {| st_stats := {| requests_made := 0; data_fetched := []; errors := [] |};
     st_files := files; st_dirs := dirs; st_trace := [] |}.

(** [main], with the value of the environment variable GITHUB_TOKEN and the
    output tree already on disk. *)
Definition main (E : env) (a : args) (environ_token : option string)
    (files : list (path * json)) (dirs : list path) (fuel : nat)
    : option (result unit * state) :=
  let token := match arg_token a with
               | Some t => Some t
               | None => environ_token
               end in
  let output := match arg_output a with
                | Some o => o
                | None => "./github_user_data"
                end in
  fetch_all E (arg_username a) token (output ++ "/" ++ arg_username a)%string
            fuel (initial_state files dirs).

(** The exit status of the process running [main]. *)
Definition main_exit_code (E : env) (a : args) (environ_token : option string)
    (files : list (path * json)) (dirs : list path) (fuel : nat) : option Z :=
  match main E a environ_token files dirs fuel with
  | Some (r, _) => Some (exit_code r)
  | None => None
  end.

(** *** Vocabulary for statements about pagination *)

(** The page numbers of the requests to [endpoint] that a trace shows, in
    the order they were sent. *)
Definition requested_pages (endpoint : string) (tr : list event) : list Z :=
  flat_map (fun ev =>
    match ev with
    | Get ep (Some ps) =>
        if String.eqb ep endpoint then
          match dict_get "page" ps with
          | Some (JNum k) => [k]
          | _ => []
          end
        else []
    | _ => []
    end) tr.

(** Whether a response's Link header carries the marker [rel="next"]. *)
Definition has_next (hdrs : dict string) : bool :=
  contains rel_next match dict_get "Link" hdrs with
                    | Some h => h
                    | None => EmptyString
                    end.

(** Page [k] (counted from 1) of a collection cut into pages of [size]. *)
Definition page_items (items : list json) (size k : nat) : list json :=
  firstn size (skipn ((k - 1) * size) items).

(** A server that holds [items] under [endpoint] and answers the request for
    page k with status 200, the k-th page as a JSON array and the headers
    [hdrs k]. *)
Definition serves (E : env) (endpoint : string) (items : list json)
    (size : nat) (hdrs : nat -> dict string) : Prop :=
  forall (ps : dict json) (k : nat),
    dict_get "page" ps = Some (JNum (Z.of_nat k)) ->
    session_get E endpoint (Some ps) =
      Ret {| status_code := 200;
             body := Some (JArr (page_items items size k));
             headers := hdrs k |}.

(** Page [k] of [endpoint] is answered with a non-empty collection [xs] and
    a Link header that announces a next page: the loop goes on after it. *)
Definition page_continues (E : env) (endpoint : string) (ps : dict json)
    (k : nat) (xs : list json) : Prop :=
  exists r data,
    session_get E endpoint (Some (dict_set "page" (JNum (Z.of_nat k)) ps)) = Ret r /\
    raise_for_status r = Ret tt /\
    body r = Some data /\
    truthy data = true /\
    iterate data = Ret xs /\
    has_next (headers r) = true.

(** The request for page [k] of [endpoint], or the decoding of its body,
    raises [e]. *)
Definition page_fails (E : env) (endpoint : string) (ps : dict json)
    (k : nat) (e : exn) : Prop :=
  let ps' := dict_set "page" (JNum (Z.of_nat k)) ps in
  (* session.get raises *)
  session_get E endpoint (Some ps') = Raise e \/
  (* raise_for_status raises *)
  (exists r, session_get E endpoint (Some ps') = Ret r /\
             raise_for_status r = Raise e) \/
  (* response.json() raises *)
  (exists r, session_get E endpoint (Some ps') = Ret r /\
             raise_for_status r = Ret tt /\
             response_json r = Raise e).

(** *** Vocabulary for statements about a whole run *)

(** Every pagination loop of a run with this outside world stops within
    [fuel] turns. *)
Definition pagination_stops (E : env) (fuel : nat) : Prop :=
  forall endpoint params s, _fetch_paginated_data E fuel endpoint params s <> None.

(** The events of the fetch methods: requests, progress and error lines and
    the files written below the output directory.  The parameters single
    out what a statement is about: the methods whose first line counts
    ([headers]) and whether GraphQL requests do ([posts]); the write of the
    metadata file is none of them. *)
Definition routine (headers : string -> bool) (posts : bool) (ev : event) : bool :=
  match ev with
  | Get _ _ => true
  | Post _ => posts
  | Write p _ => negb (path_eqb p metadata_path)
  | Print _ m =>
      match m with
      | MHeader what => headers what
      | MPage _ | MPageError _ _ | MRequestFailed _ _ | MGraphQLFailed _
      | MSaved _ | MTotal _ _ | MFailed _ _ | MNeedRepos | MSkipCalendar => true
      | _ => false
      end
  end.

(** The six methods of [fetch_all] whose body is not wrapped in a [try]. *)
Definition unguarded (what : string) : bool :=
  existsb (String.eqb what)
    ["profile"; "repositories"; "gists"; "starred"; "followers"; "following"].

(** The event is a write of the metadata file. *)
Definition writes_metadata (ev : event) : bool :=
  match ev with
  | Write p _ => path_eqb p metadata_path
  | _ => false
  end.

(** The method [what] printed its first line. *)
Definition started (what : string) (tr : list event) : Prop :=
  In (Print Stdout (MHeader what)) tr.

(** The lines [print_summary] prints for the statistics [t]. *)
Definition summary_lines (t : stats) : list event :=
  [Print Stdout (MSummaryHead (requests_made t))] ++
  map (fun kv => Print Stdout (MSummaryItem (fst kv) (snd kv))) (data_fetched t) ++
  match errors t with
  | [] => []
  | errs => Print Stdout (MSummaryErrors (List.length errs)) ::
            map (fun e => Print Stdout (MSummaryError e)) (firstn 5 errs)
  end ++
  [Print Stdout MSummaryFoot].

(** The content of the metadata file for the statistics [t]. *)
Definition metadata_json (E : env) (username output_directory : string)
    (t : stats) : json :=
  JObj [("username", JStr username);
        ("fetched_at", JStr (now E));
        ("output_directory", JStr output_directory);
        ("statistics", stats_json t);
        ("api_version", JStr "2022-11-28")].

(** The statements of [fetch_sequence] up to [fetch_following]: the calls
    of the unguarded methods. *)
Definition unguarded_fetches (E : env) (username : string) (fuel : nat)
    : M unit :=
  fetch_profile E username ;;
  fetch_repositories E username fuel ;;
  fetch_gists E username fuel ;;
  fetch_starred E username fuel ;;
  fetch_followers E username fuel ;;
  fetch_following E username fuel.

(** The contribution step of [fetch_sequence]. *)
Definition contribution_step (E : env) (username : string)
    (token : option string) : M unit :=
  if token_given token then fetch_contribution_calendar E username
  else print Stdout MSkipCalendar.

(** The statements of [fetch_sequence] after the contribution data. *)
Definition after_contributions (E : env) (username : string) : M unit :=
  fetch_pull_requests E username ;;
  fetch_issues E username ;;
  fetch_language_stats E ;;
  fetch_repository_stats E.

(** The statements of [fetch_sequence] from [fetch_organizations] on: the
    calls of the methods whose body is wrapped in a [try], and the
    contribution step. *)
Definition guarded_fetches (E : env) (username : string)
    (token : option string) (fuel : nat) : M unit :=
  fetch_organizations E username fuel ;;
  fetch_events E username fuel ;;
  fetch_subscriptions E username fuel ;;
  contribution_step E username token ;;
  after_contributions E username.

(** The statements of [fetch_sequence] before the contribution data. *)
Definition before_contributions (E : env) (username : string) (fuel : nat)
    : M unit :=
  fetch_profile E username ;;
  fetch_repositories E username fuel ;;
  fetch_gists E username fuel ;;
  fetch_starred E username fuel ;;
  fetch_followers E username fuel ;;
  fetch_following E username fuel ;;
  fetch_organizations E username fuel ;;
  fetch_events E username fuel ;;
  fetch_subscriptions E username fuel.

(** An outside world in which no collection has a second page: every
    answer to a GET is an error, is empty, or carries no next marker. *)
Definition answers_one_page (E : env) : Prop :=
  forall endpoint params,
    match session_get E endpoint params with
    | Raise _ => True
    | Ret r =>
        match body r with
        | Some data => truthy data = false \/ has_next (headers r) = false
        | None => True
        end
    end.

(** The claim that a failed request of the repositories fetch ends the run
    before the gists fetch. *)
Definition repositories_failure_aborts : Prop :=
  forall E username token fuel r s' e,
    fetch_sequence E username token fuel (initial_state [] []) = Some (r, s') ->
    In (ErrRequest (user_endpoint username "/repos") e) (errors (st_stats s')) ->
    ~ started "gists" (st_trace s').

(** The claim that a run without a token always prints the line about the
    skipped contribution calendar. *)
Definition skip_always_logged : Prop :=
  forall E username token output_directory fuel r s',
    token_given token = false ->
    fetch_all E username token output_directory fuel (initial_state [] [])
      = Some (r, s') ->
    In (Print Stdout MSkipCalendar) (st_trace s').

(** The claim that every run that ends has written the metadata file and
    printed the summary. *)
Definition metadata_always_written : Prop :=
  forall E username token output_directory fuel r s',
    fetch_all E username token output_directory fuel (initial_state [] [])
      = Some (r, s') ->
    (exists content, In (Write metadata_path content) (st_trace s')) /\
    In (Print Stdout MSummaryFoot) (st_trace s').

(** An outside world whose failures are exceptions and Ctrl-C: no library
    call ends the process by itself. *)
Definition never_exits (E : env) : Prop :=
  (forall endpoint params e,
     session_get E endpoint params = Raise e -> is_SystemExit e = false) /\
  (forall query e, session_post E query = Raise e -> is_SystemExit e = false) /\
  (forall d e, mkdir_raises E d = Some e -> is_SystemExit e = false) /\
  (forall p e, open_raises E p = Some e -> is_SystemExit e = false).

(** The claim that the exporter exits with status 1 when a request of the
    run failed. *)
Definition exporter_failure_exits_1 : Prop :=
  forall E a environ_token fuel r s',
    main E a environ_token [] [] fuel = Some (r, s') ->
    errors (st_stats s') <> [] ->
    exit_code r = 1%Z.

(** *** Vocabulary for statements about the language statistics *)

Fixpoint zsum {A : Type} (f : A -> Z) (l : list A) : Z :=
  match l with
  | [] => 0%Z
  | x :: l' => (f x + zsum f l')%Z
  end.

(** The sum of the per-language sizes of the finished dict. *)
Definition sum_sizes (langs : list (pykey * lang_stat)) : Z :=
  zsum (fun e => total_size_kb (snd e)) langs.

(** The sum of the per-language percentages, in hundredths of a percent. *)
Definition sum_percentages (langs : list (pykey * lang_stat)) : Z :=
  zsum (fun e => percentage_hundredths (snd e)) langs.

End Exporter.

(** ** The [base64] module of the Python standard library

    [base64.b64encode] and [base64.b64decode] (RFC 4648, standard alphabet),
    the latter as CPython's [binascii.a2b_base64] decodes when it is not in
    strict mode: characters outside the alphabet are skipped and decoding
    stops at the padding that completes a quad. *)

Module Base64.
Import Py.

Definition bytes : Type := list byte.

(** An [unsigned char] store: the low eight bits. *)
Definition to_byte (n : N) : byte :=
  match Byte.of_N (N.land n 255) with
  | Some b => b
  | None => Byte.x00
  end.

Definition alphabet : string :=
  "ABCDEFGHIJKLMNOPQRSTUVWXYZabcdefghijklmnopqrstuvwxyz0123456789+/".

(** The character of a six-bit value. *)
Definition b64_char (v : N) : ascii :=
  nth (N.to_nat v) (list_ascii_of_string alphabet) "="%char.

(** The six-bit value of a character of the alphabet
    ([table_a2b_base64]). *)
Definition b64_value (c : ascii) : option N :=
  let n := N_of_ascii c in
  if ((65 <=? n) && (n <=? 90))%N then Some (n - 65)%N
  else if ((97 <=? n) && (n <=? 122))%N then Some (n - 97 + 26)%N
  else if ((48 <=? n) && (n <=? 57))%N then Some (n - 48 + 52)%N
  else if (n =? 43)%N then Some 62%N
  else if (n =? 47)%N then Some 63%N
  else None.

(** The four six-bit values of three bytes. *)
Definition sextet0 (a : byte) : N := N.shiftr (Byte.to_N a) 2.
Definition sextet1 (a b : byte) : N :=
  N.lor (N.shiftl (N.land (Byte.to_N a) 3) 4) (N.shiftr (Byte.to_N b) 4).
Definition sextet2 (b c : byte) : N :=
  N.lor (N.shiftl (N.land (Byte.to_N b) 15) 2) (N.shiftr (Byte.to_N c) 6).
Definition sextet3 (c : byte) : N := N.land (Byte.to_N c) 63.

(** [base64.b64encode(data).decode('utf-8')] *)
Fixpoint b64encode (data : bytes) : string :=
  match data with
  | [] => EmptyString
  | [a] =>
      String (b64_char (sextet0 a))
        (String (b64_char (sextet1 a Byte.x00)) "==")
  | [a; b] =>
      String (b64_char (sextet0 a))
        (String (b64_char (sextet1 a b))
           (String (b64_char (sextet2 b Byte.x00)) "="))
  | a :: b :: c :: rest =>
      String (b64_char (sextet0 a))
        (String (b64_char (sextet1 a b))
           (String (b64_char (sextet2 b c))
              (String (b64_char (sextet3 c)) (b64encode rest))))
  end.

(** The loop of [binascii.a2b_base64] over the remaining input, with its
    variables [quad_pos], [leftchar] and [pads] and the bytes written so
    far. *)
Fixpoint a2b_loop (s : string) (quad_pos : nat) (leftchar : N) (pads : nat)
    (out : bytes) : result bytes :=
  match s with
  | EmptyString =>
      match quad_pos with
      | O => Ret out
      | _ => Raise BinasciiError   (* "Incorrect padding" and the like *)
      end
  | String c s' =>
      if Ascii.eqb c "="%char then
        if (2 <=? quad_pos)%nat then
          if (4 <=? quad_pos + S pads)%nat then Ret out
          else a2b_loop s' quad_pos leftchar (S pads) out
        else a2b_loop s' quad_pos leftchar pads out
      else
        match b64_value c with
        | None => a2b_loop s' quad_pos leftchar pads out
        | Some v =>
            match quad_pos with
            | 0%nat => a2b_loop s' 1 v 0 out
            | 1%nat =>
                a2b_loop s' 2 (N.land v 15) 0
                  (out ++ [to_byte (N.lor (N.shiftl leftchar 2) (N.shiftr v 4))])
            | 2%nat =>
                a2b_loop s' 3 (N.land v 3) 0
                  (out ++ [to_byte (N.lor (N.shiftl leftchar 4) (N.shiftr v 2))])
            | _ =>
                a2b_loop s' 0 0 0
                  (out ++ [to_byte (N.lor (N.shiftl leftchar 6) v)])
            end
        end
  end.

Fixpoint is_ascii_text (s : string) : bool :=
  match s with
  | EmptyString => true
  | String c s' => (N_of_ascii c <? 128)%N && is_ascii_text s'
  end.

(** [base64.b64decode(s)] for a [str] argument: the text has to be ASCII,
    then [a2b_base64] runs. *)
Definition b64decode (s : string) : result bytes :=
  if is_ascii_text s then a2b_loop s 0 0 0 [] else Raise ValueError.

(** The 256 bytes, in order. *)
Definition all_bytes : bytes := map to_byte (map N.of_nat (seq 0 256)).

End Base64.

(** ** The Imgur uploader: [upload.py]

    What the script prints is left out; its results, the file it writes and
    its exit status are kept. *)

Module Uploader.
Import Py Base64.

(** [response] of [requests.post]: status, body as JSON ([None]: not JSON)
    and raw text. *)
Record response : Type := {
  status_code : Z;
  body : option json;
  text : string
}.

(** The outside world of one run. *)
Record env : Type := {
  (* os.path.exists(image_path) *)
  path_exists : string -> bool;
  (* open(image_path, "rb").read() *)
  read_bytes : string -> result bytes;
  (* requests.post(IMGUR_UPLOAD_URL, headers={"Authorization": auth},
                   data=payload, timeout=30) *)
  post : string -> dict string -> result response;
  (* open(args.output, "w").write(json_output): [Some e] when it raises *)
  write_raises : string -> option exn;
  (* os.environ.get *)
  environ : string -> option string
}.

(** [DEFAULT_CLIENT_ID] *)
Definition DEFAULT_CLIENT_ID : string := "YOUR_CLIENT_ID_HERE".

(** Truth value of an optional string argument: [if access_token:]. *)
Definition given (x : option string) : bool :=
  match x with
  | Some s => negb (is_empty s)
  | None => false
  end.

(** [os.path.basename(p)] *)
Definition basename (p : string) : string := last (split "/" p) EmptyString.

Definition valid_extensions : list string :=
  [".jpg"; ".jpeg"; ".png"; ".gif"; ".bmp"; ".webp"; ".tiff"].

(** The values [result["error"]] takes. *)
Inductive upload_error : Type :=
| FileNotFound                       (* "File not found" *)
| InvalidFormat (ext : string)       (* "Invalid image format: {ext}" *)
| NoAuthentication                   (* "No authentication provided ..." *)
| ApiSuccessFalse                    (* "Imgur API returned success=false" *)
| HttpStatus (code : Z) (text : string)   (* "HTTP {code}: {text}" *)
| RequestTimeout                     (* "Request timeout" *)
| NetworkError (e : exn)             (* "Network error: {e}" *)
| Unexpected (e : exn).              (* "Unexpected error: {e}" *)

(** The dict [upload_image_to_imgur] returns. *)
Record upload_result : Type := {
  original_path : string;
  filename : string;
  success : bool;
  error : option upload_error;
  upload_type : string;
  imgur_data : option json
}.

Definition set_error (r : upload_result) (e : upload_error) : upload_result :=
  {| original_path := original_path r; filename := filename r;
     success := success r; error := Some e;
     upload_type := upload_type r; imgur_data := imgur_data r |}.

Definition set_success (r : upload_result) : upload_result :=
  {| original_path := original_path r; filename := filename r;
     success := true; error := error r;
     upload_type := upload_type r; imgur_data := imgur_data r |}.

Definition set_imgur_data (r : upload_result) (d : json) : upload_result :=
  {| original_path := original_path r; filename := filename r;
     success := success r; error := error r;
     upload_type := upload_type r; imgur_data := Some d |}.

(** The dict stored in [result["imgur_data"]]. *)
Definition imgur_fields (data : json) : result json :=
  rbind (get data "id") (fun id =>
  rbind (get data "link") (fun link =>
  rbind (get data "deletehash") (fun deletehash =>
  rbind (get data "datetime") (fun datetime =>
  rbind (get data "type") (fun type =>
  rbind (get data "width") (fun width =>
  rbind (get data "height") (fun height =>
  rbind (get data "size") (fun size =>
  rbind (get data "bandwidth") (fun bandwidth =>
  rbind (get data "views") (fun views =>
  rbind (get data "title") (fun title =>
  rbind (get data "description") (fun description =>
  Ret (JObj [("id", id); ("link", link); ("deletehash", deletehash);
             ("datetime", datetime); ("type", type); ("width", width);
             ("height", height); ("size", size); ("bandwidth", bandwidth);
             ("views", views); ("title", title); ("description", description);
             ("delete_link",
              if truthy deletehash
              then JStr ("https://imgur.com/delete/" ++ py_str deletehash)%string
              else JNull)]))))))))))))).

Section WithEnv.

Variable E : env.

(** The [try] block of [upload_image_to_imgur], acting on the dict [result]:
    it yields the dict as the block leaves it, together with the exception
    that ended the block, if one did. *)
Definition upload_attempt (image_path : string)
    (client_id access_token title description : option string)
    (result0 : upload_result) : upload_result * option exn :=
  match read_bytes E image_path with
  | Raise e => (result0, Some e)
  | Ret data =>
      let image_data := b64encode data in
      let authorization :=
        if given access_token
        then Some ("Bearer " ++ match access_token with
                                | Some t => t | None => EmptyString end)%string
        else if given client_id
        then Some ("Client-ID " ++ match client_id with
                                   | Some c => c | None => EmptyString end)%string
        else None in
      match authorization with
      | None => (set_error result0 NoAuthentication, None)
      | Some auth =>
          let payload := [("image", image_data); ("type", "base64")] in
          let payload := if given title
                         then payload ++ [("title", match title with
                                                    | Some t => t
                                                    | None => EmptyString end)]
                         else payload in
          let payload := if given description
                         then payload ++ [("description",
                                           match description with
                                           | Some d => d
                                           | None => EmptyString end)]
                         else payload in
          match post E auth payload with
          | Raise e => (result0, Some e)
          | Ret response =>
              if (status_code response =? 200)%Z then
                match body response with
                | None => (result0, Some JSONDecodeError)
                | Some response_data =>
                    match get response_data "success" with
                    | Raise e => (result0, Some e)
                    | Ret ok =>
                        if truthy ok then
                          match get_default response_data "data" (JObj []) with
                          | Raise e => (result0, Some e)
                          | Ret data =>
                              let result1 := set_success result0 in
                              match imgur_fields data with
                              | Raise e => (result1, Some e)
                              | Ret d => (set_imgur_data result1 d, None)
                              end
                          end
                        else (set_error result0 ApiSuccessFalse, None)
                    end
                end
              else (set_error result0
                      (HttpStatus (status_code response) (text response)), None)
          end
      end
  end.

(** [upload_image_to_imgur].  It raises only what its [except] clauses let
    through. *)
Definition upload_image_to_imgur (image_path : string)
    (client_id access_token title description : option string)
    : result upload_result :=
  let result0 :=
    {| original_path := image_path;
       filename := basename image_path;
       success := false;
       error := None;
       upload_type := if given access_token then "authenticated" else "anonymous";
       imgur_data := None |} in
  if negb (path_exists E image_path) then Ret (set_error result0 FileNotFound)
  else
    let file_ext := lower (suffix image_path) in
    if negb (existsb (String.eqb file_ext) valid_extensions)
    then Ret (set_error result0 (InvalidFormat file_ext))
    else
      match upload_attempt image_path client_id access_token title description
                           result0 with
      | (r, None) => Ret r
      | (r, Some e) =>
          if is_Timeout e then Ret (set_error r RequestTimeout)
          else if is_RequestException e then Ret (set_error r (NetworkError e))
          else if is_Exception e then Ret (set_error r (Unexpected e))
          else Raise e
      end.

(** The dict [upload_multiple_images] returns. *)
Record summary : Type := {
  total : Z;
  successful : Z;
  failed : Z;
  uploads : list upload_result
}.

(** The [for] loop of [upload_multiple_images] over the paths still to do. *)
Fixpoint upload_each (image_paths : list string)
    (client_id access_token : option string) (results : summary)
    : result summary :=
  match image_paths with
  | [] => Ret results
  | image_path :: rest =>
      rbind (upload_image_to_imgur image_path client_id access_token None None)
        (fun r =>
           let results :=
             {| total := total results;
                successful := successful results;
                failed := failed results;
                uploads := uploads results ++ [r] |} in
           let results :=
             if success r
             then {| total := total results;
                     successful := successful results + 1;
                     failed := failed results;
                     uploads := uploads results |}
             else {| total := total results;
                     successful := successful results;
                     failed := failed results + 1;
                     uploads := uploads results |} in
           upload_each rest client_id access_token results)
  end.

(** [upload_multiple_images] *)
Definition upload_multiple_images (image_paths : list string)
    (client_id access_token : option string) : result summary :=
  upload_each image_paths client_id access_token
    {| total := Z.of_nat (List.length image_paths);
       successful := 0; failed := 0; uploads := [] |}.

(** [get_authentication] *)
Definition get_authentication : result (option string * option string) :=
  let access_token := environ E "IMGUR_ACCESS_TOKEN" in
  let client_id := environ E "IMGUR_CLIENT_ID" in
  let client_id :=
    if negb (given client_id) &&
       negb (String.eqb DEFAULT_CLIENT_ID "YOUR_CLIENT_ID_HERE")
    then Some DEFAULT_CLIENT_ID else client_id in
  if negb (given access_token) && negb (given client_id)
  then Raise (SystemExit 1)
  else Ret (client_id, access_token).

(** The command line of [upload.py] after [argparse]. *)
Record args : Type := {
  images : list string;            (* nargs="+": at least one *)
  arg_client_id : option string;   (* --client-id *)
  arg_access_token : option string;   (* --access-token *)
  arg_output : option string;      (* --output / -o *)
  arg_pretty : bool                (* --pretty *)
}.

(** Printing the links of one successful upload reads
    [upload['imgur_data']['link']] and [['delete_link']]. *)
Definition show_links (u : upload_result) : result unit :=
  match imgur_data u with
  | None => Raise TypeError     (* 'NoneType' object is not subscriptable *)
  | Some d =>
      rbind (getitem d "link") (fun _ =>
      rbind (getitem d "delete_link") (fun _ => Ret tt))
  end.

(** The credentials [main] settles on: those of the command line when one
    is given there, otherwise those of the environment. *)
Definition authentication (a : args) : result (option string * option string) :=
  if given (arg_client_id a) || given (arg_access_token a)
  then Ret (arg_client_id a, arg_access_token a)
  else get_authentication.

(** Whether the JSON output requested with [--output] gets written. *)
Definition output_written (a : args) : Prop :=
  match arg_output a with
  | Some o => is_empty o = true \/ write_raises E o = None
  | None => True
  end.

(** [main].  The result carries the [SystemExit] the script always ends
    with, or the exception that escapes it. *)
Definition main (a : args) : result unit :=
  rbind (authentication a) (fun auth =>
  let (client_id, access_token) := auth in
  rbind (upload_multiple_images (images a) client_id access_token) (fun results =>
  rbind (match arg_output a with
         | Some o => if is_empty o then Ret tt
                     else match write_raises E o with
                          | Some e => Raise e
                          | None => Ret tt
                          end
         | None => Ret tt
         end) (fun _ =>
  rbind (rmap show_links (filter success (uploads results))) (fun _ =>
  Raise (SystemExit (if (failed results =? 0)%Z then 0 else 1)))))).

(** The exit status of the process running [main]. *)
Definition main_exit_code (a : args) : Z := exit_code (main a).

End WithEnv.

(** An outside world in which nothing but [Exception]s is raised: no
    Ctrl-C during a read or a request. *)
Definition no_interrupt (E : env) : Prop :=
  (forall p e, read_bytes E p = Raise e -> is_Exception e = true) /\
  (forall auth payload e, post E auth payload = Raise e -> is_Exception e = true).

End Uploader.

(** ** The OAuth token helper: [get_token.py]

    What the script prints is left out; the lines it reads, the file it
    writes and its exit status are kept. *)

Module TokenHelper.
Import Py.

(** What a call of [input()] meets on the terminal: a line, or Ctrl-C.
    A call on an exhausted terminal raises [EOFError]. *)
Inductive stdin_event : Type :=
| Line (s : string)
| Interrupt.

(** The outside world of one run. *)
Record env : Type := {
  (* open("imgur_credentials.txt", "w") and the writes: [Some e] when they
     raise e *)
  write_raises : option exn;
  (* datetime.now().isoformat() *)
  now : string
}.

(** A file written: its name and its text. *)
Definition file_write : Type := (string * string)%type.

(** [input(prompt)] *)
Definition input (stdin : list stdin_event) : result string * list stdin_event :=
  match stdin with
  | [] => (Raise EOFError, [])
  | Line s :: rest => (Ret s, rest)
  | Interrupt :: rest => (Raise KeyboardInterrupt, rest)
  end.

Fixpoint drop (n : nat) (s : string) : string :=
  match n, s with
  | O, _ => s
  | S n', String _ s' => drop n' s'
  | S _, EmptyString => EmptyString
  end.

(** The longest prefix without ['&']: what [[^&]+] takes. *)
Fixpoint until_amp (s : string) : string :=
  match s with
  | EmptyString => EmptyString
  | String c s' =>
      if Ascii.eqb c "&"%char then EmptyString else String c (until_amp s')
  end.

(** [re.search(key + r'=([^&]+)', s)]: group 1 of the leftmost match, where
    [field] is the text [key=]. *)
Fixpoint re_search (field : string) (s : string) : option string :=
  let here :=
    if startswith field s then
      match until_amp (drop (String.length field) s) with
      | EmptyString => None
      | g => Some g
      end
    else None in
  match here with
  | Some g => Some g
  | None =>
      match s with
      | EmptyString => None
      | String _ s' => re_search field s'
      end
  end.

Definition is_digit (c : ascii) : bool :=
  let n := nat_of_ascii c in ((48 <=? n)%nat && (n <=? 57)%nat).

Fixpoint digits_value (s : string) (acc : Z) : option Z :=
  match s with
  | EmptyString => Some acc
  | String c s' =>
      if is_digit c
      then digits_value s' (acc * 10 + Z.of_nat (nat_of_ascii c - 48))
      else None
  end.

(** [int(s)] for decimal text: surrounding blanks, an optional sign and
    ASCII digits. *)
Definition parse_int (s : string) : result Z :=
  let body := strip s in
  let (sign, ds) :=
    match body with
    | String "-"%char r => ((-1)%Z, r)
    | String "+"%char r => (1%Z, r)
    | _ => (1%Z, body)
    end in
  match ds with
  | EmptyString => Raise ValueError
  | _ => match digits_value ds 0 with
         | Some v => Ret (sign * v)%Z
         | None => Raise ValueError
         end
  end.

Definition newline : string := String (ascii_of_nat 10) EmptyString.

(** The text written to [imgur_credentials.txt]. *)
Definition credentials_text (now_iso client_id access_token : string)
    (refresh_token expires_in username : option string) : string :=
  ("# Imgur API Credentials" ++ newline ++
   "# fetched at: " ++ now_iso ++ newline ++ newline ++
   "CLIENT_ID=" ++ client_id ++ newline ++
   "ACCESS_TOKEN=" ++ access_token ++ newline ++
   match refresh_token with
   | Some t => "REFRESH_TOKEN=" ++ t ++ newline
   | None => EmptyString
   end ++
   match expires_in with
   | Some t => "EXPIRES_IN=" ++ t ++ newline
   | None => EmptyString
   end ++
   match username with
   | Some t => "USERNAME=" ++ t ++ newline
   | None => EmptyString
   end ++
   newline ++ "# usage:" ++ newline ++
   "# export IMGUR_ACCESS_TOKEN=" ++ String dquote (access_token ++
   String dquote newline))%string.

Section WithEnv.

Variable E : env.

(** [main]: the outcome and the files written, from the terminal input. *)
Definition main (stdin : list stdin_event) : result unit * list file_write :=
  match input stdin with
  | (Raise e, _) => (Raise e, [])
  | (Ret line1, stdin1) =>
      let client_id := strip line1 in
      if is_empty client_id then (Raise (SystemExit 1), [])
      else
        (* webbrowser.open(auth_url) sits in a bare try/except: whatever it
           raises is dropped, so the browser is no part of the outside
           world that matters *)
        match input stdin1 with
        | (Raise e, _) => (Raise e, [])
        | (Ret line2, stdin2) =>
            let redirect_url := strip line2 in
            if is_empty redirect_url then (Raise (SystemExit 1), [])
            else
              let access_token_match := re_search "access_token=" redirect_url in
              let refresh_token := re_search "refresh_token=" redirect_url in
              let expires_in := re_search "expires_in=" redirect_url in
              let username := re_search "account_username=" redirect_url in
              match access_token_match with
              | None => (Raise (SystemExit 1), [])
              | Some access_token =>
                  (* days = int(expires_in) // 86400 *)
                  match match expires_in with
                        | Some t => rbind (parse_int t) (fun _ => Ret tt)
                        | None => Ret tt
                        end with
                  | Raise e => (Raise e, [])
                  | Ret _ =>
                      match input stdin2 with
                      | (Raise e, _) => (Raise e, [])
                      | (Ret line3, _) =>
                          let save := lower (strip line3) in
                          if String.eqb save "y" then
                            match write_raises E with
                            | None =>
                                (Ret tt,
                                 [("imgur_credentials.txt",
                                   credentials_text (now E) client_id access_token
                                     refresh_token expires_in username)])
                            | Some e =>
                                if is_Exception e then (Ret tt, [])
                                else (Raise e, [])
                            end
                          else (Ret tt, [])
                      end
                  end
              end
        end
  end.

(** The [if __name__ == "__main__":] block: [KeyboardInterrupt] becomes
    [sys.exit(0)], any other [Exception] becomes [sys.exit(1)]. *)
Definition script (stdin : list stdin_event) : result unit * list file_write :=
  match main stdin with
  | (Raise e, w) =>
      if is_KeyboardInterrupt e then (Raise (SystemExit 0), w)
      else if is_Exception e then (Raise (SystemExit 1), w)
      else (Raise e, w)
  | r => r
  end.

(** The exit status of the process. *)
Definition script_exit_code (stdin : list stdin_event) : Z :=
  exit_code (fst (script stdin)).

(** The files the run wrote. *)
Definition script_writes (stdin : list stdin_event) : list file_write :=
  snd (script stdin).

End WithEnv.

End TokenHelper.

(** ** The playlist downloader: [download.py]

    What the script prints is left out; the command it runs and its exit
    status are kept. *)

Module Downloader.
Import Py.

(** The outside world of one run. *)
Record env : Type := {
  (* output_path.mkdir(parents=True, exist_ok=True): [Some e] when it raises *)
  mkdir_raises : string -> option exn;
  (* subprocess.run(cmd, check=True): returns, or raises CalledProcessError
     (non-zero exit status), FileNotFoundError (no yt-dlp), ... *)
  subprocess_run : list string -> result unit
}.

(** The command line of [download.py] after [argparse]. *)
Record args : Type := {
  url : string;          (* -u / --url, required *)
  start : Z;             (* -s / --start, default 1 *)
  end_ : Z;              (* -e / --end, default 38 *)
  output : string;       (* -o / --output, default "." *)
  quality : string;      (* -q / --quality, default "best" *)
  quiet : bool           (* --quiet *)
}.

(** The yt-dlp command [download_playlist] builds. *)
Definition command (playlist_url : string) (start_index end_index : Z)
    (output_dir quality : string) (quiet : bool) : list string :=
  ["yt-dlp";
   "--playlist-start"; z_str start_index;
   "--playlist-end"; z_str end_index;
   "-o"; (output_dir ++ "/%(playlist_index)s - %(title)s.%(ext)s")%string;
   "-f"; quality;
   "--merge-output-format"; "mp4";
   "--write-sub";
   "--sub-lang"; "zh-Hans,zh-Hant,en";
   "--embed-subs";
   "--write-auto-sub"]
  ++ (if quiet then ["--no-progress"; "--console-title"] else [])
  ++ [playlist_url].

(** The command a run with the arguments [a] executes. *)
Definition command_of (a : args) : list string :=
  command (url a) (start a) (end_ a) (output a) (quality a) (quiet a).

Section WithEnv.

Variable E : env.

(** [download_playlist]: the status it returns, or what escapes it. *)
Definition download_playlist (playlist_url : string) (start_index end_index : Z)
    (output_dir quality : string) (quiet : bool) : result Z :=
  match mkdir_raises E output_dir with
  | Some e => Raise e
  | None =>
      match subprocess_run E (command playlist_url start_index end_index
                                      output_dir quality quiet) with
      | Ret _ => Ret 0%Z
      | Raise (CalledProcessError _) => Ret 1%Z
      | Raise FileNotFoundError => Ret 1%Z
      | Raise e => Raise e
      end
  end.

(** [main] *)
Definition main (a : args) : result Z :=
  if (start a <? 1)%Z then Ret 1%Z
  else if (end_ a <? start a)%Z then Ret 1%Z
  else download_playlist (url a) (start a) (end_ a) (output a) (quality a)
                         (quiet a).

(** [sys.exit(main())] *)
Definition script (a : args) : result unit :=
  rbind (main a) (fun status => Raise (SystemExit status)).

(** The exit status of the process. *)
Definition script_exit_code (a : args) : Z := exit_code (script a).

End WithEnv.

End Downloader.

(** ** The image generator: [generate.py]

    What the script prints is left out; its requests, the file it writes and
    its exit status are kept. *)

Module Generator.
Import Py Base64.

Record response : Type := {
  status_code : Z;
  body : option json;     (* [None]: not JSON, response.json() raises *)
  text : string
}.

(** The request [generate_image] posts: the model, the content parts of the
    user message and the aspect ratio. *)
Inductive content_part : Type :=
| ImageUrl (url : string)
| Text (prompt : string).

Record request : Type := {
  req_api_key : string;
  req_model : string;
  req_content : list content_part;
  req_aspect_ratio : string;
  req_timeout : Z
}.

(** The outside world of one run. *)
Record env : Type := {
  (* os.environ.get *)
  environ : string -> option string;
  (* os.path.exists(image_path) *)
  path_exists : string -> bool;
  (* open(image_path, "rb").read() *)
  read_bytes : string -> result bytes;
  (* requests.post(url, headers=headers, json=payload, timeout=timeout) *)
  post : request -> result response;
  (* output_dir.exists() for the directory of the output path *)
  dir_exists : string -> bool;
  (* output_dir.mkdir(parents=True, exist_ok=True): [Some e] when it raises *)
  mkdir_raises : string -> option exn;
  (* open(output_path, "wb") and f.write: [Some e] when they raise *)
  write_raises : string -> option exn
}.

Definition DEFAULT_MODEL : string := "google/gemini-2.5-flash-image".
Definition DEFAULT_ASPECT_RATIO : string := "1:1".
Definition DEFAULT_TIMEOUT : Z := 60.

Definition given (x : option string) : bool :=
  match x with
  | Some s => negb (is_empty s)
  | None => false
  end.

(** The binary files the run has written, latest first. *)
Definition files : Type := list (string * bytes).

(** The MIME type [encode_image_to_base64] picks from the extension. *)
Definition mime_type (ext : string) : string :=
  if String.eqb ext ".png" then "image/png"
  else if String.eqb ext ".jpg" then "image/jpeg"
  else if String.eqb ext ".jpeg" then "image/jpeg"
  else if String.eqb ext ".gif" then "image/gif"
  else if String.eqb ext ".webp" then "image/webp"
  else "image/png".

(** [s.split(",", 1)[1]]: the text after the first comma. *)
Fixpoint after_comma (s : string) : result string :=
  match s with
  | EmptyString => Raise IndexError
  | String c s' => if Ascii.eqb c ","%char then Ret s' else after_comma s'
  end.

(** Directory part of a path: [str(Path(p).parent)]. *)
Definition dirname (p : string) : string :=
  match removelast (split "/" p) with
  | [] => "."
  | ds => match String.concat "/" ds with
          | EmptyString => "/"
          | d => d
          end
  end.

(** [x[0]] *)
Definition first (x : json) : result json :=
  match x with
  | JArr (y :: _) => Ret y
  | JArr [] => Raise IndexError
  | JStr (String c _) => Ret (JStr (String c EmptyString))
  | JStr EmptyString => Raise IndexError
  | JObj _ => Raise (KeyError "0")
  | _ => Raise TypeError
  end.

(** [k in x and len(x[k]) > 0] *)
Definition has_some (x : json) (k : string) : result bool :=
  rbind (has_key k x) (fun present =>
  if present then
    rbind (getitem x k) (fun v => rbind (len v) (fun n => Ret (0 <? n)%Z))
  else Ret false).

(** Printing the usage figures: [usage.get('total_tokens', 'N/A')] and,
    where [with_cost], [usage['cost']] formatted with [:.4f] when present.
    Nothing of it is kept but the exceptions it can raise. *)
Definition print_usage (with_cost : bool) (result : json) : Py.result unit :=
  rbind (has_key "usage" result) (fun present =>
  if present then
    rbind (getitem result "usage") (fun usage =>
    rbind (get_default usage "total_tokens" (JStr "N/A")) (fun _ =>
    if with_cost then
      rbind (has_key "cost" usage) (fun priced =>
      if priced then
        rbind (getitem usage "cost") (fun cost =>
        match cost with
        | JNum _ | JDec _ | JBool _ => Ret tt
        | JStr _ => Raise ValueError
        | _ => Raise TypeError
        end)
      else Ret tt)
    else Ret tt))
  else Ret tt).

(** The search for the generated image in the decoded response, as the
    [try] block of [generate_image] does it; [Ret None]: no image found. *)
Definition extract_image (result : json) : Py.result (option json) :=
  let fallback :=
    rbind (has_some result "images") (fun some =>
    if some then
      rbind (print_usage false result) (fun _ =>
      rbind (getitem result "images") (fun imgs =>
      rbind (first imgs) (fun img => Ret (Some img))))
    else Ret None) in
  rbind (has_some result "choices") (fun some =>
  if some then
    rbind (getitem result "choices") (fun choices =>
    rbind (first choices) (fun choice =>
    rbind (get_default choice "message" (JObj [])) (fun message =>
    rbind (get_default message "images" (JArr [])) (fun images =>
    rbind (len images) (fun n =>
    if (0 <? n)%Z then
      rbind (print_usage true result) (fun _ =>
      rbind (first images) (fun image =>
      rbind (getitem image "image_url") (fun iu =>
      rbind (getitem iu "url") (fun u => Ret (Some u)))))
    else fallback)))))
  else fallback).

Section WithEnv.

Variable E : env.

(** [get_api_key] *)
Definition get_api_key : result string :=
  match environ E "OPENROUTER_API_KEY" with
  | Some k => if is_empty k then Raise (SystemExit 1) else Ret k
  | None => Raise (SystemExit 1)
  end.

(** [encode_image_to_base64] *)
Definition encode_image_to_base64 (image_path : string) : result string :=
  if negb (path_exists E image_path) then Raise (SystemExit 1)
  else
    match read_bytes E image_path with
    | Ret data =>
        let encoded := b64encode data in
        let ext := lower (suffix image_path) in
        Ret ("data:" ++ mime_type ext ++ ";base64," ++ encoded)%string
    | Raise e => if is_Exception e then Raise (SystemExit 1) else Raise e
    end.

(** [generate_image]: the generated image as the API returned it. *)
Definition generate_image (api_key model prompt : string)
    (reference_image_path : option string) (aspect_ratio : string)
    (timeout : Z) : result json :=
  rbind (if given reference_image_path
         then rbind (encode_image_to_base64
                       match reference_image_path with
                       | Some p => p
                       | None => EmptyString
                       end)
                    (fun reference_data => Ret [ImageUrl reference_data])
         else Ret []) (fun content =>
  let content := content ++ [Text prompt] in
  let attempt : result json :=
    rbind (post E {| req_api_key := api_key; req_model := model;
                     req_content := content;
                     req_aspect_ratio := aspect_ratio;
                     req_timeout := timeout |}) (fun response =>
    if negb (status_code response =? 200)%Z then Raise (SystemExit 1)
    else
      rbind (match body response with
             | Some j => Ret j
             | None => Raise JSONDecodeError
             end) (fun result =>
      rbind (extract_image result) (fun found =>
      match found with
      | Some image => Ret image
      | None => Raise (SystemExit 1)
      end))) in
  match attempt with
  | Raise e => if is_Exception e then Raise (SystemExit 1) else Raise e
  | r => r
  end).

(** [save_base64_image]: the outcome and the files after it. *)
Definition save_base64_image (base64_data : json) (output_path : string)
    (fs : files) : result unit * files :=
  match base64_data with
  | JStr data =>
      match (if startswith "data:image" data then after_comma data
             else Ret data) with
      | Raise e => (Raise e, fs)
      | Ret payload =>
          match b64decode payload with
          | Raise e =>
              (if is_Exception e then Raise (SystemExit 1) else Raise e, fs)
          | Ret image_data =>
              let output_dir := dirname output_path in
              match (if negb (dir_exists E output_dir)
                     then mkdir_raises E output_dir else None) with
              | Some e =>
                  (if is_Exception e then Raise (SystemExit 1) else Raise e, fs)
              | None =>
                  match write_raises E output_path with
                  | Some e =>
                      (if is_Exception e then Raise (SystemExit 1) else Raise e,
                       fs)
                  | None => (Ret tt, (output_path, image_data) :: fs)
                  end
              end
          end
      end
  | _ => (Raise AttributeError, fs)   (* no attribute 'startswith' *)
  end.

(** The command line of [generate.py] after [argparse]. *)
Record args : Type := {
  arg_prompt : string;               (* --prompt, required *)
  arg_output : string;               (* --output, required *)
  arg_reference : option string;     (* --reference *)
  arg_aspect_ratio : option string;  (* --aspect-ratio *)
  arg_model : option string;         (* --model *)
  arg_timeout : option Z             (* --timeout *)
}.

(** [main] *)
Definition main (a : args) (fs : files) : result unit * files :=
  match get_api_key with
  | Raise e => (Raise e, fs)
  | Ret api_key =>
      let model := if given (arg_model a)
                   then match arg_model a with Some m => m | None => DEFAULT_MODEL end
                   else DEFAULT_MODEL in
      let aspect_ratio :=
        if given (arg_aspect_ratio a)
        then match arg_aspect_ratio a with
             | Some r => r | None => DEFAULT_ASPECT_RATIO end
        else DEFAULT_ASPECT_RATIO in
      let timeout := match arg_timeout a with
                     | Some t => if (t =? 0)%Z then DEFAULT_TIMEOUT else t
                     | None => DEFAULT_TIMEOUT
                     end in
      match generate_image api_key model (arg_prompt a) (arg_reference a)
                           aspect_ratio timeout with
      | Raise e => (Raise e, fs)
      | Ret generated_image => save_base64_image generated_image (arg_output a) fs
      end
  end.

(** The exit status of the process running [main]. *)
Definition main_exit_code (a : args) (fs : files) : Z :=
  exit_code (fst (main a fs)).

End WithEnv.

(** An outside world in which nothing but [Exception]s is raised. *)
Definition no_interrupt (E : env) : Prop :=
  (forall p e, read_bytes E p = Raise e -> is_Exception e = true) /\
  (forall q e, post E q = Raise e -> is_Exception e = true) /\
  (forall d e, mkdir_raises E d = Some e -> is_Exception e = true) /\
  (forall p e, write_raises E p = Some e -> is_Exception e = true).

End Generator.

(** ** What a run of the exporter shows

    Readings of a trace and of result values, used to state what the
    scripts do beyond their exit status. *)

Module Observations.
Import Py Exporter.

(** The event is an HTTP request. *)
Definition is_request (ev : event) : bool :=
  match ev with
  | Get _ _ | Post _ => true
  | _ => false
  end.

(** The number of HTTP requests a trace shows. *)
Definition count_requests (tr : list event) : nat :=
  List.length (filter is_request tr).

(** The error a failure line on stderr reports: [_make_request] and
    [_make_graphql_request] print the message they have just appended to
    [self.stats["errors"]]. *)
Definition failure_of (ev : event) : list error_msg :=
  match ev with
  | Print Stderr (MRequestFailed endpoint e) => [ErrRequest endpoint e]
  | Print Stderr (MGraphQLFailed e) => [ErrGraphQL e]
  | _ => []
  end.

Definition failures (tr : list event) : list error_msg := flat_map failure_of tr.

(** The errors the summary lists, in the order of its lines. *)
Definition shown_errors (tr : list event) : list error_msg :=
  flat_map (fun ev => match ev with
                      | Print Stdout (MSummaryError e) => [e]
                      | _ => []
                      end) tr.

(** The error counts the summary announces. *)
Definition announced_counts (tr : list event) : list nat :=
  flat_map (fun ev => match ev with
                      | Print Stdout (MSummaryErrors n) => [n]
                      | _ => []
                      end) tr.

(** The files a trace shows being written, in order. *)
Definition written (tr : list event) : list (path * json) :=
  flat_map (fun ev => match ev with
                      | Write p content => [(p, content)]
                      | _ => []
                      end) tr.

(** The requests a trace shows being sent, in order. *)
Definition requests (tr : list event) : list event := filter is_request tr.

(** The query parameters of the request for page [k] in the loop of
    [_fetch_paginated_data]: the caller's, with [per_page] set to 100 and
    [page] to [k]. *)
Definition page_request (params : option (dict json)) (k : nat) : dict json :=
  dict_set "page" (JNum (Z.of_nat k)) (page_params params).

(** The GET request fails with [e]: the call raises it, or the status of
    the response is an error and [raise_for_status] raises it. *)
Definition get_fails (E : env) (endpoint : string)
    (params : option (dict json)) (e : exn) : Prop :=
  session_get E endpoint params = Raise e \/
  exists r, session_get E endpoint params = Ret r /\
            raise_for_status r = Raise e.

(** The GraphQL request fails with [e]: the call raises it, the status is
    an error, or the body is not JSON. *)
Definition post_fails (E : env) (query : string) (e : exn) : Prop :=
  session_post E query = Raise e \/
  (exists r, session_post E query = Ret r /\ raise_for_status r = Raise e) \/
  (exists r, session_post E query = Ret r /\ raise_for_status r = Ret tt /\
             response_json r = Raise e).

(** [repo.get("language")] is truthy: the repository counts for the
    statistics by language. *)
Definition has_language (repo : json) : bool :=
  match get repo "language" with
  | Ret language => truthy language
  | Raise _ => false
  end.

(** What [+=] adds for the JSON value [v] when it succeeds: an integer, or
    a boolean as 0 or 1. *)
Definition int_value (v : json) : Z :=
  match v with
  | JNum n => n
  | JBool true => 1
  | _ => 0
  end.

(** [repo.get(key, 0)] as the number [+=] adds. *)
Definition field_value (key : string) (repo : json) : Z :=
  match get_default repo key (JNum 0) with
  | Ret v => int_value v
  | Raise _ => 0
  end.

(** Entries by decreasing [total_size_kb]. *)
Fixpoint decreasing (l : list (pykey * lang_stat)) : Prop :=
  match l with
  | [] => True
  | x :: l' =>
      Forall (fun y => (total_size_kb (snd y) <= total_size_kb (snd x))%Z) l' /\
      decreasing l'
  end.

(** An ASCII letter. *)
Definition is_ascii_letter (c : ascii) : bool :=
  let n := nat_of_ascii c in
  ((65 <=? n)%nat && (n <=? 90)%nat) || ((97 <=? n)%nat && (n <=? 122)%nat).

End Observations.

(** ** What the image generator sends *)

Module GeneratorObservations.
Import Py Base64 Generator.

(** The data URL of the bytes [b] of the file [path]:
    [f"data:{mime_type};base64,{encoded}"]. *)
Definition data_url (path : string) (b : bytes) : string :=
  ("data:" ++ mime_type (lower (suffix path)) ++ ";base64," ++ b64encode b)%string.

(** The request for the command line [a]: the model, the aspect ratio and
    the timeout are those of the command line, or the defaults where the
    option is missing, empty or zero. *)
Definition request_of (a : args) (api_key : string)
    (content : list content_part) : request :=
  {| req_api_key := api_key;
     req_model := match arg_model a with
                  | Some m => if is_empty m then DEFAULT_MODEL else m
                  | None => DEFAULT_MODEL
                  end;
     req_content := content;
     req_aspect_ratio := match arg_aspect_ratio a with
                         | Some r => if is_empty r then DEFAULT_ASPECT_RATIO else r
                         | None => DEFAULT_ASPECT_RATIO
                         end;
     req_timeout := match arg_timeout a with
                    | Some t => if (t =? 0)%Z then DEFAULT_TIMEOUT else t
                    | None => DEFAULT_TIMEOUT
                    end |}.

(** The value is no number: formatting it with [:.4f] raises. *)
Definition not_a_number (v : json) : bool :=
  match v with
  | JNum _ | JDec _ | JBool _ => false
  | _ => true
  end.

End GeneratorObservations.

(** ** Concrete outside worlds

    Small environments on which the scripts are run in the examples that
    accompany the theorems. *)

Module Examples.
Import Py.

(** A terminal session of the token helper in which the credentials file
    can be written. *)
Definition quiet_terminal : TokenHelper.env :=
  {| TokenHelper.write_raises := None;
     TokenHelper.now := "2024-01-01T00:00:00" |}.

(** A machine on which the reference image [style.png] holds the three
    bytes 01 02 03 and every output path can be written. *)
Definition studio : Generator.env :=
  {| Generator.environ := fun _ => Some "sk-or-v1-demo";
     Generator.path_exists := fun p => String.eqb p "style.png";
     Generator.read_bytes := fun p =>
       if String.eqb p "style.png" then Ret [Byte.x01; Byte.x02; Byte.x03]
       else Raise FileNotFoundError;
     Generator.post := fun _ => Raise ConnectionError;
     Generator.dir_exists := fun _ => true;
     Generator.mkdir_raises := fun _ => None;
     Generator.write_raises := fun _ => None |}.

(** Four repository records as [repositories/details/*.json] hold them,
    cut down to the two fields the language statistics read. *)
Definition demo_repos : list json :=
  [JObj [("name", JStr "a"); ("language", JStr "Python"); ("size", JNum 120)];
   JObj [("name", JStr "b"); ("language", JStr "OCaml"); ("size", JNum 100)];
   JObj [("name", JStr "c"); ("language", JNull); ("size", JNum 7)];
   JObj [("name", JStr "d"); ("language", JStr "Python"); ("size", JNum 180)]].

(** The language statistics of [demo_repos]: 75 % Python, 25 % OCaml. *)
Definition demo_langs : list (pykey * Exporter.lang_stat) :=
  [(KStr "Python", {| Exporter.repo_count := 2; Exporter.total_size_kb := 300;
                      Exporter.percentage_hundredths := 7500 |});
   (KStr "OCaml", {| Exporter.repo_count := 1; Exporter.total_size_kb := 100;
                     Exporter.percentage_hundredths := 2500 |})].

(** A 200 answer with a JSON body and no Link header. *)
Definition ok (j : json) : result Exporter.response :=
  Ret {| Exporter.status_code := 200; Exporter.body := Some j;
         Exporter.headers := [] |}.

(** GitHub as seen for the user octocat while the repositories endpoint is
    unreachable: the profile is served, every other collection is empty,
    the search finds nothing and the GraphQL endpoint refuses the
    credentials.  [mkdirs] and [opens] say which directories and files of
    the output tree cannot be made or written. *)
Definition github (mkdirs opens : Exporter.path -> option exn) : Exporter.env :=
  {| Exporter.session_get := fun endpoint _ =>
       if String.eqb endpoint "/users/octocat"
       then ok (JObj [("login", JStr "octocat"); ("id", JNum 583231)])
       else if String.eqb endpoint "/users/octocat/repos"
       then Raise ConnectionError
       else if String.eqb endpoint "/search/issues"
       then ok (JObj [("total_count", JNum 0); ("items", JArr [])])
       else ok (JArr []);
     Exporter.session_post := fun _ => Raise (HTTPError 401);
     Exporter.mkdir_raises := mkdirs;
     Exporter.open_raises := opens;
     Exporter.now := "2024-01-01T00:00:00" |}.

(** The same on a disk where everything can be written. *)
Definition repos_down : Exporter.env := github (fun _ => None) (fun _ => None).

(** The same where the metadata file cannot be written. *)
Definition metadata_locked : Exporter.env :=
  github (fun _ => None)
         (fun p => if Exporter.path_eqb p Exporter.metadata_path
                   then Some PermissionError else None).

(** Three gists, served two to a page. *)
Definition three_gists : list json :=
  [JObj [("id", JStr "g1")]; JObj [("id", JStr "g2")]; JObj [("id", JStr "g3")]].

(** The Link header of a page that has a successor, and of the last one. *)
Definition link_headers (k : nat) : dict string :=
  if (k =? 1)%nat
  then [("Link", ("<https://api.github.com/gists?page=2>; " ++ Exporter.rel_next)%string)]
  else [].

(** A server that answers every endpoint with the page of [three_gists]
    that the [page] parameter names; the requests for the pages in [down]
    time out. *)
Definition paged (down : nat -> bool) : Exporter.env :=
  {| Exporter.session_get := fun _ params =>
       match params with
       | Some ps =>
           match dict_get "page" ps with
           | Some (JNum k) =>
               if down (Z.to_nat k) then Raise Timeout
               else
                 Ret {| Exporter.status_code := 200;
                        Exporter.body :=
                          Some (JArr (Exporter.page_items three_gists 2 (Z.to_nat k)));
                        Exporter.headers := link_headers (Z.to_nat k) |}
           | _ => Raise ConnectionError
           end
       | None => Raise ConnectionError
       end;
     Exporter.session_post := fun _ => Raise ConnectionError;
     Exporter.mkdir_raises := fun _ => None;
     Exporter.open_raises := fun _ => None;
     Exporter.now := "2024-01-01T00:00:00" |}.

(** The server in good health, and with every page after the first timing
    out. *)
Definition gist_server : Exporter.env := paged (fun _ => false).
Definition flaky_gist_server : Exporter.env := paged (fun k => (2 <=? k)%nat).

(** No network at all: every request fails to connect. *)
Definition offline : Exporter.env :=
  {| Exporter.session_get := fun _ _ => Raise ConnectionError;
     Exporter.session_post := fun _ => Raise ConnectionError;
     Exporter.mkdir_raises := fun _ => None;
     Exporter.open_raises := fun _ => None;
     Exporter.now := "2024-01-01T00:00:00" |}.

(** A machine without yt-dlp, asked for the first three videos of a
    playlist. *)
Definition no_ytdlp : Downloader.env :=
  {| Downloader.mkdir_raises := fun _ => None;
     Downloader.subprocess_run := fun _ => Raise FileNotFoundError |}.

Definition three_videos : Downloader.args :=
  {| Downloader.url := "https://www.youtube.com/playlist?list=PL0";
     Downloader.start := 1; Downloader.end_ := 3; Downloader.output := ".";
     Downloader.quality := "best"; Downloader.quiet := false |}.

(** Imgur unreachable: the images can be read, every upload fails to
    connect. *)
Definition imgur_down : Uploader.env :=
  {| Uploader.path_exists := fun _ => true;
     Uploader.read_bytes := fun _ => Ret [Byte.x01; Byte.x02];
     Uploader.post := fun _ _ => Raise ConnectionError;
     Uploader.write_raises := fun _ => None;
     Uploader.environ := fun _ => None |}.

Definition two_images : Uploader.args :=
  {| Uploader.images := ["a.png"; "b.jpg"];
     Uploader.arg_client_id := Some "abc123";
     Uploader.arg_access_token := None;
     Uploader.arg_output := None;
     Uploader.arg_pretty := false |}.

Definition a_sunset : Generator.args :=
  {| Generator.arg_prompt := "a sunset";
     Generator.arg_output := "out/sunset.png";
     Generator.arg_reference := None;
     Generator.arg_aspect_ratio := None;
     Generator.arg_model := None;
     Generator.arg_timeout := None |}.

(** A terminal session of the token helper in a directory that cannot be
    written. *)
Definition read_only_terminal : TokenHelper.env :=
  {| TokenHelper.write_raises := Some PermissionError;
     TokenHelper.now := "2024-01-01T00:00:00" |}.

(** The lines of a session that ends with the credentials saved. *)
Definition save_session : list TokenHelper.stdin_event :=
  [TokenHelper.Line "abc123";
   TokenHelper.Line "https://localhost/#access_token=tok&expires_in=3600";
   TokenHelper.Line "y"].

Definition octocat : Exporter.args :=
  {| Exporter.arg_username := "octocat"; Exporter.arg_token := None;
     Exporter.arg_output := None |}.

(** Three entries of [repositories/list.json], cut down to the fields the
    repository statistics read; the last one names no language. *)
Definition demo_summaries : list json :=
  [JObj [("name", JStr "a"); ("stars", JNum 5); ("forks", JNum 1);
         ("language", JStr "Python")];
   JObj [("name", JStr "b"); ("stars", JNum 7); ("forks", JNum 0);
         ("language", JStr "Python")];
   JObj [("name", JStr "c"); ("stars", JNum 2); ("forks", JNum 3);
         ("language", JNull)]].

(** GitHub for a user without repositories, on a disk where everything can
    be written: the profile is served, every listing is empty. *)
Definition no_repositories : Exporter.env :=
  {| Exporter.session_get := fun endpoint _ =>
       if String.eqb endpoint "/users/octocat"
       then ok (JObj [("login", JStr "octocat"); ("id", JNum 583231)])
       else if String.eqb endpoint "/search/issues"
       then ok (JObj [("total_count", JNum 0); ("items", JArr [])])
       else ok (JArr []);
     Exporter.session_post := fun _ => Raise (HTTPError 401);
     Exporter.mkdir_raises := fun _ => None;
     Exporter.open_raises := fun _ => None;
     Exporter.now := "2024-01-01T00:00:00" |}.

(** Imgur taking every upload: the files [a.png], [shots/a.PNG] and
    [notes.txt] exist, and every request is answered with the same image
    record. *)
Definition imgur_up : Uploader.env :=
  {| Uploader.path_exists := fun p =>
       String.eqb p "a.png" || String.eqb p "shots/a.PNG"
       || String.eqb p "notes.txt";
     Uploader.read_bytes := fun _ => Ret [Byte.x01; Byte.x02];
     Uploader.post := fun _ _ =>
       Ret {| Uploader.status_code := 200;
              Uploader.body :=
                Some (JObj [("success", JBool true);
                            ("data", JObj [("id", JStr "x1");
                                           ("link", JStr "https://i.imgur.com/x1.png");
                                           ("deletehash", JStr "dh1")])]);
              Uploader.text := EmptyString |};
     Uploader.write_raises := fun _ => None;
     Uploader.environ := fun _ => None |}.

(** The studio while OpenRouter answers every request with one image, the
    two bytes 0a 0b as a PNG data URL, and the usage figures. *)
Definition studio_up : Generator.env :=
  {| Generator.environ := fun _ => Some "sk-or-v1-demo";
     Generator.path_exists := fun p => String.eqb p "style.png";
     Generator.read_bytes := fun p =>
       if String.eqb p "style.png" then Ret [Byte.x01; Byte.x02; Byte.x03]
       else Raise FileNotFoundError;
     Generator.post := fun _ =>
       Ret {| Generator.status_code := 200;
              Generator.body :=
                Some (JObj
                  [("choices",
                    JArr [JObj [("message",
                      JObj [("images",
                        JArr [JObj [("image_url",
                          JObj [("url",
                            JStr "data:image/png;base64,Cgs=")])]])])]]);
                   ("images", JArr [JStr "AAAA"]);
                   ("usage", JObj [("total_tokens", JNum 1290); ("cost", JDec 3)])]);
              Generator.text := EmptyString |};
     Generator.dir_exists := fun _ => true;
     Generator.mkdir_raises := fun _ => None;
     Generator.write_raises := fun _ => None |}.

(** The same with a cost given as text. *)
Definition studio_cost_as_text : Generator.env :=
  {| Generator.environ := fun _ => Some "sk-or-v1-demo";
     Generator.path_exists := fun _ => false;
     Generator.read_bytes := fun _ => Raise FileNotFoundError;
     Generator.post := fun _ =>
       Ret {| Generator.status_code := 200;
              Generator.body :=
                Some (JObj
                  [("choices",
                    JArr [JObj [("message",
                      JObj [("images",
                        JArr [JObj [("image_url",
                          JObj [("url", JStr "data:image/png;base64,Cgs=")])]])])]]);
                   ("usage", JObj [("total_tokens", JNum 1290);
                                   ("cost", JStr "0.0003")])]);
              Generator.text := EmptyString |};
     Generator.dir_exists := fun _ => true;
     Generator.mkdir_raises := fun _ => None;
     Generator.write_raises := fun _ => None |}.

Definition in_that_style : Generator.args :=
  {| Generator.arg_prompt := "the same, at night";
     Generator.arg_output := "out/night.png";
     Generator.arg_reference := Some "style.png";
     Generator.arg_aspect_ratio := Some "16:9";
     Generator.arg_model := None;
     Generator.arg_timeout := Some 0%Z |}.

End Examples.

(** ** Pagination: [_fetch_paginated_data] *)

Module PaginationProofs.
Import Py Exporter.

Lemma dict_get_set_same {V : Type} (k : string) (v : V) (d : dict V) :
  dict_get k (dict_set k v d) = Some v.
Proof.
  induction d as [|[k' v'] d IH]; simpl.
  - now rewrite String.eqb_refl.
  - destruct (String.eqb k k') eqn:Hk; simpl; rewrite Hk; auto.
Qed.

Lemma dict_set_set {V : Type} (k : string) (v w : V) (d : dict V) :
  dict_set k w (dict_set k v d) = dict_set k w d.
Proof.
  induction d as [|[k' v'] d IH]; simpl.
  - now rewrite String.eqb_refl.
  - destruct (String.eqb k k') eqn:Hk; simpl; rewrite Hk; congruence.
Qed.

Lemma firstn_plus {A : Type} (a b : nat) (l : list A) :
  firstn a l ++ firstn b (skipn a l) = firstn (a + b) l.
Proof.
  revert l; induction a as [|a IH]; intros l; simpl; auto.
  destruct l as [|x l]; simpl.
  - now rewrite firstn_nil.
  - now rewrite IH.
Qed.

Lemma requested_pages_app (ep : string) (t u : list event) :
  requested_pages ep (t ++ u) = requested_pages ep t ++ requested_pages ep u.
Proof. unfold requested_pages. apply flat_map_app. Qed.

(** The state after the request for a page went out: one more request
    counted, the progress line and the GET in the trace. *)
Definition sent (s : state) (ep : string) (ps : dict json) (page : nat) : state :=
  {| st_stats := {| requests_made := S (requests_made (st_stats s));
                    data_fetched := data_fetched (st_stats s);
                    errors := errors (st_stats s) |};
     st_files := st_files s;
     st_dirs := st_dirs s;
     st_trace := (st_trace s ++ [Print Stdout (MPage page)])
                 ++ [Get ep (Some (dict_set "page" (JNum (Z.of_nat page)) ps))] |}.

Lemma requested_pages_sent (ep : string) (ps : dict json) (page : nat) :
  requested_pages ep
    ([Print Stdout (MPage page)] ++
     [Get ep (Some (dict_set "page" (JNum (Z.of_nat page)) ps))])
  = [Z.of_nat page].
Proof.
  simpl. rewrite String.eqb_refl, dict_get_set_same. reflexivity.
Qed.

Section Loop.

Variable E : env.
Variable endpoint : string.

(** A turn of the loop on a page that continues. *)
Lemma fetch_pages_continue (fuel : nat) (ps : dict json) (page : nat)
    (acc xs : list json) (s : state) :
  page_continues E endpoint ps page xs ->
  fetch_pages E (S fuel) endpoint ps page acc s =
  fetch_pages E fuel endpoint (dict_set "page" (JNum (Z.of_nat page)) ps)
              (S page) (acc ++ xs) (sent s endpoint ps page).
Proof.
  intros (r & data & Hget & Hst & Hbody & Htr & Hit & Hnext).
  unfold has_next in Hnext.
  cbn [fetch_pages].
  unfold bind at 1, print at 1, log at 1.
  unfold bind at 1, try_except at 1, page_body.
  unfold bind at 1, _make_request.
  unfold bind at 1, count_request, modify_stats.
  unfold try_except, bind, log, lift, ret. cbn [st_stats st_files st_dirs st_trace].
  rewrite Hget, Hst. unfold response_json. rewrite Hbody, Htr. cbn [negb].
  rewrite Hit, Hnext. cbn [negb]. reflexivity.
Qed.

(** A turn of the loop on an empty (falsy) page. *)
Lemma fetch_pages_empty (fuel : nat) (ps : dict json) (page : nat)
    (acc : list json) (s : state) (r : response) (data : json) :
  session_get E endpoint (Some (dict_set "page" (JNum (Z.of_nat page)) ps)) = Ret r ->
  raise_for_status r = Ret tt ->
  body r = Some data ->
  truthy data = false ->
  fetch_pages E (S fuel) endpoint ps page acc s =
  Some (Ret acc, sent s endpoint ps page).
Proof.
  intros Hget Hst Hbody Htr.
  cbn [fetch_pages].
  unfold bind at 1, print at 1, log at 1.
  unfold bind at 1, try_except at 1, page_body.
  unfold bind at 1, _make_request.
  unfold bind at 1, count_request, modify_stats.
  unfold try_except, bind, log, lift, ret. cbn [st_stats st_files st_dirs st_trace].
  rewrite Hget, Hst. unfold response_json. rewrite Hbody, Htr. reflexivity.
Qed.

(** A turn of the loop on a page whose Link header has no next marker. *)
Lemma fetch_pages_last (fuel : nat) (ps : dict json) (page : nat)
    (acc xs : list json) (s : state) (r : response) (data : json) :
  session_get E endpoint (Some (dict_set "page" (JNum (Z.of_nat page)) ps)) = Ret r ->
  raise_for_status r = Ret tt ->
  body r = Some data ->
  truthy data = true ->
  iterate data = Ret xs ->
  has_next (headers r) = false ->
  fetch_pages E (S fuel) endpoint ps page acc s =
  Some (Ret (acc ++ xs), sent s endpoint ps page).
Proof.
  intros Hget Hst Hbody Htr Hit Hnext. unfold has_next in Hnext.
  cbn [fetch_pages].
  unfold bind at 1, print at 1, log at 1.
  unfold bind at 1, try_except at 1, page_body.
  unfold bind at 1, _make_request.
  unfold bind at 1, count_request, modify_stats.
  unfold try_except, bind, log, lift, ret. cbn [st_stats st_files st_dirs st_trace].
  rewrite Hget, Hst. unfold response_json. rewrite Hbody, Htr. cbn [negb].
  rewrite Hit, Hnext. reflexivity.
Qed.

(** A turn of the loop on a page whose request or decoding raises: the
    handler prints the error on stderr and the loop is left with the list as
    it stood. *)
Lemma fetch_pages_fail (fuel : nat) (ps : dict json) (page : nat)
    (acc : list json) (s : state) (e : exn) :
  page_fails E endpoint ps page e ->
  is_Exception e = true ->
  exists s' tr,
    fetch_pages E (S fuel) endpoint ps page acc s = Some (Ret acc, s') /\
    st_trace s' = st_trace (sent s endpoint ps page) ++ tr /\
    requested_pages endpoint tr = [] /\
    In (Print Stderr (MPageError page e)) tr /\
    st_files s' = st_files s /\
    requests_made (st_stats s') = S (requests_made (st_stats s)).
Proof.
  intros Hfail Hexn.
  cbn [fetch_pages].
  unfold bind at 1, print at 1, log at 1.
  unfold bind at 1, try_except at 1, page_body.
  unfold bind at 1, _make_request.
  unfold bind at 1, count_request, modify_stats.
  unfold try_except, bind, log, lift, ret, raise, print, log, append_error,
    modify_stats.
  cbn [st_stats st_files st_dirs st_trace].
  destruct Hfail as [Hget | [(r & Hget & Hst) | (r & Hget & Hst & Hjs)]].
  - rewrite Hget. destruct (is_RequestException e) eqn:Hreq;
      cbn [st_stats st_files st_dirs st_trace]; rewrite Hexn;
      cbn [st_stats st_files st_dirs st_trace].
    + eexists; exists [Print Stderr (MRequestFailed endpoint e);
                       Print Stderr (MPageError page e)].
      repeat split; cbn; auto. now rewrite <- !app_assoc.
    + eexists; exists [Print Stderr (MPageError page e)].
      repeat split; cbn; auto.
  - rewrite Hget, Hst.
    assert (Hreq : is_RequestException e = true).
    { unfold raise_for_status in Hst.
      destruct (_ && _)%bool; inversion Hst; reflexivity. }
    rewrite Hreq. cbn [st_stats st_files st_dirs st_trace]. rewrite Hexn.
    cbn [st_stats st_files st_dirs st_trace].
    eexists; exists [Print Stderr (MRequestFailed endpoint e);
                     Print Stderr (MPageError page e)].
    repeat split; cbn; auto. now rewrite <- !app_assoc.
  - rewrite Hget, Hst, Hjs. rewrite Hexn.
    cbn [st_stats st_files st_dirs st_trace].
    eexists; exists [Print Stderr (MPageError page e)].
    repeat split; cbn; auto.
Qed.

(** After [n] pages that continue, the loop stands at page [page + n] with
    their items appended, having requested exactly those pages. *)
Lemma fetch_pages_run (pages : list (list json)) :
  forall (fuel : nat) (ps0 ps : dict json) (page : nat) (acc : list json)
         (s : state),
    (forall v, dict_set "page" v ps = dict_set "page" v ps0) ->
    (forall i, i < List.length pages ->
               page_continues E endpoint ps0 (page + i) (nth i pages [])) ->
    exists s' tr ps',
      fetch_pages E (List.length pages + fuel) endpoint ps page acc s =
      fetch_pages E fuel endpoint ps'
        (page + List.length pages) (acc ++ List.concat pages) s' /\
      (forall v, dict_set "page" v ps' = dict_set "page" v ps0) /\
      st_trace s' = st_trace s ++ tr /\
      requested_pages endpoint tr = map Z.of_nat (seq page (List.length pages)) /\
      st_files s' = st_files s /\
      requests_made (st_stats s') = List.length pages + requests_made (st_stats s).
Proof.
  induction pages as [|xs pages IH]; intros fuel ps0 ps page acc s Hps Hcont.
  - exists s, [], ps. cbn. rewrite Nat.add_0_r, !app_nil_r. auto 10.
  - cbn [List.length Nat.add].
    assert (H0 : page_continues E endpoint ps page xs).
    { specialize (Hcont 0 (Nat.lt_0_succ _)). rewrite Nat.add_0_r in Hcont.
      cbn in Hcont. unfold page_continues in *. now rewrite Hps. }
    rewrite (fetch_pages_continue _ _ _ _ _ _ H0).
    destruct (IH fuel ps0 (dict_set "page" (JNum (Z.of_nat page)) ps) (S page)
                 (acc ++ xs) (sent s endpoint ps page))
      as (s' & tr & ps' & Heq & Hps' & Htr & Hreq & Hfs & Hn).
    + intros v. now rewrite dict_set_set.
    + intros i Hi. specialize (Hcont (S i) (proj1 (Nat.succ_lt_mono _ _) Hi)).
      cbn in Hcont. now rewrite Nat.add_succ_r in Hcont.
    + exists s', ([Print Stdout (MPage page)] ++
                  [Get endpoint (Some (dict_set "page" (JNum (Z.of_nat page)) ps))] ++ tr),
             ps'.
      split; [|split; [|split; [|split; [|split]]]].
      * rewrite Heq. cbn [List.concat]. rewrite <- app_assoc.
        now replace (S page + List.length pages)
          with (page + S (List.length pages)) by lia.
      * exact Hps'.
      * rewrite Htr. cbn [sent st_trace]. now rewrite <- !app_assoc.
      * rewrite app_assoc, requested_pages_app, requested_pages_sent, Hreq.
        reflexivity.
      * rewrite Hfs. reflexivity.
      * rewrite Hn. cbn. lia.
Qed.

Lemma page_fails_params (ps ps0 : dict json) (k : nat) (e : exn) :
  (forall v, dict_set "page" v ps = dict_set "page" v ps0) ->
  page_fails E endpoint ps0 k e -> page_fails E endpoint ps k e.
Proof. intros Hps H. unfold page_fails in *. now rewrite Hps. Qed.

Section Served.

Variable items : list json.
Variable size : nat.
Variable hdrs : nat -> dict string.
Hypothesis size_pos : 0 < size.
Hypothesis served : serves E endpoint items size hdrs.
Hypothesis next_announced :
  forall k, 1 <= k -> k * size < List.length items -> has_next (hdrs k) = true.

Lemma served_page (ps : dict json) (page : nat) :
  session_get E endpoint (Some (dict_set "page" (JNum (Z.of_nat page)) ps)) =
  Ret {| status_code := 200;
         body := Some (JArr (page_items items size page));
         headers := hdrs page |}.
Proof. apply served, dict_get_set_same. Qed.

Lemma page_items_nil (page : nat) :
  1 <= page -> page_items items size page = [] ->
  firstn ((page - 1) * size) items = items.
Proof.
  unfold page_items. intros Hp Hnil.
  apply firstn_all2.
  destruct (Nat.le_gt_cases (List.length items) ((page - 1) * size)) as [|Hlt]; auto.
  exfalso.
  assert (Hlen : List.length (firstn size (skipn ((page - 1) * size) items)) = 0)
    by now rewrite Hnil.
  rewrite length_firstn, length_skipn in Hlen. lia.
Qed.

Lemma page_items_next (page : nat) :
  1 <= page ->
  firstn ((page - 1) * size) items ++ page_items items size page =
  firstn (page * size) items.
Proof.
  intros Hp. unfold page_items. rewrite firstn_plus. f_equal.
  destruct page; [lia|]. cbn. rewrite Nat.sub_0_r. lia.
Qed.

Lemma fetch_pages_served (fuel : nat) :
  forall (page : nat) (ps : dict json) (s : state),
    1 <= page ->
    List.length items - (page - 1) * size < fuel ->
    exists s' tr m,
      fetch_pages E fuel endpoint ps page (firstn ((page - 1) * size) items) s =
        Some (Ret items, s') /\
      st_trace s' = st_trace s ++ tr /\
      requested_pages endpoint tr = map Z.of_nat (seq page (S m - page)) /\
      page <= m /\
      (page_items items size m = [] \/ has_next (hdrs m) = false) /\
      (forall k, page <= k < m ->
                 page_items items size k <> [] /\ has_next (hdrs k) = true) /\
      st_files s' = st_files s.
Proof.
  induction fuel as [|fuel IH]; intros page ps s Hp Hfuel; [lia|].
  pose proof (served_page ps page) as Hget.
  destruct (page_items items size page) as [|x xs] eqn:Hpage.
  - (* an empty page stops the loop *)
    rewrite (fetch_pages_empty fuel ps page _ s _ _ Hget eq_refl eq_refl eq_refl).
    exists (sent s endpoint ps page),
           ([Print Stdout (MPage page)] ++
            [Get endpoint (Some (dict_set "page" (JNum (Z.of_nat page)) ps))]),
           page.
    rewrite (page_items_nil page Hp Hpage).
    split; [reflexivity|]. split; [cbn; now rewrite <- app_assoc|].
    split; [rewrite requested_pages_sent;
            replace (S page - page) with 1 by lia; reflexivity|].
    split; [lia|]. split; [now left|]. split; [intros k Hk; lia|reflexivity].
  - destruct (has_next (hdrs page)) eqn:Hnext.
    + (* a non-empty page with a next marker: one more turn *)
      assert (Hc : page_continues E endpoint ps page (x :: xs)).
      { eexists; eexists. repeat split; [exact Hget|reflexivity..|exact Hnext]. }
      rewrite (fetch_pages_continue fuel ps page _ _ s Hc).
      rewrite <- Hpage, (page_items_next page Hp).
      assert (Hlen : (page - 1) * size < List.length items).
      { destruct (Nat.le_gt_cases (List.length items) ((page - 1) * size)); auto.
        unfold page_items in Hpage. rewrite skipn_all2, firstn_nil in Hpage by auto.
        discriminate. }
      destruct (IH (S page) (dict_set "page" (JNum (Z.of_nat page)) ps)
                   (sent s endpoint ps page)) as (s' & tr & m & Heq & Htr & Hreq & Hm & Hstop & Hgo & Hfs).
      * lia.
      * cbn [Nat.sub]. rewrite Nat.sub_0_r.
        replace ((page - 1) * size) with (page * size - size) in Hfuel, Hlen by nia.
        assert (size <= page * size) by nia. lia.
      * cbn [Nat.sub] in Heq. rewrite Nat.sub_0_r in Heq.
        exists s', ([Print Stdout (MPage page)] ++
                    [Get endpoint (Some (dict_set "page" (JNum (Z.of_nat page)) ps))]
                    ++ tr), m.
        split; [exact Heq|]. split; [rewrite Htr; cbn; now rewrite <- !app_assoc|].
        split.
        { rewrite app_assoc, requested_pages_app, requested_pages_sent, Hreq.
          replace (S m - page) with (S (S m - S page)) by lia. reflexivity. }
        split; [lia|]. split; [exact Hstop|]. split; [|rewrite Hfs; reflexivity].
        intros k Hk. destruct (Nat.eq_dec k page) as [->|Hne].
        -- rewrite Hpage. split; [discriminate|exact Hnext].
        -- apply Hgo. lia.
    + (* a non-empty page without a next marker is the last one *)
      rewrite (fetch_pages_last fuel ps page _ (x :: xs) s _ _ Hget eq_refl eq_refl
                 eq_refl eq_refl Hnext).
      rewrite <- Hpage, (page_items_next page Hp).
      assert (Hall : List.length items <= page * size).
      { destruct (Nat.le_gt_cases (List.length items) (page * size)) as [|Hlt]; auto.
        rewrite (next_announced page Hp Hlt) in Hnext. discriminate. }
      rewrite (firstn_all2 _ Hall).
      exists (sent s endpoint ps page),
             ([Print Stdout (MPage page)] ++
              [Get endpoint (Some (dict_set "page" (JNum (Z.of_nat page)) ps))]),
             page.
      split; [reflexivity|]. split; [cbn; now rewrite <- app_assoc|].
      split; [rewrite requested_pages_sent;
              replace (S page - page) with 1 by lia; reflexivity|].
      split; [lia|]. split; [now right|]. split; [intros k Hk; lia|reflexivity].
Qed.

End Served.

End Loop.



(** C2: when pages 1 .. k-1 were delivered and the request for page k, or the
    decoding of its body, raises an exception, the loop prints the error on
    stderr, asks for no further page (page k itself was asked for once) and
    returns the items of pages 1 .. k-1 as they were accumulated. *)
Theorem fetch_paginated_failure_returns_accumulated
    (E : env) (endpoint : string) (params : option (dict json))
    (pages : list (list json)) (e : exn) (fuel : nat) (s : state) :
  (forall i, i < List.length pages ->
             page_continues E endpoint (page_params params) (1 + i) (nth i pages [])) ->
  page_fails E endpoint (page_params params) (S (List.length pages)) e ->
  is_Exception e = true ->
  S (List.length pages) <= fuel ->
  exists s' tr,
    _fetch_paginated_data E fuel endpoint params s =
      Some (Ret (List.concat pages), s') /\
    st_trace s' = st_trace s ++ tr /\
    requested_pages endpoint tr = map Z.of_nat (seq 1 (S (List.length pages))) /\
    In (Print Stderr (MPageError (S (List.length pages)) e)) tr /\
    st_files s' = st_files s /\
    requests_made (st_stats s') = S (List.length pages) + requests_made (st_stats s).
Proof.
  intros Hpages Hfail Hexn Hfuel.
  unfold _fetch_paginated_data.
  set (ps0 := page_params params) in *.
  set (k := S (List.length pages)) in *.
  destruct fuel as [|fuel]; [unfold k in Hfuel; lia|].
  destruct (fetch_pages_run E endpoint pages (S (fuel - List.length pages)) ps0 ps0 1 [] s)
    as (s1 & tr1 & ps1 & Heq & Hps1 & Htr1 & Hreq1 & Hfs1 & Hn1); auto.
  replace (List.length pages + S (fuel - List.length pages)) with (S fuel) in Heq
    by (unfold k in Hfuel; lia).
  rewrite Heq. cbn [app].
  destruct (fetch_pages_fail E endpoint (fuel - List.length pages) ps1
              (1 + List.length pages) (List.concat pages) s1 e)
    as (s2 & tr2 & Heq2 & Htr2 & Hreq2 & Hin & Hfs2 & Hn2); auto.
  { apply page_fails_params with ps0; auto. }
  exists s2, (tr1 ++ [Print Stdout (MPage k)] ++
              [Get endpoint (Some (dict_set "page" (JNum (Z.of_nat k)) ps1))] ++ tr2).
  split; [exact Heq2|].
  split; [rewrite Htr2; cbn [sent st_trace]; rewrite Htr1;
          now rewrite <- !app_assoc|].
  split.
  { rewrite requested_pages_app, Hreq1.
    rewrite app_assoc, requested_pages_app, requested_pages_sent, Hreq2.
    unfold k. rewrite seq_S, map_app, app_nil_r. reflexivity. }
  split; [apply in_or_app; right; right; right; exact Hin|].
  split; [congruence|].
  rewrite Hn2, Hn1. unfold k. lia.
Qed.

(** The same server when the second page times out: the two gists of
    the first page are returned and the error is printed. *)
Lemma fetch_paginated_failure_returns_accumulated_witness :
  exists s' tr,
    _fetch_paginated_data Examples.flaky_gist_server 5 "/users/octocat/gists" None
        (initial_state [] [])
      = Some (Ret (firstn 2 Examples.three_gists), s') /\
    st_trace s' = tr /\
    requested_pages "/users/octocat/gists" tr = [1; 2]%Z /\
    In (Print Stderr (MPageError 2 Timeout)) tr.
Proof.
  destruct (fetch_paginated_failure_returns_accumulated Examples.flaky_gist_server
              "/users/octocat/gists" None [firstn 2 Examples.three_gists]
              Timeout 5 (initial_state [] []))
    as (s' & tr & Heq & Htr & Hreq & Hin & _).
  - intros i Hi. cbn in Hi. assert (i = 0) as -> by lia.
    eexists. eexists. repeat split; reflexivity.
  - left. reflexivity.
  - reflexivity.
  - cbn. lia.
  - exists s', tr. cbn in Heq. auto.
Defined.

End PaginationProofs.

(** ** The upload aggregator: [upload_multiple_images] *)

Module UploaderProofs.
Import Py Base64 Uploader.

Section Aggregator.

Variable E : env.
Variables client_id access_token : option string.

Lemma upload_attempt_path (p : string) (t d : option string)
    (r0 r : upload_result) (oe : option exn) :
  upload_attempt E p client_id access_token t d r0 = (r, oe) ->
  original_path r = original_path r0.
Proof.
  unfold upload_attempt. intros H.
  repeat match type of H with
         | context [match ?x with _ => _ end] => destruct x
         end;
    inversion H; subst; reflexivity.
Qed.

(** Whatever way a single upload ends, the result it returns is the one of
    the path it was given. *)
Lemma upload_image_path (p : string) (t d : option string) (r : upload_result) :
  upload_image_to_imgur E p client_id access_token t d = Ret r ->
  original_path r = p.
Proof.
  unfold upload_image_to_imgur. intros H.
  destruct (negb (path_exists E p)); [inversion H; reflexivity|].
  destruct (negb (existsb _ valid_extensions)); [inversion H; reflexivity|].
  destruct (upload_attempt E p client_id access_token t d _) as [r1 oe] eqn:Hatt.
  apply upload_attempt_path in Hatt. simpl in Hatt.
  destruct oe as [e|]; [|injection H as <-; exact Hatt].
  destruct (is_Timeout e); [injection H as <-; exact Hatt|].
  destruct (is_RequestException e); [injection H as <-; exact Hatt|].
  destruct (is_Exception e); [injection H as <-; exact Hatt|discriminate].
Qed.

Lemma upload_attempt_exception (p : string) (t d : option string)
    (r0 r : upload_result) (e : exn) :
  no_interrupt E ->
  upload_attempt E p client_id access_token t d r0 = (r, Some e) ->
  is_Exception e = true.
Proof.
  intros [Hread Hpost]. unfold upload_attempt. intros H.
  destruct (read_bytes E p) eqn:Hr.
  2:{ inversion H; subst. eapply Hread; eauto. }
  destruct (if given access_token then _ else _); [|inversion H].
  destruct (post E _ _) eqn:Hp.
  2:{ inversion H; subst. eapply Hpost; eauto. }
  destruct (status_code a0 =? 200)%Z; [|inversion H].
  destruct (body a0) as [j|]; [|inversion H; reflexivity].
  destruct (get j "success") as [ok|e1] eqn:Hg.
  2:{ inversion H; subst. unfold get, get_default in Hg.
      destruct j; try (inversion Hg; reflexivity).
      destruct (dict_get _ _); discriminate. }
  destruct (truthy ok); [|inversion H].
  destruct (get_default j "data" _) as [dt|e1] eqn:Hd.
  2:{ inversion H; subst. unfold get_default in Hd.
      destruct j; try (inversion Hd; reflexivity).
      destruct (dict_get _ _); discriminate. }
  destruct (imgur_fields dt) as [f|e1] eqn:Hf; [inversion H|].
  inversion H; subst.
  unfold imgur_fields, get, get_default in Hf.
  destruct dt; try (inversion Hf; reflexivity).
  cbn in Hf.
  repeat match type of Hf with
         | context [match dict_get ?k ?kv with _ => _ end] =>
             destruct (dict_get k kv); cbn in Hf
         end; discriminate.
Qed.

(** Without interrupts a single upload always returns a result. *)
Lemma upload_image_returns (p : string) (t d : option string) :
  no_interrupt E ->
  exists r, upload_image_to_imgur E p client_id access_token t d = Ret r.
Proof.
  intros HE. unfold upload_image_to_imgur.
  destruct (negb (path_exists E p)); [eauto|].
  destruct (negb (existsb _ valid_extensions)); [eauto|].
  destruct (upload_attempt E p client_id access_token t d _) as [r1 oe] eqn:Hatt.
  destruct oe as [e|]; [|eauto].
  rewrite (upload_attempt_exception _ _ _ _ _ _ HE Hatt).
  destruct (is_Timeout e); [eauto|].
  destruct (is_RequestException e); eauto.
Qed.

(** The loop keeps [total], adds one to exactly one of the two counters per
    path and appends one result per path, in order. *)
Lemma upload_each_spec (paths : list string) :
  forall acc r,
    upload_each E paths client_id access_token acc = Ret r ->
    total r = total acc /\
    (successful r + failed r =
     successful acc + failed acc + Z.of_nat (List.length paths))%Z /\
    map original_path (uploads r) = map original_path (uploads acc) ++ paths.
Proof.
  induction paths as [|p paths IH]; intros acc r H; cbn in H.
  - inversion H; subst. rewrite app_nil_r. cbn. repeat split; lia.
  - destruct (upload_image_to_imgur E p client_id access_token None None)
      as [u|e] eqn:Hu; cbn in H; [|discriminate].
    apply upload_image_path in Hu.
    apply IH in H. destruct H as (Ht & Hc & Hm).
    destruct (success u); cbn in *;
      (split; [exact Ht|]; split;
       [lia | rewrite Hm, map_app, <- app_assoc; cbn; now rewrite Hu]).
Qed.

Lemma upload_each_returns (paths : list string) :
  no_interrupt E ->
  forall acc, exists r, upload_each E paths client_id access_token acc = Ret r.
Proof.
  intros HE. induction paths as [|p paths IH]; intros acc; cbn; [eauto|].
  destruct (upload_image_returns p None None HE) as [u ->]. cbn. apply IH.
Qed.

(** C6: the summary that [upload_multiple_images] returns for a list of
    image paths has successful + failed = total = the number of paths, and
    its uploads hold exactly one result per path, in the order of the paths;
    and a summary is returned whenever no interrupt cuts the run short. *)
Theorem upload_multiple_images_counts (image_paths : list string) :
  (forall r,
     upload_multiple_images E image_paths client_id access_token = Ret r ->
     (successful r + failed r = total r)%Z /\
     total r = Z.of_nat (List.length image_paths) /\
     List.length (uploads r) = List.length image_paths /\
     map original_path (uploads r) = image_paths) /\
  (no_interrupt E ->
   exists r, upload_multiple_images E image_paths client_id access_token = Ret r).
Proof.
  split.
  - intros r H. unfold upload_multiple_images in H.
    apply upload_each_spec in H. cbn in H. destruct H as (Ht & Hc & Hm).
    repeat split; try lia; auto.
    rewrite <- (length_map original_path), Hm. reflexivity.
  - intros HE. apply upload_each_returns, HE.
Qed.

End Aggregator.

(** Two images sent while Imgur is unreachable: a summary comes back, with
    one entry per image. *)
Lemma upload_multiple_images_counts_witness :
  exists r,
    upload_multiple_images Examples.imgur_down ["a.png"; "b.jpg"]
      (Some "abc123") None = Ret r /\
    total r = 2%Z /\
    (successful r + failed r = 2)%Z /\
    map original_path (uploads r) = ["a.png"; "b.jpg"].
Proof.
  destruct (upload_multiple_images_counts Examples.imgur_down (Some "abc123")
              None ["a.png"; "b.jpg"]) as [Hcounts Hreturns].
  destruct Hreturns as [r Hr].
  - split.
    + intros p e H. discriminate.
    + intros auth payload e H. inversion H. reflexivity.
  - exists r. destruct (Hcounts r Hr) as (Hsum & Ht & _ & Hm).
    rewrite Ht in Hsum. auto.
Defined.

End UploaderProofs.

(** ** The token helper: a redirect URL without an access token *)

Module TokenHelperProofs.
Import Py TokenHelper.

Lemma startswith_append (f r t : string) :
  startswith f r = true -> startswith f (r ++ t)%string = true.
Proof.
  revert r; induction f as [|a f IH]; intros r H; [reflexivity|].
  destruct r as [|b r]; cbn in *; [discriminate|].
  apply andb_true_iff in H. destruct H as [-> H]. cbn. now apply IH.
Qed.

Lemma contains_append (f r t : string) :
  contains f r = true -> contains f (r ++ t)%string = true.
Proof.
  induction r as [|b r IH]; intros H.
  - cbn in H. rewrite orb_false_r in H.
    destruct f; [|discriminate]. destruct t; reflexivity.
  - cbn [contains] in H. apply orb_true_iff in H.
    change (String b r ++ t)%string with (String b (r ++ t)%string).
    cbn [contains]. apply orb_true_iff. destruct H as [H|H].
    + left. now apply (startswith_append f (String b r) t).
    + right. now apply IH.
Qed.

Lemma contains_tail (f : string) (c : ascii) (s : string) :
  contains f (String c s) = false -> contains f s = false.
Proof. cbn [contains]. intros H. now apply orb_false_iff in H. Qed.

Lemma lstrip_no_field (f s : string) :
  contains f s = false -> contains f (lstrip s) = false.
Proof.
  induction s as [|c s IH]; intros H; cbn [lstrip]; [exact H|].
  destruct (is_space c); [apply IH, (contains_tail f c s H)|exact H].
Qed.

Lemma rstrip_is_prefix (s : string) : exists t, s = (rstrip s ++ t)%string.
Proof.
  induction s as [|c s [t IH]]; [exists EmptyString; reflexivity|].
  cbn [rstrip]. destruct (rstrip s) as [|d r] eqn:Hr.
  - destruct (is_space c).
    + exists (String c s). reflexivity.
    + exists t. cbn in *. now rewrite <- IH.
  - exists t. cbn in *. now rewrite <- IH.
Qed.

Lemma rstrip_no_field (f s : string) :
  contains f s = false -> contains f (rstrip s) = false.
Proof.
  intros H. destruct (contains f (rstrip s)) eqn:Hc; [|reflexivity].
  destruct (rstrip_is_prefix s) as [t Ht].
  rewrite Ht, (contains_append f (rstrip s) t Hc) in H. discriminate.
Qed.

(** Stripping blanks cannot make a field appear. *)
Lemma strip_no_field (f s : string) :
  contains f s = false -> contains f (strip s) = false.
Proof. intros H. unfold strip. now apply rstrip_no_field, lstrip_no_field. Qed.

(** A text without [field] has no match of the pattern. *)
Lemma re_search_no_field (field s : string) :
  contains field s = false -> re_search field s = None.
Proof.
  induction s as [|c s IH]; intros H.
  - cbn in *. rewrite orb_false_r in H. now rewrite H.
  - cbn [contains] in H. apply orb_false_iff in H. destruct H as [H1 H2].
    cbn [re_search]. rewrite H1. now apply IH.
Qed.

(** C7: when the redirect URL pasted at the second prompt has no
    [access_token=] field, the helper exits with status 1 and writes no
    file, whatever was typed as client id and whatever would follow. *)
Theorem redirect_without_access_token_fails (E : env)
    (client_line redirect_line : string) (rest : list stdin_event) :
  contains "access_token=" redirect_line = false ->
  script_exit_code E (Line client_line :: Line redirect_line :: rest) = 1%Z /\
  script_writes E (Line client_line :: Line redirect_line :: rest) = [].
Proof.
  intros H.
  apply (strip_no_field "access_token=") in H.
  apply re_search_no_field in H.
  unfold script_exit_code, script_writes, script, main. cbn [input].
  destruct (is_empty (strip client_line)); [split; reflexivity|].
  destruct (is_empty (strip redirect_line)); [split; reflexivity|].
  rewrite H. split; reflexivity.
Qed.

(** The helper at work on a redirect URL that only carries a state. *)
Lemma redirect_without_access_token_fails_witness :
  script_exit_code Examples.quiet_terminal
    [Line "abc123"; Line "https://localhost/#state=mystate"; Line "y"] = 1%Z /\
  script_writes Examples.quiet_terminal
    [Line "abc123"; Line "https://localhost/#state=mystate"; Line "y"] = [].
Proof.
  apply (redirect_without_access_token_fails Examples.quiet_terminal
           "abc123" "https://localhost/#state=mystate" [Line "y"]).
  reflexivity.
Defined.

End TokenHelperProofs.

(** ** Base64: decoding inverts encoding *)

Module Base64Proofs.
Import Py Base64.

Lemma all_bytes_complete (b : byte) : In b all_bytes.
Proof.
  assert (H : existsb (Byte.eqb b) all_bytes = true)
    by (destruct b; vm_compute; reflexivity).
  apply existsb_exists in H. destruct H as (x & Hin & Heq).
  apply Byte.byte_dec_bl in Heq. now subst.
Qed.

Lemma forall_byte (P : byte -> bool) :
  forallb P all_bytes = true -> forall b, P b = true.
Proof.
  intros H b. rewrite forallb_forall in H. apply H, all_bytes_complete.
Qed.

Lemma forall_byte2 (P : byte -> byte -> bool) :
  forallb (fun a => forallb (P a) all_bytes) all_bytes = true ->
  forall a b, P a b = true.
Proof.
  intros H a b.
  apply (forall_byte (P a)), (forall_byte (fun a => forallb (P a) all_bytes) H).
Qed.

(** A six-bit value whose character is in the alphabet, is not the pad and
    is ASCII, and decodes to the value. *)
Definition good_value (v : N) : bool :=
  match b64_value (b64_char v) with
  | Some w => N.eqb w v
  | None => false
  end
  && negb (Ascii.eqb (b64_char v) "="%char)
  && (N_of_ascii (b64_char v) <? 128)%N.

Lemma good_value_spec (v : N) :
  good_value v = true ->
  b64_value (b64_char v) = Some v /\
  Ascii.eqb (b64_char v) "="%char = false /\
  (N_of_ascii (b64_char v) <? 128)%N = true.
Proof.
  unfold good_value. intros H.
  apply andb_true_iff in H. destruct H as [H H3].
  apply andb_true_iff in H. destruct H as [H1 H2].
  destruct (b64_value (b64_char v)) as [w|]; [|discriminate].
  apply N.eqb_eq in H1. subst w.
  apply negb_true_iff in H2. auto.
Qed.

(** What the decoder needs of the first two characters of a quad. *)
Definition check_first (a b : byte) : bool :=
  good_value (sextet0 a) && good_value (sextet1 a b)
  && Byte.eqb (to_byte (N.lor (N.shiftl (sextet0 a) 2)
                              (N.shiftr (sextet1 a b) 4))) a
  && N.eqb (N.land (sextet1 a b) 15) (N.shiftr (Byte.to_N b) 4).

(** What it needs of the last two. *)
Definition check_last (b c : byte) : bool :=
  good_value (sextet2 b c) && good_value (sextet3 c)
  && Byte.eqb (to_byte (N.lor (N.shiftl (N.shiftr (Byte.to_N b) 4) 4)
                              (N.shiftr (sextet2 b c) 2))) b
  && N.eqb (N.land (sextet2 b c) 3) (N.shiftr (Byte.to_N c) 6)
  && Byte.eqb (to_byte (N.lor (N.shiftl (N.shiftr (Byte.to_N c) 6) 6)
                              (sextet3 c))) c.

Lemma check_first_all (a b : byte) : check_first a b = true.
Proof. revert a b. apply forall_byte2. vm_compute. reflexivity. Qed.

Lemma check_last_all (b c : byte) : check_last b c = true.
Proof. revert b c. apply forall_byte2. vm_compute. reflexivity. Qed.

Lemma first_facts (a b : byte) :
  (b64_value (b64_char (sextet0 a)) = Some (sextet0 a) /\
   Ascii.eqb (b64_char (sextet0 a)) "="%char = false /\
   (N_of_ascii (b64_char (sextet0 a)) <? 128)%N = true) /\
  (b64_value (b64_char (sextet1 a b)) = Some (sextet1 a b) /\
   Ascii.eqb (b64_char (sextet1 a b)) "="%char = false /\
   (N_of_ascii (b64_char (sextet1 a b)) <? 128)%N = true) /\
  to_byte (N.lor (N.shiftl (sextet0 a) 2) (N.shiftr (sextet1 a b) 4)) = a /\
  N.land (sextet1 a b) 15 = N.shiftr (Byte.to_N b) 4.
Proof.
  pose proof (check_first_all a b) as H. unfold check_first in H.
  apply andb_true_iff in H. destruct H as [H H4].
  apply andb_true_iff in H. destruct H as [H H3].
  apply andb_true_iff in H. destruct H as [H1 H2].
  split; [now apply good_value_spec|]. split; [now apply good_value_spec|].
  split; [now apply Byte.byte_dec_bl|now apply N.eqb_eq].
Qed.

Lemma last_facts (b c : byte) :
  (b64_value (b64_char (sextet2 b c)) = Some (sextet2 b c) /\
   Ascii.eqb (b64_char (sextet2 b c)) "="%char = false /\
   (N_of_ascii (b64_char (sextet2 b c)) <? 128)%N = true) /\
  (b64_value (b64_char (sextet3 c)) = Some (sextet3 c) /\
   Ascii.eqb (b64_char (sextet3 c)) "="%char = false /\
   (N_of_ascii (b64_char (sextet3 c)) <? 128)%N = true) /\
  to_byte (N.lor (N.shiftl (N.shiftr (Byte.to_N b) 4) 4)
                 (N.shiftr (sextet2 b c) 2)) = b /\
  N.land (sextet2 b c) 3 = N.shiftr (Byte.to_N c) 6 /\
  to_byte (N.lor (N.shiftl (N.shiftr (Byte.to_N c) 6) 6) (sextet3 c)) = c.
Proof.
  pose proof (check_last_all b c) as H. unfold check_last in H.
  apply andb_true_iff in H. destruct H as [H H5].
  apply andb_true_iff in H. destruct H as [H H4].
  apply andb_true_iff in H. destruct H as [H H3].
  apply andb_true_iff in H. destruct H as [H1 H2].
  split; [now apply good_value_spec|]. split; [now apply good_value_spec|].
  split; [now apply Byte.byte_dec_bl|].
  split; [now apply N.eqb_eq|now apply Byte.byte_dec_bl].
Qed.

(** The first two characters of a quad give back its first byte. *)
Lemma a2b_first (a b : byte) (rest : string) (lc : N) (pads : nat) (out : bytes) :
  a2b_loop (String (b64_char (sextet0 a))
              (String (b64_char (sextet1 a b)) rest)) 0 lc pads out =
  a2b_loop rest 2 (N.shiftr (Byte.to_N b) 4) 0 (out ++ [a]).
Proof.
  destruct (first_facts a b) as ((V0 & P0 & _) & (V1 & P1 & _) & Ha & Hl).
  cbn [a2b_loop]. rewrite P0, V0. cbn [a2b_loop]. rewrite P1, V1, Ha, Hl.
  reflexivity.
Qed.

(** The last two give back the other two bytes. *)
Lemma a2b_last (b c : byte) (rest : string) (out : bytes) :
  a2b_loop (String (b64_char (sextet2 b c))
              (String (b64_char (sextet3 c)) rest))
           2 (N.shiftr (Byte.to_N b) 4) 0 out =
  a2b_loop rest 0 0 0 ((out ++ [b]) ++ [c]).
Proof.
  destruct (last_facts b c) as ((V2 & P2 & _) & (V3 & P3 & _) & Hb & Hl & Hc).
  cbn [a2b_loop]. rewrite P2, V2. cbn [a2b_loop]. rewrite P3, V3, Hb, Hl, Hc.
  reflexivity.
Qed.

(** The third character alone gives back the second byte. *)
Lemma a2b_third (b c : byte) (rest : string) (out : bytes) :
  a2b_loop (String (b64_char (sextet2 b c)) rest)
           2 (N.shiftr (Byte.to_N b) 4) 0 out =
  a2b_loop rest 3 (N.shiftr (Byte.to_N c) 6) 0 (out ++ [b]).
Proof.
  destruct (last_facts b c) as ((V2 & P2 & _) & _ & Hb & Hl & _).
  cbn [a2b_loop]. rewrite P2, V2, Hb, Hl. reflexivity.
Qed.

(** Decoding what [b64encode] wrote appends the encoded bytes. *)
Lemma a2b_loop_b64encode (n : nat) :
  forall (data out : bytes) (lc : N) (pads : nat),
    List.length data <= n ->
    a2b_loop (b64encode data) 0 lc pads out = Ret (out ++ data).
Proof.
  induction n as [|n IH]; intros data out lc pads Hlen.
  - destruct data; [|cbn in Hlen; lia]. cbn. now rewrite app_nil_r.
  - destruct data as [|a [|b [|c rest]]].
    + cbn. now rewrite app_nil_r.
    + cbn [b64encode]. rewrite a2b_first. reflexivity.
    + cbn [b64encode]. rewrite a2b_first, a2b_third. cbn.
      now rewrite <- app_assoc.
    + cbn [b64encode]. rewrite a2b_first, a2b_last.
      rewrite IH by (cbn in Hlen; lia).
      now rewrite <- !app_assoc.
Qed.

Lemma b64encode_ascii (n : nat) :
  forall data, List.length data <= n -> is_ascii_text (b64encode data) = true.
Proof.
  induction n as [|n IH]; intros data Hlen.
  - destruct data; [reflexivity|cbn in Hlen; lia].
  - destruct data as [|a [|b [|c rest]]]; [reflexivity|..]; cbn [b64encode is_ascii_text].
    + destruct (first_facts a Byte.x00) as ((_ & _ & A0) & (_ & _ & A1) & _).
      now rewrite A0, A1.
    + destruct (first_facts a b) as ((_ & _ & A0) & (_ & _ & A1) & _).
      destruct (last_facts b Byte.x00) as ((_ & _ & A2) & _).
      now rewrite A0, A1, A2.
    + destruct (first_facts a b) as ((_ & _ & A0) & (_ & _ & A1) & _).
      destruct (last_facts b c) as ((_ & _ & A2) & (_ & _ & A3) & _).
      rewrite A0, A1, A2, A3. cbn. apply IH. cbn in Hlen. lia.
Qed.

(** [base64.b64decode(base64.b64encode(data))] is [data]. *)
Lemma b64decode_b64encode (data : bytes) : b64decode (b64encode data) = Ret data.
Proof.
  unfold b64decode.
  rewrite (b64encode_ascii (List.length data)) by lia.
  now rewrite (a2b_loop_b64encode (List.length data)) by lia.
Qed.

End Base64Proofs.

(** ** The image generator: a reference image survives encoding and saving *)

Module GeneratorProofs.
Import Py Base64 Generator.

(** Every data URL the encoder builds starts with [data:image] and has its
    first comma right before the Base64 text. *)
Lemma data_url_shape (ext encoded : string) :
  startswith "data:image" ("data:" ++ mime_type ext ++ ";base64," ++ encoded)%string
    = true /\
  after_comma ("data:" ++ mime_type ext ++ ";base64," ++ encoded)%string
    = Ret encoded.
Proof.
  unfold mime_type.
  repeat match goal with
         | |- context [if ?c then _ else _] => destruct c
         end; split; reflexivity.
Qed.

(** C10: for the bytes [b] of a readable reference image, the data URL that
    [encode_image_to_base64] builds, handed to [save_base64_image], makes it
    write exactly [b] to the output path: stripping the data-URL prefix and
    decoding inverts the encoding. *)
Theorem encode_then_save_writes_original (E : env) (b : bytes)
    (image_path output_path : string) (fs : files) :
  path_exists E image_path = true ->
  read_bytes E image_path = Ret b ->
  (dir_exists E (dirname output_path) = true \/
   mkdir_raises E (dirname output_path) = None) ->
  write_raises E output_path = None ->
  exists url,
    encode_image_to_base64 E image_path = Ret url /\
    save_base64_image E (JStr url) output_path fs =
      (Ret tt, (output_path, b) :: fs).
Proof.
  intros Hex Hread Hdir Hwrite.
  unfold encode_image_to_base64. rewrite Hex, Hread. cbn [negb].
  eexists. split; [reflexivity|].
  unfold save_base64_image.
  destruct (data_url_shape (lower (suffix image_path)) (b64encode b)) as [Hs Hc].
  rewrite Hs, Hc, Base64Proofs.b64decode_b64encode, Hwrite.
  destruct Hdir as [Hd|Hd]; rewrite Hd; cbn [negb]; [reflexivity|].
  destruct (negb (dir_exists E (dirname output_path))); reflexivity.
Qed.

(** The round trip on the three bytes of [style.png]. *)
Lemma encode_then_save_writes_original_witness :
  exists url,
    encode_image_to_base64 Examples.studio "style.png" = Ret url /\
    save_base64_image Examples.studio (JStr url) "out/result.png" [] =
      (Ret tt, [("out/result.png", [Byte.x01; Byte.x02; Byte.x03])]).
Proof.
  apply (encode_then_save_writes_original Examples.studio
           [Byte.x01; Byte.x02; Byte.x03] "style.png" "out/result.png" []).
  - reflexivity.
  - reflexivity.
  - left. reflexivity.
  - reflexivity.
Defined.

End GeneratorProofs.

(** ** The language statistics: [fetch_language_stats] *)

Module LanguageStatsProofs.
Import Py Exporter.

(** Adding the same object to two integers adds the same amount. *)
Lemma int_add_delta (a b : Z) (size : json) (t u : Z) :
  int_add a size = Ret t -> int_add b size = Ret u -> (t - a = u - b)%Z.
Proof.
  unfold int_add. intros Ha Hb.
  destruct size as [| [|] | n | | | |]; inversion Ha; inversion Hb; lia.
Qed.

Definition acc_sum (d : list (pykey * lang_acc)) : Z :=
  zsum (fun e => acc_total_size_kb (snd e)) d.

Lemma zsum_app {A : Type} (f : A -> Z) (l m : list A) :
  zsum f (l ++ m) = (zsum f l + zsum f m)%Z.
Proof. induction l as [|x l IH]; cbn; [reflexivity|]. rewrite IH. lia. Qed.

Lemma zsum_map {A B : Type} (f : B -> Z) (g : A -> B) (l : list A) :
  zsum f (map g l) = zsum (fun x => f (g x)) l.
Proof. induction l as [|x l IH]; cbn; [reflexivity|]. now rewrite IH. Qed.

(** Bumping an existing language adds the size to the sum of the sizes. *)
Lemma bump_sum (k : pykey) (size : json) (d d' : list (pykey * lang_acc))
    (b u : Z) :
  bump k size d = Some (Ret d') ->
  int_add b size = Ret u ->
  (acc_sum d' - acc_sum d = u - b)%Z /\ List.length d' = List.length d.
Proof.
  revert d'. induction d as [|[k' a] d IH]; intros d' H Hu; cbn in H; [discriminate|].
  destruct (pykey_eqb k k').
  - inversion H as [H1]. clear H.
    destruct (int_add (acc_total_size_kb a) size) as [t|] eqn:Ht; cbn in H1;
      [|discriminate].
    inversion H1; subst. unfold acc_sum. cbn.
    pose proof (int_add_delta _ _ _ _ _ Ht Hu). split; [lia|reflexivity].
  - destruct (bump k size d) as [[d1|e]|] eqn:Hb; cbn in H; try discriminate.
    inversion H; subst.
    destruct (IH d1 eq_refl Hu) as [IH1 IH2].
    unfold acc_sum in *. cbn. split; [lia|now rewrite IH2].
Qed.

(** One turn of the loop keeps the total equal to the sum of the
    per-language sizes. *)
Lemma count_repo_sum (stats stats' : list (pykey * lang_acc)) (total total' : Z)
    (repo : json) :
  count_repo (stats, total) repo = Ret (stats', total') ->
  acc_sum stats = total -> acc_sum stats' = total'.
Proof.
  unfold count_repo. intros H Hinv.
  destruct (get repo "language") as [language|]; cbn in H; [|discriminate].
  destruct (get_default repo "size" (JNum 0)) as [size|]; cbn in H; [|discriminate].
  destruct (truthy language); [|inversion H; subst; reflexivity].
  destruct (to_key language) as [k|]; cbn in H; [|discriminate].
  destruct (bump k size stats) as [[d1|e]|] eqn:Hb; cbn in H; try discriminate.
  - destruct (int_add total size) as [u|] eqn:Hu; cbn in H; [|discriminate].
    inversion H; subst.
    destruct (bump_sum _ _ _ _ _ _ Hb Hu). lia.
  - destruct (int_add 0 size) as [t|] eqn:Ht; cbn in H; [|discriminate].
    destruct (int_add total size) as [u|] eqn:Hu; cbn in H; [|discriminate].
    inversion H; subst.
    pose proof (int_add_delta _ _ _ _ _ Ht Hu).
    unfold acc_sum. rewrite zsum_app. cbn. fold (acc_sum stats). lia.
Qed.

Lemma count_repos_sum (repos : list json) :
  forall stats total stats' total',
    count_repos (stats, total) repos = Ret (stats', total') ->
    acc_sum stats = total -> acc_sum stats' = total'.
Proof.
  induction repos as [|repo repos IH]; intros stats total stats' total' H Hinv.
  - cbn in H. inversion H; subst. reflexivity.
  - change (rbind (count_repo (stats, total) repo)
                  (fun acc' => count_repos acc' repos) = Ret (stats', total')) in H.
    destruct (count_repo (stats, total) repo) as [[s1 t1]|] eqn:H1; cbn [rbind] in H;
      [|discriminate].
    eapply IH; [exact H|]. eapply count_repo_sum; eauto.
Qed.

(** Sorting moves entries around and changes none. *)
Lemma zsum_insert_desc (f : pykey * lang_stat -> Z) (x : pykey * lang_stat)
    (l : list (pykey * lang_stat)) :
  zsum f (insert_desc x l) = (f x + zsum f l)%Z.
Proof.
  induction l as [|y l IH]; cbn; [reflexivity|].
  destruct (_ <=? _)%Z; cbn; [reflexivity|]. rewrite IH. lia.
Qed.

Lemma zsum_sorted_desc (f : pykey * lang_stat -> Z) (l : list (pykey * lang_stat)) :
  zsum f (sorted_desc l) = zsum f l.
Proof.
  induction l as [|x l IH]; cbn; [reflexivity|].
  now rewrite zsum_insert_desc, IH.
Qed.

Lemma insert_desc_perm (x : pykey * lang_stat) (l : list (pykey * lang_stat)) :
  Permutation (insert_desc x l) (x :: l).
Proof.
  induction l as [|y l IH]; cbn; [reflexivity|].
  destruct (_ <=? _)%Z; [reflexivity|].
  rewrite IH. apply perm_swap.
Qed.

Lemma sorted_desc_perm (l : list (pykey * lang_stat)) :
  Permutation (sorted_desc l) l.
Proof.
  induction l as [|x l IH]; cbn; [reflexivity|].
  rewrite insert_desc_perm. now apply perm_skip.
Qed.

(** The rounded quotient is within half a unit of the exact one. *)
Lemma round_div_half (n d : Z) :
  (0 < d)%Z -> (- d <= 2 * (d * round_div n d - n) <= d)%Z.
Proof.
  intros Hd. unfold round_div.
  pose proof (Z.div_mod n d ltac:(lia)) as Hdm.
  pose proof (Z.mod_pos_bound n d Hd) as Hr.
  set (q := (n / d)%Z) in *. set (r := (n mod d)%Z) in *. clearbody q r.
  subst n.
  destruct (2 * r <? d)%Z eqn:H1.
  - apply Z.ltb_lt in H1. lia.
  - apply Z.ltb_ge in H1.
    destruct (d <? 2 * r)%Z eqn:H2.
    + apply Z.ltb_lt in H2. lia.
    + apply Z.ltb_ge in H2. destruct (Z.even q); lia.
Qed.

(** The percentages of n languages sum to 100 up to n half-hundredths
    when the sizes sum to a positive total. *)
Lemma percentages_sum (total : Z) (stats : list (pykey * lang_acc)) :
  (0 < total)%Z ->
  (- Z.of_nat (List.length stats) * total
   <= 2 * (total * zsum (fun e => percentage (acc_total_size_kb (snd e)) total) stats
           - 10000 * acc_sum stats)
   <= Z.of_nat (List.length stats) * total)%Z.
Proof.
  intros Ht. unfold acc_sum.
  induction stats as [|[k a] stats IH]; [cbn [zsum List.length]; lia|].
  cbn [zsum List.length snd]. rewrite Nat2Z.inj_succ.
  assert (Hp : percentage (acc_total_size_kb a) total =
               round_div (acc_total_size_kb a * 10000) total).
  { unfold percentage. destruct (Z.gtb_spec total 0); [reflexivity|lia]. }
  rewrite Hp.
  pose proof (round_div_half (acc_total_size_kb a * 10000) total Ht).
  lia.
Qed.



End LanguageStatsProofs.

(** ** The run as a whole: [fetch_all] *)

Module OrchestrationProofs.
Import Py Exporter.
Local Open Scope py_scope.

(** *** Computations that end, adding only events of a kind to the trace *)

Section Runs.

Variable P : event -> bool.

(** [m] ends from every state, and what it adds to the trace satisfies [P]. *)
Definition runs {A : Type} (m : M A) : Prop :=
  forall s, exists r s' tr,
    m s = Some (r, s') /\ st_trace s' = st_trace s ++ tr /\ forallb P tr = true.

Lemma runs_ret {A : Type} (a : A) : runs (ret a).
Proof. intros s. exists (Ret a), s, []. now rewrite app_nil_r. Qed.

Lemma runs_raise {A : Type} (e : exn) : runs (@raise A e).
Proof. intros s. exists (Raise e), s, []. now rewrite app_nil_r. Qed.

Lemma runs_lift {A : Type} (r : result A) : runs (lift r).
Proof. intros s. exists r, s, []. now rewrite app_nil_r. Qed.

Lemma runs_get_state : runs get_state.
Proof. intros s. exists (Ret s), s, []. now rewrite app_nil_r. Qed.

Lemma runs_log (ev : event) : P ev = true -> runs (log ev).
Proof.
  intros H s. eexists; eexists; exists [ev].
  split; [reflexivity|]. cbn. now rewrite H.
Qed.

Lemma runs_modify_stats (f : stats -> stats) : runs (modify_stats f).
Proof.
  intros s. eexists; eexists; exists [].
  split; [reflexivity|]. cbn. now rewrite app_nil_r.
Qed.

Lemma runs_bind {A B : Type} (m : M A) (k : A -> M B) :
  runs m -> (forall a, runs (k a)) -> runs (bind m k).
Proof.
  intros Hm Hk s. unfold bind.
  destruct (Hm s) as (r & s1 & tr1 & -> & Ht1 & Hp1).
  destruct r as [a|e].
  - destruct (Hk a s1) as (r2 & s2 & tr2 & -> & Ht2 & Hp2).
    exists r2, s2, (tr1 ++ tr2).
    split; [reflexivity|]. rewrite Ht2, Ht1, <- app_assoc, forallb_app, Hp1, Hp2.
    auto.
  - exists (Raise e), s1, tr1. auto.
Qed.

Lemma runs_try_except {A : Type} (m : M A) (c : exn -> bool) (h : exn -> M A) :
  runs m -> (forall e, runs (h e)) -> runs (try_except m c h).
Proof.
  intros Hm Hh s. unfold try_except.
  destruct (Hm s) as (r & s1 & tr1 & -> & Ht1 & Hp1).
  destruct r as [a|e]; [exists (Ret a), s1, tr1; auto|].
  destruct (c e); [|exists (Raise e), s1, tr1; auto].
  destruct (Hh e s1) as (r2 & s2 & tr2 & -> & Ht2 & Hp2).
  exists r2, s2, (tr1 ++ tr2).
  split; [reflexivity|]. rewrite Ht2, Ht1, <- app_assoc, forallb_app, Hp1, Hp2.
  auto.
Qed.

Lemma runs_for_each {A : Type} (xs : list A) (f : A -> M unit) :
  (forall x, runs (f x)) -> runs (for_each xs f).
Proof.
  intros Hf. induction xs as [|x xs IH]; cbn [for_each].
  - apply runs_ret.
  - apply runs_bind; auto.
Qed.

Section WithEnv.

Variable E : env.

Lemma runs_mkdir (d : path) : runs (mkdir E d).
Proof.
  intros s. unfold mkdir. destruct (mkdir_raises E d).
  - eexists; eexists; exists []. split; [reflexivity|]. now rewrite app_nil_r.
  - eexists; eexists; exists []. split; [reflexivity|]. cbn. now rewrite app_nil_r.
Qed.

Lemma runs_write_json (p : path) (data : json) :
  P (Write p data) = true -> runs (write_json E p data).
Proof.
  intros H s. unfold write_json. destruct (open_raises E p).
  - eexists; eexists; exists []. split; [reflexivity|]. now rewrite app_nil_r.
  - eexists; eexists; exists [Write p data]. split; [reflexivity|]. cbn.
    now rewrite H.
Qed.

End WithEnv.

End Runs.

(** The events of kind [routine header posts] come with every request and
    every line the fetch methods print, whatever their arguments. *)
Ltac routine_event :=
  first [ reflexivity
        | assumption
        | cbn; match goal with H : _ = true |- _ => rewrite H end; reflexivity ].

Ltac run_step :=
  lazymatch goal with
  | |- runs _ (bind _ _) => apply runs_bind; [|intros ?]
  | |- runs _ (ret _) => apply runs_ret
  | |- runs _ (raise _) => apply runs_raise
  | |- runs _ (lift _) => apply runs_lift
  | |- runs _ get_state => apply runs_get_state
  | |- runs _ (print _ _) => apply runs_log; routine_event
  | |- runs _ (log _) => apply runs_log; routine_event
  | |- runs _ (modify_stats _) => apply runs_modify_stats
  | |- runs _ count_request => apply runs_modify_stats
  | |- runs _ (append_error _) => apply runs_modify_stats
  | |- runs _ (set_fetched _ _) => apply runs_modify_stats
  | |- runs _ (mkdir _ _) => apply runs_mkdir
  | |- runs _ (write_json _ _ _) => apply runs_write_json; routine_event
  | |- runs _ (try_except _ _ _) => apply runs_try_except; [|intros ?]
  | |- runs _ (for_each _ _) => apply runs_for_each; intros ?
  | |- runs _ (if ?c then _ else _) => destruct c
  | |- runs _ (match ?x with _ => _ end) => destruct x
  end.

Section Methods.

Variable E : env.
Variable headers : string -> bool.
Variable posts : bool.

#[local] Abbreviation R := (routine headers posts).

Lemma runs_make_request (endpoint : string) (params : option (dict json)) :
  runs R (_make_request E endpoint params).
Proof. unfold _make_request. repeat run_step. Qed.

Lemma runs_page_body (endpoint : string) (params : dict json) (acc : list json) :
  runs R (page_body E endpoint params acc).
Proof.
  unfold page_body. apply runs_bind; [apply runs_make_request|intros ?].
  repeat run_step.
Qed.

Lemma runs_save_json (data : json) (p : path) :
  path_eqb p metadata_path = false -> runs R (_save_json E data p).
Proof.
  intros Hp. unfold _save_json.
  assert (R (Write p data) = true) by (cbn; now rewrite Hp).
  repeat run_step.
Qed.

(** The loop, when it ends, has added only routine events. *)
Lemma fetch_pages_routine (fuel : nat) :
  forall endpoint params page acc s r s',
    fetch_pages E fuel endpoint params page acc s = Some (r, s') ->
    exists tr, st_trace s' = st_trace s ++ tr /\ forallb R tr = true.
Proof.
  induction fuel as [|fuel IH]; intros endpoint params page acc s r s' H;
    [discriminate|].
  cbn [fetch_pages] in H.
  set (ps := dict_set "page" (JNum (Z.of_nat page)) params) in *.
  assert (Hturn : runs R
            (print Stdout (MPage page) ;;
             try_except (page_body E endpoint ps acc) is_Exception
               (fun e => print Stderr (MPageError page e) ;; ret (Break, acc)))).
  { apply runs_bind; [apply runs_log; reflexivity|intros ?].
    apply runs_try_except; [apply runs_page_body|intros ?].
    repeat run_step. }
  destruct (Hturn s) as (r1 & s1 & tr1 & Heq & Ht1 & Hp1).
  unfold bind in H, Heq.
  destruct (print Stdout (MPage page) s) as [[[[]|e0] s0]|]; try discriminate.
  - rewrite Heq in H.
    destruct r1 as [[[|] acc1]|e1].
    + inversion H; subst. eauto.
    + apply IH in H. destruct H as (tr2 & Ht2 & Hp2).
      exists (tr1 ++ tr2). rewrite Ht2, Ht1, <- app_assoc, forallb_app, Hp1, Hp2.
      auto.
    + inversion H; subst. eauto.
  - inversion Heq; subst. inversion H; subst. eauto.
Qed.

Variable fuel : nat.
Hypothesis stops : pagination_stops E fuel.

Lemma runs_fetch_paginated (endpoint : string) (params : option (dict json)) :
  runs R (_fetch_paginated_data E fuel endpoint params).
Proof.
  intros s.
  destruct (_fetch_paginated_data E fuel endpoint params s) as [[r s']|] eqn:H;
    [|now apply stops in H].
  pose proof H as H'. unfold _fetch_paginated_data in H'.
  apply fetch_pages_routine in H'. destruct H' as (tr & Ht & Hp).
  exists r, s', tr. auto.
Qed.

Variable username : string.

Ltac run_method :=
  repeat first [ apply runs_fetch_paginated
               | apply runs_make_request
               | apply runs_save_json; reflexivity
               | run_step ].

Lemma runs_guarded (what : string) (v : json) (body : M unit) :
  headers what = true -> runs R body -> runs R (guarded what v body).
Proof. intros H Hb. unfold guarded. run_method. exact Hb. Qed.

Lemma runs_fetch_profile :
  headers "profile" = true -> runs R (fetch_profile E username).
Proof. intros H. unfold fetch_profile. run_method. Qed.

Lemma runs_fetch_repositories :
  headers "repositories" = true -> runs R (fetch_repositories E username fuel).
Proof. intros H. unfold fetch_repositories. run_method. Qed.

Lemma runs_fetch_gists :
  headers "gists" = true -> runs R (fetch_gists E username fuel).
Proof. intros H. unfold fetch_gists. run_method. Qed.

Lemma runs_fetch_starred :
  headers "starred" = true -> runs R (fetch_starred E username fuel).
Proof. intros H. unfold fetch_starred. run_method. Qed.

Lemma runs_fetch_followers :
  headers "followers" = true -> runs R (fetch_followers E username fuel).
Proof. intros H. unfold fetch_followers. run_method. Qed.

Lemma runs_fetch_following :
  headers "following" = true -> runs R (fetch_following E username fuel).
Proof. intros H. unfold fetch_following. run_method. Qed.

Lemma runs_fetch_organizations :
  headers "organizations" = true -> runs R (fetch_organizations E username fuel).
Proof. intros H. unfold fetch_organizations. apply runs_guarded; auto. run_method. Qed.

Lemma runs_fetch_events :
  headers "events" = true -> runs R (fetch_events E username fuel).
Proof. intros H. unfold fetch_events. apply runs_guarded; auto. run_method. Qed.

Lemma runs_fetch_subscriptions :
  headers "subscriptions" = true -> runs R (fetch_subscriptions E username fuel).
Proof. intros H. unfold fetch_subscriptions. apply runs_guarded; auto. run_method. Qed.

Lemma runs_make_graphql_request (query : string) :
  posts = true -> runs R (_make_graphql_request E query).
Proof. intros H. unfold _make_graphql_request. run_method. Qed.

Lemma runs_fetch_contribution_calendar :
  headers "contribution_calendar" = true -> posts = true ->
  runs R (fetch_contribution_calendar E username).
Proof.
  intros H Hp. unfold fetch_contribution_calendar. apply runs_guarded; auto.
  apply runs_bind; [now apply runs_make_graphql_request|intros ?].
  run_method.
Qed.

Lemma runs_fetch_search (what kind list_key : string) (file : path) :
  headers what = true -> path_eqb file metadata_path = false ->
  runs R (fetch_search E username what kind list_key file).
Proof.
  intros H Hf. unfold fetch_search. apply runs_guarded; auto.
  repeat first [ apply runs_make_request | apply runs_save_json; assumption
               | run_step ].
Qed.

Lemma runs_fetch_language_stats :
  headers "language_stats" = true -> runs R (fetch_language_stats E).
Proof. intros H. unfold fetch_language_stats. apply runs_guarded; auto. run_method. Qed.

Lemma runs_fetch_repository_stats :
  headers "repository_stats" = true -> runs R (fetch_repository_stats E).
Proof.
  intros H. unfold fetch_repository_stats. apply runs_guarded; auto. run_method.
Qed.

End Methods.

(** *** The shape of the fetch sequence *)

Ltac split_sequence :=
  repeat match goal with
         | |- context [match ?m ?s with _ => _ end] =>
             match type of (m s) with
             | option (result _ * state) => destruct (m s) as [[[?|?] ?]|]
             end
         end; try reflexivity.

(** The sequence is the unguarded methods followed by the guarded ones. *)
Lemma fetch_sequence_unguarded_guarded (E : env) (username : string)
    (token : option string) (fuel : nat) (s : state) :
  fetch_sequence E username token fuel s =
  (unguarded_fetches E username fuel ;; guarded_fetches E username token fuel) s.
Proof.
  unfold fetch_sequence, unguarded_fetches.
  change (guarded_fetches E username token fuel) with
    (fetch_organizations E username fuel ;;
     fetch_events E username fuel ;;
     fetch_subscriptions E username fuel ;;
     (if token_given token then fetch_contribution_calendar E username
      else print Stdout MSkipCalendar) ;;
     fetch_pull_requests E username ;;
     fetch_issues E username ;;
     fetch_language_stats E ;;
     fetch_repository_stats E).
  unfold bind. split_sequence.
Qed.

(** The sequence is what comes before the contribution step, the step, and
    what comes after it. *)
Lemma fetch_sequence_contribution_step (E : env) (username : string)
    (token : option string) (fuel : nat) (s : state) :
  fetch_sequence E username token fuel s =
  (before_contributions E username fuel ;;
   contribution_step E username token ;;
   after_contributions E username) s.
Proof.
  unfold fetch_sequence, before_contributions, contribution_step,
    after_contributions.
  unfold bind. split_sequence.
Qed.

(** *** Methods that let no [Exception] out *)

(** The outcome of a computation cut short by Ctrl-C or [sys.exit]. *)
Definition interrupted {A : Type} (r : result A) : Prop :=
  exists e, r = Raise e /\ is_Exception e = false.

(** [m] ends from every state; unless it is interrupted it returns, and by
    then the methods [whats] have started. *)
Definition attempts (R : event -> bool) (whats : list string) (m : M unit) : Prop :=
  forall s, exists r s' tr,
    m s = Some (r, s') /\ st_trace s' = st_trace s ++ tr /\
    forallb R tr = true /\
    (interrupted r \/ (r = Ret tt /\ Forall (fun w => started w tr) whats)).

Lemma started_app_l (w : string) (t u : list event) :
  started w t -> started w (t ++ u).
Proof. unfold started. intros H. apply in_or_app. now left. Qed.

Lemma started_app_r (w : string) (t u : list event) :
  started w u -> started w (t ++ u).
Proof. unfold started. intros H. apply in_or_app. now right. Qed.

Lemma attempts_bind (R : event -> bool) (ws1 ws2 : list string) (m1 m2 : M unit) :
  attempts R ws1 m1 -> attempts R ws2 m2 -> attempts R (ws1 ++ ws2) (m1 ;; m2).
Proof.
  intros H1 H2 s. unfold bind.
  destruct (H1 s) as (r1 & s1 & tr1 & -> & Ht1 & Hp1 & Hr1).
  destruct Hr1 as [(e & -> & He)|[-> Hw1]].
  - exists (Raise e), s1, tr1. repeat split; auto. left. exists e. auto.
  - destruct (H2 s1) as (r2 & s2 & tr2 & -> & Ht2 & Hp2 & Hr2).
    exists r2, s2, (tr1 ++ tr2).
    split; [reflexivity|]. split; [now rewrite Ht2, Ht1, <- app_assoc|].
    split; [now rewrite forallb_app, Hp1, Hp2|].
    destruct Hr2 as [Hi|[-> Hw2]]; [now left|right].
    split; [reflexivity|]. apply Forall_app. split.
    + eapply Forall_impl; [|exact Hw1]. intros w. apply started_app_l.
    + eapply Forall_impl; [|exact Hw2]. intros w. apply started_app_r.
Qed.

Lemma not_exception_cases (e : exn) :
  is_Exception e = false -> e = KeyboardInterrupt \/ exists c, e = SystemExit c.
Proof. destruct e; try discriminate; eauto. Qed.

(** A guarded method starts, and whatever [Exception] its body raises ends
    in the handler. *)
Lemma attempts_guarded (R : event -> bool) (what : string) (v : json)
    (body : M unit) :
  R (Print Stdout (MHeader what)) = true ->
  R (Print Stderr (MFailed what None)) = true ->
  (forall e, R (Print Stderr (MFailed what (Some e))) = true) ->
  runs R body -> attempts R [what] (guarded what v body).
Proof.
  intros Hh _ Hf Hb s. unfold guarded, bind, print, log, try_except.
  cbn [st_stats st_files st_dirs st_trace].
  match goal with |- context [body ?s0] => destruct (Hb s0) as (r & s1 & tr & Hrun & Ht & Hp) end.
  rewrite Hrun. cbn [st_trace] in Ht.
  assert (Hstart : forall u, Forall (fun w => started w
                     ((Print Stdout (MHeader what) :: tr) ++ u)) [what]).
  { intros u. constructor; [|constructor]. left. reflexivity. }
  destruct r as [[]|e].
  - exists (Ret tt), s1, (Print Stdout (MHeader what) :: tr).
    split; [reflexivity|]. split; [now rewrite Ht, <- app_assoc|].
    split; [cbn; now rewrite Hh, Hp|]. right. split; [reflexivity|].
    specialize (Hstart []). now rewrite app_nil_r in Hstart.
  - destruct (is_Exception e) eqn:He.
    + unfold set_fetched, modify_stats. cbn [st_stats st_files st_dirs st_trace].
      eexists; eexists;
        exists ((Print Stdout (MHeader what) :: tr) ++ [Print Stderr (MFailed what (Some e))]).
      split; [reflexivity|]. cbn [st_trace]. split; [now rewrite Ht, <- !app_assoc|].
      split; [cbn; rewrite Hh, forallb_app, Hp; cbn; now rewrite Hf|].
      right. split; [reflexivity|]. apply Hstart.
    + exists (Raise e), s1, (Print Stdout (MHeader what) :: tr).
      split; [reflexivity|]. split; [now rewrite Ht, <- app_assoc|].
      split; [cbn; now rewrite Hh, Hp|]. left. exists e. auto.
Qed.

Lemma attempts_print (R : event -> bool) (o : stream) (m : msg) :
  R (Print o m) = true -> attempts R [] (print o m).
Proof.
  intros H s. eexists; eexists; exists [Print o m].
  split; [reflexivity|]. split; [reflexivity|]. split; [cbn; now rewrite H|].
  right. split; [reflexivity|constructor].
Qed.

Lemma attempts_weaken (R : event -> bool) (ws ws' : list string) (m : M unit) :
  (forall w, In w ws' -> In w ws) -> attempts R ws m -> attempts R ws' m.
Proof.
  intros Hsub H s. destruct (H s) as (r & s' & tr & Heq & Ht & Hp & Hr).
  exists r, s', tr. repeat split; auto.
  destruct Hr as [Hi|[-> Hw]]; [now left|right]. split; [reflexivity|].
  rewrite Forall_forall in *. auto.
Qed.

(** The loop of [_fetch_paginated_data] lets no [Exception] out: what a
    page request or the decoding of a page raises ends in its handler. *)
Lemma fetch_pages_no_exception (E : env) (fuel : nat) :
  forall endpoint params page acc s r s',
    fetch_pages E fuel endpoint params page acc s = Some (r, s') ->
    forall e, r = Raise e -> is_Exception e = false.
Proof.
  induction fuel as [|fuel IH]; intros endpoint params page acc s r s' H e ->;
    [discriminate|].
  cbn [fetch_pages] in H. unfold bind at 1, print at 1, log at 1 in H.
  unfold bind at 1, try_except at 1 in H.
  match type of H with
  | context [page_body ?E ?ep ?ps ?a ?s0] =>
      destruct (page_body E ep ps a s0) as [[[[[|] acc1]|e1] s1]|]
  end; try discriminate.
  - eapply IH; eauto.
  - destruct (is_Exception e1) eqn:He1.
    + unfold bind, print, log, ret in H. discriminate.
    + inversion H; subst. exact He1.
Qed.

(** *** Failure isolation in the fetch sequence *)

Section Isolation.

Variable E : env.
Variable username : string.
Variable token : option string.
Variable fuel : nat.
Hypothesis stops : pagination_stops E fuel.

(** Every event of the methods from [fetch_organizations] on. *)
Definition any_header : string -> bool := fun _ => true.

#[local] Abbreviation R := (routine any_header true).

Lemma attempts_fetch_organizations :
  attempts R ["organizations"] (fetch_organizations E username fuel).
Proof.
  unfold fetch_organizations. apply attempts_guarded; try reflexivity.
  repeat first [ apply runs_fetch_paginated; exact stops
               | apply runs_save_json; reflexivity | run_step ].
Qed.

Lemma attempts_fetch_events :
  attempts R ["events"] (fetch_events E username fuel).
Proof.
  unfold fetch_events. apply attempts_guarded; try reflexivity.
  repeat first [ apply runs_fetch_paginated; exact stops
               | apply runs_save_json; reflexivity | run_step ].
Qed.

Lemma attempts_fetch_subscriptions :
  attempts R ["subscriptions"] (fetch_subscriptions E username fuel).
Proof.
  unfold fetch_subscriptions. apply attempts_guarded; try reflexivity.
  repeat first [ apply runs_fetch_paginated; exact stops
               | apply runs_save_json; reflexivity | run_step ].
Qed.

Lemma attempts_fetch_contribution_calendar :
  attempts R ["contribution_calendar"] (fetch_contribution_calendar E username).
Proof.
  unfold fetch_contribution_calendar. apply attempts_guarded; try reflexivity.
  apply runs_bind; [now apply runs_make_graphql_request|intros ?].
  repeat first [ apply runs_save_json; reflexivity | run_step ].
Qed.

Lemma attempts_fetch_search (what kind list_key : string) (file : path) :
  path_eqb file metadata_path = false ->
  attempts R [what] (fetch_search E username what kind list_key file).
Proof.
  intros Hf. unfold fetch_search. apply attempts_guarded; try reflexivity.
  repeat first [ apply runs_make_request | apply runs_save_json; assumption
               | run_step ].
Qed.

Lemma attempts_fetch_language_stats :
  attempts R ["language_stats"] (fetch_language_stats E).
Proof.
  unfold fetch_language_stats. apply attempts_guarded; try reflexivity.
  repeat first [ apply runs_save_json; reflexivity | run_step ].
Qed.

Lemma attempts_fetch_repository_stats :
  attempts R ["repository_stats"] (fetch_repository_stats E).
Proof.
  unfold fetch_repository_stats. apply attempts_guarded; try reflexivity.
  repeat first [ apply runs_save_json; reflexivity | run_step ].
Qed.

Lemma attempts_contribution_step :
  attempts R [] (contribution_step E username token).
Proof.
  unfold contribution_step. destruct (token_given token).
  - apply (attempts_weaken R ["contribution_calendar"]); [intros w []|].
    apply attempts_fetch_contribution_calendar.
  - now apply attempts_print.
Qed.

Lemma attempts_after_contributions :
  attempts R ["pull_requests"; "issues"; "language_stats"; "repository_stats"]
    (after_contributions E username).
Proof.
  unfold after_contributions, fetch_pull_requests, fetch_issues.
  apply (attempts_bind R ["pull_requests"]); [now apply attempts_fetch_search|].
  apply (attempts_bind R ["issues"]); [now apply attempts_fetch_search|].
  apply (attempts_bind R ["language_stats"]);
    [apply attempts_fetch_language_stats|apply attempts_fetch_repository_stats].
Qed.

Lemma attempts_guarded_fetches :
  attempts R ["organizations"; "events"; "subscriptions"; "pull_requests";
              "issues"; "language_stats"; "repository_stats"]
    (guarded_fetches E username token fuel).
Proof.
  unfold guarded_fetches.
  apply (attempts_bind R ["organizations"]); [apply attempts_fetch_organizations|].
  apply (attempts_bind R ["events"]); [apply attempts_fetch_events|].
  apply (attempts_bind R ["subscriptions"]); [apply attempts_fetch_subscriptions|].
  apply (attempts_bind R []);
    [apply attempts_contribution_step|apply attempts_after_contributions].
Qed.

(** The unguarded methods end, and none of the later methods starts in
    them. *)
Lemma runs_unguarded_fetches :
  runs (routine unguarded false) (unguarded_fetches E username fuel).
Proof.
  unfold unguarded_fetches.
  apply runs_bind; [now apply runs_fetch_profile|intros ?].
  apply runs_bind; [now apply runs_fetch_repositories|intros ?].
  apply runs_bind; [now apply runs_fetch_gists|intros ?].
  apply runs_bind; [now apply runs_fetch_starred|intros ?].
  apply runs_bind; [now apply runs_fetch_followers|intros ?].
  now apply runs_fetch_following.
Qed.

Lemma not_started (what : string) (tr : list event) :
  forallb (routine unguarded false) tr = true ->
  unguarded what = false -> ~ started what tr.
Proof.
  intros Hall Hw Hin. rewrite forallb_forall in Hall.
  apply Hall in Hin. change (unguarded what = true) in Hin. congruence.
Qed.

End Isolation.

(** Where no collection has a second page, one turn of fuel is enough. *)
Lemma one_page_stops (E : env) : answers_one_page E -> pagination_stops E 1.
Proof.
  intros H endpoint params s. unfold _fetch_paginated_data.
  cbn [fetch_pages].
  unfold bind at 1, print at 1, log at 1.
  unfold bind at 1, try_except at 1, page_body.
  unfold bind at 1, _make_request.
  unfold bind at 1, count_request, modify_stats.
  unfold try_except, bind, log, lift, ret, raise, print, log, append_error,
    modify_stats.
  cbn [st_stats st_files st_dirs st_trace].
  match goal with
  | |- context [session_get E endpoint ?ps] =>
      specialize (H endpoint ps); destruct (session_get E endpoint ps) as [r|e]
  end.
  - destruct (raise_for_status r) as [[]|e] eqn:Hst.
    + unfold response_json. destruct (body r) as [data|].
      * destruct (truthy data) eqn:Htr; cbn [negb]; [|discriminate].
        destruct H as [H|H]; [discriminate|].
        destruct (iterate data) as [xs|e].
        -- unfold has_next in H. rewrite H. discriminate.
        -- destruct (is_Exception e); discriminate.
      * cbn. discriminate.
    + destruct (is_RequestException e); cbn;
        destruct (is_Exception e); discriminate.
  - destruct (is_RequestException e); cbn; destruct (is_Exception e); discriminate.
Qed.

(** C3, as the code has it: no [Exception] leaves the methods for
    organizations, events, subscriptions, the contribution calendar, pull
    requests and issues, so that once the organizations fetch has started
    every later method of the sequence starts, unless the run is
    interrupted.  What [fetch_profile] raises, and whatever is raised
    during the six unguarded methods, leaves the sequence at once, and
    when an [Exception] leaves the sequence none of the later methods has
    started.  But the pagination loop of the repositories, gists, starred,
    followers and following fetches lets no [Exception] out either: a
    failed page request does not end these fetches. *)
Theorem failure_isolation (E : env) (username : string) (token : option string)
    (fuel : nat) :
  pagination_stops E fuel ->
  (forall m,
     In m [fetch_organizations E username fuel; fetch_events E username fuel;
           fetch_subscriptions E username fuel;
           fetch_contribution_calendar E username;
           fetch_pull_requests E username; fetch_issues E username] ->
     forall s, exists r s',
       m s = Some (r, s') /\ (r = Ret tt \/ interrupted r)) /\
  (forall endpoint params s r s',
     _fetch_paginated_data E fuel endpoint params s = Some (r, s') ->
     forall e, r = Raise e -> is_Exception e = false) /\
  (forall s e s1,
     fetch_profile E username s = Some (Raise e, s1) ->
     fetch_sequence E username token fuel s = Some (Raise e, s1)) /\
  (forall s e s1,
     unguarded_fetches E username fuel s = Some (Raise e, s1) ->
     fetch_sequence E username token fuel s = Some (Raise e, s1)) /\
  (forall s, exists r s' tr,
     fetch_sequence E username token fuel s = Some (r, s') /\
     st_trace s' = st_trace s ++ tr /\
     (started "organizations" tr ->
      interrupted r \/
      (r = Ret tt /\
       Forall (fun w => started w tr)
         ["events"; "subscriptions"; "pull_requests"; "issues";
          "language_stats"; "repository_stats"])) /\
     (forall e, r = Raise e -> is_Exception e = true ->
      Forall (fun w => ~ started w tr)
        ["organizations"; "events"; "subscriptions"; "contribution_calendar";
         "pull_requests"; "issues"; "language_stats"; "repository_stats"])).
Proof.
  intros stops. split; [|split; [|split; [|split]]].
  - intros m Hm s.
    assert (Hatt : exists w, attempts (routine any_header true) [w] m).
    { cbn in Hm.
      destruct Hm as [<-|[<-|[<-|[<-|[<-|[<-|[]]]]]]].
      - eexists. now apply attempts_fetch_organizations.
      - eexists. now apply attempts_fetch_events.
      - eexists. now apply attempts_fetch_subscriptions.
      - eexists. now apply attempts_fetch_contribution_calendar.
      - eexists. now apply attempts_fetch_search.
      - eexists. now apply attempts_fetch_search. }
    destruct Hatt as (w & Hatt).
    destruct (Hatt s) as (r & s' & tr & Heq & _ & _ & Hr).
    exists r, s'. split; [exact Heq|]. tauto.
  - intros endpoint params s r s' H. unfold _fetch_paginated_data in H.
    eapply fetch_pages_no_exception; eauto.
  - intros s e s1 H. unfold fetch_sequence, bind. now rewrite H.
  - intros s e s1 H. rewrite fetch_sequence_unguarded_guarded.
    unfold bind at 1. now rewrite H.
  - intros s. rewrite fetch_sequence_unguarded_guarded. unfold bind at 1.
    destruct (runs_unguarded_fetches E username fuel stops s)
      as (r1 & s1 & tr1 & -> & Ht1 & Hp1).
    destruct r1 as [[]|e1].
    + destruct (attempts_guarded_fetches E username token fuel stops s1)
        as (r2 & s2 & tr2 & -> & Ht2 & _ & Hr2).
      exists r2, s2, (tr1 ++ tr2).
      split; [reflexivity|]. split; [now rewrite Ht2, Ht1, <- app_assoc|]. split.
      * intros _. destruct Hr2 as [Hi|[-> Hw]]; [now left|right].
        split; [reflexivity|].
        rewrite Forall_forall in *. intros w Hin. apply started_app_r, Hw.
        cbn in *. tauto.
      * intros e -> He. destruct Hr2 as [(e' & Heq & He')|[Heq _]];
          [|discriminate].
        inversion Heq; subst. congruence.
    + exists (Raise e1), s1, tr1.
      split; [reflexivity|]. split; [exact Ht1|]. split.
      * intros Hs. now apply (not_started "organizations" tr1 Hp1) in Hs.
      * intros e _ _. rewrite Forall_forall. intros w Hin.
        apply (not_started w tr1 Hp1).
        cbn in Hin.
        repeat (destruct Hin as [<-|Hin]; [reflexivity|]). destruct Hin.
Qed.

Lemma repos_down_one_page : answers_one_page Examples.repos_down.
Proof.
  intros endpoint params. cbn.
  repeat match goal with
         | |- context [if ?c then _ else _] => destruct c
         end; cbn; auto.
Qed.

(** The run for octocat while the repositories endpoint is down. *)
Lemma failure_isolation_witness :
  exists r s' tr,
    fetch_sequence Examples.repos_down "octocat" None 1 (initial_state [] [])
      = Some (r, s') /\
    st_trace s' = st_trace (initial_state [] []) ++ tr /\
    (started "organizations" tr ->
     interrupted r \/
     (r = Ret tt /\
      Forall (fun w => started w tr)
        ["events"; "subscriptions"; "pull_requests"; "issues";
         "language_stats"; "repository_stats"])) /\
    (forall e, r = Raise e -> is_Exception e = true ->
     Forall (fun w => ~ started w tr)
       ["organizations"; "events"; "subscriptions"; "contribution_calendar";
        "pull_requests"; "issues"; "language_stats"; "repository_stats"]).
Proof.
  apply (proj2 (proj2 (proj2 (proj2
           (failure_isolation Examples.repos_down "octocat" None 1
              (one_page_stops _ repos_down_one_page)))))).
Defined.

(** Counterexample to C3 as stated: with the repositories endpoint down the
    failed request is recorded, and yet the gists fetch starts and the
    sequence runs to its end. *)
Lemma repositories_failure_does_not_abort : ~ repositories_failure_aborts.
Proof.
  intros H.
  specialize (H Examples.repos_down "octocat" None 1).
  destruct (fetch_sequence Examples.repos_down "octocat" None 1 (initial_state [] []))
    as [[r s']|] eqn:Heq; [|vm_compute in Heq; discriminate].
  apply (H r s' ConnectionError eq_refl).
  - vm_compute in Heq. inversion Heq; subst. cbn. auto.
  - vm_compute in Heq. inversion Heq; subst. unfold started. cbn. auto 20.
Qed.

(** *** The shape of a whole run *)

(** [s] with [tr] added to its trace. *)
Definition traced (s : state) (tr : list event) : state :=
  {| st_stats := st_stats s; st_files := st_files s; st_dirs := st_dirs s;
     st_trace := st_trace s ++ tr |}.

Lemma for_each_print {A : Type} (o : stream) (f : A -> msg) (xs : list A) :
  forall s,
    for_each xs (fun x => print o (f x)) s =
    Some (Ret tt, traced s (map (fun x => Print o (f x)) xs)).
Proof.
  induction xs as [|x xs IH]; intros s; cbn [for_each map].
  - unfold ret, traced. rewrite app_nil_r. now destruct s.
  - unfold bind, print at 1, log. rewrite IH. unfold traced. cbn.
    now rewrite <- app_assoc.
Qed.

(** [print_summary] prints the summary lines of the statistics and changes
    nothing else. *)
Lemma print_summary_lines (s : state) :
  print_summary s = Some (Ret tt, traced s (summary_lines (st_stats s))).
Proof.
  unfold print_summary, bind at 1, get_state.
  unfold bind at 1, print at 1, log.
  unfold bind at 1. rewrite for_each_print.
  unfold summary_lines, traced. cbn [st_stats st_files st_dirs st_trace].
  destruct (errors (st_stats s)) as [|e errs] eqn:He.
  - unfold bind, ret, print, log. cbn [st_stats st_files st_dirs st_trace].
    do 2 f_equal. f_equal. rewrite <- !app_assoc. reflexivity.
  - unfold bind at 1. unfold bind at 1, print at 1, log.
    rewrite for_each_print. unfold print, log, traced.
    cbn [st_stats st_files st_dirs st_trace].
    do 2 f_equal. f_equal. rewrite <- !app_assoc. reflexivity.
Qed.

Section Shape.

Variable E : env.
Variable username : string.
Variable token : option string.
Variable output_directory : string.
Variable fuel : nat.
Hypothesis stops : pagination_stops E fuel.

Lemma runs_fetch_sequence :
  runs (routine any_header (token_given token))
       (fetch_sequence E username token fuel).
Proof.
  unfold fetch_sequence.
  apply runs_bind; [now apply runs_fetch_profile|intros ?].
  apply runs_bind; [now apply runs_fetch_repositories|intros ?].
  apply runs_bind; [now apply runs_fetch_gists|intros ?].
  apply runs_bind; [now apply runs_fetch_starred|intros ?].
  apply runs_bind; [now apply runs_fetch_followers|intros ?].
  apply runs_bind; [now apply runs_fetch_following|intros ?].
  apply runs_bind; [now apply runs_fetch_organizations|intros ?].
  apply runs_bind; [now apply runs_fetch_events|intros ?].
  apply runs_bind; [now apply runs_fetch_subscriptions|intros ?].
  apply runs_bind.
  { destruct (token_given token) eqn:Ht.
    - now apply runs_fetch_contribution_calendar.
    - now apply runs_log. }
  intros ?.
  apply runs_bind; [now apply runs_fetch_search|intros ?].
  apply runs_bind; [now apply runs_fetch_search|intros ?].
  apply runs_bind; [now apply runs_fetch_language_stats|intros ?].
  now apply runs_fetch_repository_stats.
Qed.

(** The [try] with its two [except] clauses: the body's events, then at
    most one line of a handler; only [SystemExit] gets out. *)
Lemma try_part_shape (s : state) :
  exists r s1 tr_seq handler,
    try_except (fetch_sequence E username token fuel)
      (fun e => is_KeyboardInterrupt e || is_Exception e)
      (fun e => if is_KeyboardInterrupt e then print Stdout MInterrupted
                else print Stderr (MError e)) s = Some (r, s1) /\
    st_trace s1 = st_trace s ++ tr_seq ++ handler /\
    forallb (routine any_header (token_given token)) tr_seq = true /\
    (handler = [] \/ handler = [Print Stdout MInterrupted] \/
     exists e, handler = [Print Stderr (MError e)]) /\
    (r = Ret tt \/ exists c, r = Raise (SystemExit c)).
Proof.
  unfold try_except.
  destruct (runs_fetch_sequence s) as (r & s1 & tr & -> & Ht & Hp).
  destruct r as [[]|e].
  - exists (Ret tt), s1, tr, []. rewrite app_nil_r. auto 10.
  - destruct e;
      try (eexists; eexists; exists tr; eexists;
           split; [reflexivity|]; cbn [st_trace]; rewrite Ht, <- app_assoc;
           split; [reflexivity|]; split; [exact Hp|]; split; [eauto|now left]).
    exists (Raise (SystemExit code)), s1, tr, []. rewrite app_nil_r.
    split; [reflexivity|]. eauto 10.
Qed.

(** The [finally] block, where the output directory can be made: it writes
    the metadata file and prints the summary, or raises what the write
    raised. *)
Lemma finally_block_shape (s1 : state) :
  mkdir_raises E [] = None ->
  exists s',
    st_stats s' = st_stats s1 /\
    match open_raises E metadata_path with
    | Some e =>
        (save_metadata E username output_directory ;; print_summary) s1 =
          Some (Raise e, s') /\
        st_trace s' = st_trace s1 ++ [Print Stdout MSavingMetadata]
    | None =>
        (save_metadata E username output_directory ;; print_summary) s1 =
          Some (Ret tt, s') /\
        st_trace s' =
          st_trace s1 ++
          [Print Stdout MSavingMetadata;
           Write metadata_path
             (metadata_json E username output_directory (st_stats s1));
           Print Stdout (MSaved metadata_path)] ++
          summary_lines (st_stats s1)
    end.
Proof.
  intros Hmk.
  unfold save_metadata, _save_json, bind, get_state, mkdir, write_json, print, log.
  change (parent metadata_path) with (@nil string). rewrite Hmk.
  cbn [st_stats st_files st_dirs st_trace].
  destruct (open_raises E metadata_path) as [e|].
  - eexists. split; [|split; reflexivity]. reflexivity.
  - cbn [st_stats st_files st_dirs st_trace].
    rewrite print_summary_lines.
    eexists. split; [|split; [reflexivity|]]; [reflexivity|].
    cbn [traced st_stats st_files st_dirs st_trace].
    rewrite <- !app_assoc. reflexivity.
Qed.

(** A whole run, from any state: the banner, then (when the output
    directory can be made) the fetch sequence with at most one line of a
    handler, then the [finally] block, which writes the metadata file and
    prints the summary when the file can be written, and otherwise raises
    what the write raised. *)
Lemma fetch_all_shape (s : state) :
  match mkdir_raises E [] with
  | Some e =>
      fetch_all E username token output_directory fuel s =
      Some (Raise e, traced s [Print Stdout MStart])
  | None =>
      exists r s1 tr_seq handler s',
        st_trace s1 =
          st_trace s ++ [Print Stdout MStart] ++ tr_seq ++ handler /\
        forallb (routine any_header (token_given token)) tr_seq = true /\
        (handler = [] \/ handler = [Print Stdout MInterrupted] \/
         exists e, handler = [Print Stderr (MError e)]) /\
        (r = Ret tt \/ exists c, r = Raise (SystemExit c)) /\
        st_stats s' = st_stats s1 /\
        match open_raises E metadata_path with
        | Some e =>
            fetch_all E username token output_directory fuel s =
              Some (Raise e, s') /\
            st_trace s' = st_trace s1 ++ [Print Stdout MSavingMetadata]
        | None =>
            fetch_all E username token output_directory fuel s = Some (r, s') /\
            st_trace s' =
              st_trace s1 ++
              [Print Stdout MSavingMetadata;
               Write metadata_path
                 (metadata_json E username output_directory (st_stats s1));
               Print Stdout (MSaved metadata_path)] ++
              summary_lines (st_stats s1)
        end
  end.
Proof.
  destruct (mkdir_raises E []) as [e|] eqn:Hmk.
  - unfold fetch_all, bind at 1, print at 1, log.
    unfold bind at 1, mkdir. cbn [st_stats st_files st_dirs st_trace].
    now rewrite Hmk.
  - assert (Hstart : forall k : M unit,
              (print Stdout MStart ;; mkdir E [] ;; k) s =
              k {| st_stats := st_stats s; st_files := st_files s;
                   st_dirs := [] :: st_dirs s;
                   st_trace := st_trace s ++ [Print Stdout MStart] |}).
    { intros k. unfold bind at 1, print at 1, log.
      unfold bind at 1, mkdir. cbn [st_stats st_files st_dirs st_trace].
      now rewrite Hmk. }
    unfold fetch_all. rewrite Hstart. unfold try_finally.
    match goal with
    | |- context [try_except _ _ _ ?s0] =>
        destruct (try_part_shape s0)
          as (r & s1 & tr_seq & handler & -> & Ht & Hp & Hh & Hr)
    end.
    cbn [st_trace] in Ht.
    destruct (finally_block_shape s1 Hmk) as (s' & Hst & Hfin).
    exists r, s1, tr_seq, handler, s'.
    split; [now rewrite Ht, <- !app_assoc|]. split; [exact Hp|].
    split; [exact Hh|]. split; [exact Hr|]. split; [exact Hst|].
    destruct (open_raises E metadata_path) as [e|];
      destruct Hfin as [-> Htr]; auto.
Qed.

End Shape.

(** *** The metadata file and the summary *)

Lemma summary_lines_no_write (t : stats) :
  filter writes_metadata (summary_lines t) = [].
Proof.
  unfold summary_lines. rewrite !filter_app. cbn [filter writes_metadata].
  assert (H1 : forall (d : dict json),
             filter writes_metadata
               (map (fun kv => Print Stdout (MSummaryItem (fst kv) (snd kv))) d) = []).
  { induction d as [|kv d IH]; cbn; auto. }
  assert (H2 : forall (l : list error_msg),
             filter writes_metadata
               (map (fun e => Print Stdout (MSummaryError e)) l) = []).
  { induction l as [|e l IH]; cbn; auto. }
  rewrite H1. destruct (errors t); cbn [filter writes_metadata app];
    [reflexivity|]. now rewrite H2.
Qed.

Lemma routine_no_metadata_write (h : string -> bool) (b : bool) (tr : list event) :
  forallb (routine h b) tr = true -> filter writes_metadata tr = [].
Proof.
  induction tr as [|ev tr IH]; cbn [forallb filter]; [reflexivity|].
  intros H. apply andb_true_iff in H. destruct H as [Hev Htr].
  rewrite (IH Htr).
  destruct ev as [o m|ep ps|q|p c]; cbn in *; try reflexivity.
  now destruct (path_eqb p metadata_path).
Qed.

Lemma handler_no_metadata_write (handler : list event) :
  (handler = [] \/ handler = [Print Stdout MInterrupted] \/
   exists e, handler = [Print Stderr (MError e)]) ->
  filter writes_metadata handler = [].
Proof. intros [->|[->|(e & ->)]]; reflexivity. Qed.



Lemma metadata_locked_one_page : answers_one_page Examples.metadata_locked.
Proof. exact repos_down_one_page. Qed.


(** *** The contribution calendar and the token *)

(** [m] ends from every state, and what it adds to the trace begins with
    the events [evs]. *)
Definition begins {A : Type} (evs : list event) (m : M A) : Prop :=
  forall s, exists r s' tr,
    m s = Some (r, s') /\ st_trace s' = st_trace s ++ evs ++ tr.

Lemma begins_bind {A B : Type} (P : event -> bool) (evs : list event)
    (m : M A) (k : A -> M B) :
  begins evs m -> (forall a, runs P (k a)) -> begins evs (bind m k).
Proof.
  intros Hm Hk s. unfold bind.
  destruct (Hm s) as (r & s1 & tr1 & -> & Ht1).
  destruct r as [a|e]; [|eauto].
  destruct (Hk a s1) as (r2 & s2 & tr2 & -> & Ht2 & _).
  exists r2, s2, (tr1 ++ tr2). split; [reflexivity|].
  now rewrite Ht2, Ht1, <- !app_assoc.
Qed.

Lemma begins_guarded (what : string) (v : json) (body : M unit)
    (evs : list event) :
  begins evs body ->
  begins (Print Stdout (MHeader what) :: evs) (guarded what v body).
Proof.
  intros Hb s. unfold guarded, bind, print, log, try_except.
  match goal with |- context [body ?s0] => destruct (Hb s0) as (r & s1 & tr & -> & Ht) end.
  cbn [st_trace] in Ht.
  destruct r as [[]|e].
  - exists (Ret tt), s1, tr. split; [reflexivity|].
    rewrite Ht, <- !app_assoc. reflexivity.
  - destruct (is_Exception e).
    + unfold set_fetched, modify_stats. cbn [st_stats st_files st_dirs st_trace].
      eexists; eexists; exists (tr ++ [Print Stderr (MFailed what (Some e))]).
      split; [reflexivity|]. cbn [st_trace]. rewrite Ht, <- !app_assoc.
      reflexivity.
    + exists (Raise e), s1, tr. split; [reflexivity|].
      rewrite Ht, <- !app_assoc. reflexivity.
Qed.

(** A GraphQL request is sent before anything else can go wrong with it. *)
Lemma begins_make_graphql_request (E : env) (query : string) :
  begins [Post query] (_make_graphql_request E query).
Proof.
  intros s.
  unfold _make_graphql_request, bind, count_request, modify_stats, try_except,
    log, lift, append_error, modify_stats, print, log, raise.
  cbn [st_stats st_files st_dirs st_trace].
  destruct (session_post E query) as [resp|e].
  - destruct (raise_for_status resp) as [[]|e].
    + destruct (response_json resp) as [j|e].
      * eexists; eexists; exists []. split; [reflexivity|]. reflexivity.
      * destruct (is_RequestException e);
          cbn [st_stats st_files st_dirs st_trace];
          eexists; eexists; eexists; (split; [reflexivity|]);
          cbn [st_trace]; rewrite <- ?app_assoc; reflexivity.
    + destruct (is_RequestException e);
        cbn [st_stats st_files st_dirs st_trace];
        eexists; eexists; eexists; (split; [reflexivity|]);
        cbn [st_trace]; rewrite <- ?app_assoc; reflexivity.
  - destruct (is_RequestException e);
      cbn [st_stats st_files st_dirs st_trace];
      eexists; eexists; eexists; (split; [reflexivity|]);
      cbn [st_trace]; rewrite <- ?app_assoc; reflexivity.
Qed.

(** [fetch_contribution_calendar] prints its first line and sends the
    GraphQL request. *)
Lemma begins_fetch_contribution_calendar (E : env) (username : string) :
  begins [Print Stdout (MHeader "contribution_calendar");
          Post (calendar_query username)]
    (fetch_contribution_calendar E username).
Proof.
  unfold fetch_contribution_calendar. apply begins_guarded.
  apply (begins_bind (routine any_header true));
    [apply begins_make_graphql_request|intros ?].
  repeat first [ apply runs_save_json; reflexivity | run_step ].
Qed.

Lemma attempts_runs (R : event -> bool) (ws : list string) (m : M unit) :
  attempts R ws m -> runs R m.
Proof.
  intros H s. destruct (H s) as (r & s' & tr & Heq & Ht & Hp & _). eauto 10.
Qed.

Lemma no_post_in (h : string -> bool) (tr : list event) :
  forallb (routine h false) tr = true -> forall q, ~ In (Post q) tr.
Proof.
  intros Hp q Hin. rewrite forallb_forall in Hp. apply Hp in Hin. discriminate.
Qed.

Lemma summary_lines_no_post (t : stats) (q : string) :
  ~ In (Post q) (summary_lines t).
Proof.
  unfold summary_lines. rewrite !in_app_iff. cbn [In].
  intros [[H|[]]|[H|[H|[H|[]]]]]; try discriminate.
  - apply in_map_iff in H. destruct H as (x & Hx & _). discriminate.
  - destruct (errors t); cbn [In] in H; [destruct H|].
    destruct H as [H|H]; [discriminate|].
    apply in_map_iff in H. destruct H as (x & Hx & _). discriminate.
Qed.

(** C8, as the code has it: a run without a token makes no GraphQL request
    at all; a run that reaches the contribution step (everything before it
    returned) prints the line about the skipped calendar when there is no
    token, and starts the calendar fetch and sends its GraphQL request
    when there is one; a run in which a method before the step raises
    ends the sequence there, the step not taken. *)
Theorem contribution_calendar_gated (E : env) (username : string)
    (token : option string) (output_directory : string) (fuel : nat) :
  pagination_stops E fuel ->
  (token_given token = false ->
   forall s, exists r s' tr,
     fetch_all E username token output_directory fuel s = Some (r, s') /\
     st_trace s' = st_trace s ++ tr /\
     forall q, ~ In (Post q) tr) /\
  (forall s s1,
     before_contributions E username fuel s = Some (Ret tt, s1) ->
     exists r s' tr,
       fetch_sequence E username token fuel s = Some (r, s') /\
       st_trace s' = st_trace s1 ++ tr /\
       (token_given token = false ->
        exists tr', tr = Print Stdout MSkipCalendar :: tr') /\
       (token_given token = true ->
        exists tr', tr = Print Stdout (MHeader "contribution_calendar") ::
                         Post (calendar_query username) :: tr')) /\
  (forall s e s1,
     before_contributions E username fuel s = Some (Raise e, s1) ->
     fetch_sequence E username token fuel s = Some (Raise e, s1)).
Proof.
  intros stops. split; [|split].
  - intros Htok s.
    pose proof (fetch_all_shape E username token output_directory fuel stops s) as H.
    rewrite Htok in H.
    destruct (mkdir_raises E []) as [e|].
    + eexists; eexists; exists [Print Stdout MStart].
      split; [exact H|]. split; [reflexivity|].
      intros q [Hq|[]]. discriminate.
    + destruct H as (r & s1 & tr_seq & handler & s' & Ht1 & Hp & Hh & _ & _ & H).
      assert (Hpre : forall q, ~ In (Post q) ([Print Stdout MStart] ++ tr_seq ++ handler)).
      { intros q Hin. rewrite !in_app_iff in Hin.
        destruct Hin as [[Hin|[]]|[Hin|Hin]]; [discriminate| |].
        - now apply (no_post_in _ _ Hp q).
        - destruct Hh as [->|[->|(e & ->)]]; cbn in Hin; intuition discriminate. }
      destruct (open_raises E metadata_path) as [e|]; destruct H as [Heq Ht'].
      * exists (Raise e), s',
          (([Print Stdout MStart] ++ tr_seq ++ handler) ++
           [Print Stdout MSavingMetadata]).
        split; [exact Heq|].
        split; [rewrite Ht', Ht1, <- !app_assoc; reflexivity|].
        intros q Hin. apply in_app_or in Hin.
        destruct Hin as [Hin|Hin]; [now apply (Hpre q)|].
        cbn in Hin. intuition discriminate.
      * exists r, s',
          (([Print Stdout MStart] ++ tr_seq ++ handler) ++
           [Print Stdout MSavingMetadata;
            Write metadata_path
              (metadata_json E username output_directory (st_stats s1));
            Print Stdout (MSaved metadata_path)] ++
           summary_lines (st_stats s1)).
        split; [exact Heq|].
        split; [rewrite Ht', Ht1, <- !app_assoc; reflexivity|].
        intros q Hin. apply in_app_or in Hin.
        destruct Hin as [Hin|Hin]; [now apply (Hpre q)|].
        cbn [app In] in Hin.
        destruct Hin as [Hin|[Hin|[Hin|Hin]]]; try discriminate.
        now apply summary_lines_no_post in Hin.
  - intros s s1 Hbefore. rewrite fetch_sequence_contribution_step.
    unfold bind at 1. rewrite Hbefore.
    pose proof (attempts_runs _ _ _ (attempts_after_contributions E username))
      as Hafter.
    unfold contribution_step. destruct (token_given token).
    + destruct (begins_bind _ _ _ (fun _ => after_contributions E username)
                  (begins_fetch_contribution_calendar E username)
                  (fun _ => Hafter) s1) as (r & s' & tr & Heq & Ht).
      exists r, s', ([Print Stdout (MHeader "contribution_calendar");
                      Post (calendar_query username)] ++ tr).
      split; [exact Heq|]. split; [exact Ht|].
      split; [discriminate|]. intros _. eexists. reflexivity.
    + unfold bind, print at 1, log.
      match goal with |- context [after_contributions E username ?s0] =>
        destruct (Hafter s0) as (r & s' & tr & Heq & Ht & _) end.
      exists r, s', (Print Stdout MSkipCalendar :: tr).
      split; [exact Heq|]. cbn [st_trace] in Ht.
      split; [rewrite Ht, <- app_assoc; reflexivity|].
      split; [intros _; eexists; reflexivity|discriminate].
  - intros s e s1 Hbefore. rewrite fetch_sequence_contribution_step.
    unfold bind at 1. now rewrite Hbefore.
Qed.

(** The run for octocat, without a token, while the repositories endpoint
    is down. *)
Lemma contribution_calendar_gated_witness :
  (token_given None = false ->
   forall s, exists r s' tr,
     fetch_all Examples.repos_down "octocat" None "out/octocat" 1 s
       = Some (r, s') /\
     st_trace s' = st_trace s ++ tr /\
     forall q, ~ In (Post q) tr) /\
  (forall s s1,
     before_contributions Examples.repos_down "octocat" 1 s = Some (Ret tt, s1) ->
     exists r s' tr,
       fetch_sequence Examples.repos_down "octocat" None 1 s = Some (r, s') /\
       st_trace s' = st_trace s1 ++ tr /\
       (token_given None = false ->
        exists tr', tr = Print Stdout MSkipCalendar :: tr') /\
       (token_given None = true ->
        exists tr', tr = Print Stdout (MHeader "contribution_calendar") ::
                         Post (calendar_query "octocat") :: tr')) /\
  (forall s e s1,
     before_contributions Examples.repos_down "octocat" 1 s = Some (Raise e, s1) ->
     fetch_sequence Examples.repos_down "octocat" None 1 s = Some (Raise e, s1)).
Proof.
  apply (contribution_calendar_gated Examples.repos_down "octocat" None
           "out/octocat" 1).
  exact (one_page_stops _ repos_down_one_page).
Defined.

Lemma offline_one_page : answers_one_page Examples.offline.
Proof. intros endpoint params. exact I. Qed.

(** Counterexample to C8 as stated: without a network the profile request
    fails, the sequence ends there, and the line about the skipped
    calendar is never printed although the run had no token. *)
Lemma skip_not_always_logged : ~ skip_always_logged.
Proof.
  intros H.
  destruct (fetch_all Examples.offline "octocat" None "out/octocat" 1
              (initial_state [] [])) as [[r s']|] eqn:Heq;
    [|vm_compute in Heq; discriminate].
  pose proof (H Examples.offline "octocat" None "out/octocat" 1 r s' eq_refl Heq)
    as Hin.
  vm_compute in Heq. inversion Heq; subst. cbn in Hin.
  intuition discriminate.
Qed.

End OrchestrationProofs.

(** ** Exit statuses *)

Module ExitCodeProofs.
Import Py Base64.

(** *** Pure code raises plain exceptions *)

Lemma plain_ret {A : Type} (a : A) : plain (Ret a).
Proof. intros e H. discriminate. Qed.

Lemma plain_raise {A : Type} (e : exn) : is_Exception e = true -> plain (@Raise A e).
Proof. intros He e' H. inversion H; subst. exact He. Qed.

Lemma plain_rbind {A B : Type} (r : result A) (k : A -> result B) :
  plain r -> (forall a, plain (k a)) -> plain (rbind r k).
Proof.
  intros Hr Hk. destruct r as [a|e]; cbn; [apply Hk|].
  intros e' H. inversion H; subst. now apply Hr.
Qed.

Lemma plain_getitem (x : json) (k : string) : plain (getitem x k).
Proof.
  unfold getitem. destruct x; try (now apply plain_raise).
  destruct (dict_get k kv); [apply plain_ret|now apply plain_raise].
Qed.

Lemma plain_get_default (x : json) (k : string) (d : json) :
  plain (get_default x k d).
Proof.
  unfold get_default. destruct x; try (now apply plain_raise).
  destruct (dict_get k kv); apply plain_ret.
Qed.

Lemma plain_len (x : json) : plain (len x).
Proof. destruct x; try (now apply plain_raise); apply plain_ret. Qed.

Lemma plain_has_key (k : string) (x : json) : plain (has_key k x).
Proof. destruct x; try (now apply plain_raise); apply plain_ret. Qed.

Ltac plain_step :=
  lazymatch goal with
  | |- plain (rbind _ _) => apply plain_rbind; [|intros ?]
  | |- plain (Ret _) => apply plain_ret
  | |- plain (Raise _) => apply plain_raise; reflexivity
  | |- plain (getitem _ _) => apply plain_getitem
  | |- plain (get _ _) => apply plain_get_default
  | |- plain (get_default _ _ _) => apply plain_get_default
  | |- plain (len _) => apply plain_len
  | |- plain (has_key _ _) => apply plain_has_key
  | |- plain (if ?c then _ else _) => destruct c
  | |- plain (match ?x with _ => _ end) => destruct x
  end.

Lemma exit_code_exception {A : Type} (e : exn) :
  is_Exception e = true -> exit_code (@Raise A e) = 1%Z.
Proof. destruct e; try discriminate; reflexivity. Qed.

Lemma Forall2_in_right {A B : Type} (R : A -> B -> Prop) (l : list A)
    (m : list B) (y : B) :
  Forall2 R l m -> In y m -> exists x, In x l /\ R x y.
Proof.
  induction 1 as [|x z l m Hxz _ IH]; intros Hin; [destruct Hin|].
  destruct Hin as [->|Hin]; [exists x; cbn; auto|].
  destruct (IH Hin) as (x' & Hx' & Hr). exists x'. cbn. auto.
Qed.

(** *** The playlist downloader *)

Section DownloaderExit.
Import Downloader.

Variable E : env.
Variable a : args.

(** The downloader exits with 0 exactly when the range is valid, the
    output directory could be made and yt-dlp ended with status 0, and with
    1 otherwise. *)
Lemma downloader_exit :
  (forall e, mkdir_raises E (output a) = Some e -> is_Exception e = true) ->
  (forall e, subprocess_run E (command_of a) = Raise e -> is_Exception e = true) ->
  (script_exit_code E a = 0 \/ script_exit_code E a = 1)%Z /\
  (script_exit_code E a = 0%Z <->
   (1 <= start a)%Z /\ (start a <= end_ a)%Z /\
   mkdir_raises E (output a) = None /\
   exists u, subprocess_run E (command_of a) = Ret u).
Proof.
  intros Hmk Hrun. unfold script_exit_code, script, main, download_playlist.
  unfold command_of in *.
  destruct (Z.ltb_spec (start a) 1); [cbn; split; [auto|split; [discriminate|lia]]|].
  destruct (Z.ltb_spec (end_ a) (start a));
    [cbn; split; [auto|split; [discriminate|lia]]|].
  destruct (mkdir_raises E (output a)) as [e|] eqn:Hm.
  - specialize (Hmk e eq_refl). destruct e; try discriminate; cbn;
      (split; [auto|split; [discriminate|intros (_ & _ & ? & _); discriminate]]).
  - destruct (subprocess_run E _) as [u|e] eqn:Hr.
    + cbn. split; [auto|]. split; [eauto 10|reflexivity].
    + specialize (Hrun e eq_refl). destruct e; try discriminate; cbn;
        (split; [auto|split; [discriminate|intros (_ & _ & _ & ? & ?); discriminate]]).
Qed.

End DownloaderExit.

(** *** The Imgur uploader *)

Section UploaderExit.
Import Uploader.

Variable E : env.

Lemma plain_imgur_fields (data : json) : plain (imgur_fields data).
Proof. unfold imgur_fields. repeat plain_step. Qed.

Lemma get_of_object (kv : list (string * json)) (k : string) :
  exists v, get (JObj kv) k = Ret v.
Proof. unfold get, get_default. destruct (dict_get k kv); eauto. Qed.

(** The Imgur data, once built, hold the two links. *)
Lemma imgur_fields_links (data d : json) :
  imgur_fields data = Ret d ->
  exists l dl, getitem d "link" = Ret l /\ getitem d "delete_link" = Ret dl.
Proof.
  intros H. unfold imgur_fields in H.
  destruct data; try (cbn in H; discriminate).
  repeat match type of H with
         | context [get (JObj ?kv) ?k] =>
             let Hg := fresh in
             destruct (get_of_object kv k) as [? Hg]; rewrite Hg in H;
             cbn [rbind] in H; clear Hg
         end.
  inversion H; subst. cbn. eauto.
Qed.

(** What the [try] block makes of a result that reported neither success
    nor an error: an error, or success together with the Imgur data. *)
Lemma upload_attempt_outcome (p : string) (cid tok t d : option string)
    (r0 r1 : upload_result) :
  upload_attempt E p cid tok t d r0 = (r1, None) ->
  (exists e, error r1 = Some e) \/
  (exists data f, imgur_fields data = Ret f /\
                  r1 = set_imgur_data (set_success r0) f) \/
  r1 = r0.
Proof.
  unfold upload_attempt. intros H.
  repeat match type of H with
         | context [match ?x with _ => _ end] => destruct x eqn:?
         end;
    inversion H; subst; cbn; eauto 10.
Qed.

(** A result that reports success without an error carries the Imgur
    data with its links. *)
Lemma success_has_links (p : string) (cid tok t d : option string)
    (r : upload_result) :
  upload_image_to_imgur E p cid tok t d = Ret r ->
  success r = true -> error r = None -> show_links r = Ret tt.
Proof.
  unfold upload_image_to_imgur. intros H Hs He.
  destruct (negb (path_exists E p)); [inversion H; subst; discriminate|].
  destruct (negb (existsb _ valid_extensions)); [inversion H; subst; discriminate|].
  destruct (upload_attempt E p cid tok t d _) as [r1 [e|]] eqn:Hatt.
  - destruct (is_Timeout e); [inversion H; subst; discriminate|].
    destruct (is_RequestException e); [inversion H; subst; discriminate|].
    destruct (is_Exception e); [inversion H; subst; discriminate|discriminate].
  - inversion H; subst r1. clear H.
    apply upload_attempt_outcome in Hatt.
    destruct Hatt as [(e & Herr)|[(data & f & Hf & ->) | -> ]].
    + congruence.
    + apply imgur_fields_links in Hf. destruct Hf as (l & dl & Hl & Hdl).
      unfold show_links. cbn [imgur_data set_imgur_data]. now rewrite Hl, Hdl.
    + discriminate.
Qed.

(** The loop appends the results of the paths and counts in [failed] those
    that report no success. *)
Lemma upload_each_failed (cid tok : option string) (paths : list string) :
  forall acc r,
    upload_each E paths cid tok acc = Ret r ->
    exists new,
      uploads r = uploads acc ++ new /\
      failed r =
        (failed acc
         + Z.of_nat (List.length (filter (fun u => negb (success u)) new)))%Z /\
      Forall2 (fun p u => upload_image_to_imgur E p cid tok None None = Ret u)
              paths new.
Proof.
  induction paths as [|p paths IH]; intros acc r H; cbn in H.
  - inversion H; subst. exists []. rewrite app_nil_r. cbn.
    repeat split; [lia|constructor].
  - destruct (upload_image_to_imgur E p cid tok None None) as [u|e] eqn:Hu;
      cbn in H; [|discriminate].
    apply IH in H. destruct H as (new & Hup & Hf & Hall).
    exists (u :: new).
    destruct (success u) eqn:Hs; cbn in *; rewrite Hs; cbn.
    + split; [now rewrite Hup, <- app_assoc|]. split; [lia|now constructor].
    + split; [now rewrite Hup, <- app_assoc|]. split; [lia|now constructor].
Qed.

Lemma no_failures (l : list upload_result) :
  List.length (filter (fun u => negb (success u)) l) = 0 <->
  Forall (fun u => success u = true) l.
Proof.
  induction l as [|u l IH]; cbn; [split; auto|].
  destruct (success u) eqn:Hs; cbn.
  - rewrite IH. split; [now constructor|now inversion 1].
  - split; [discriminate|]. inversion 1; congruence.
Qed.

(** The uploader exits with 0 or 1; with 0 only when credentials were found
    and every upload reports success, and with 0 whenever they were found,
    every upload went through without an error and the JSON output, if one
    was asked for, could be written. *)
Lemma uploader_exit (a : args) :
  no_interrupt E ->
  (forall o e, write_raises E o = Some e -> is_Exception e = true) ->
  (main_exit_code E a = 0 \/ main_exit_code E a = 1)%Z /\
  (main_exit_code E a = 0%Z ->
   exists cid tok results,
     authentication E a = Ret (cid, tok) /\
     upload_multiple_images E (images a) cid tok = Ret results /\
     Forall (fun u => success u = true) (uploads results)) /\
  (forall cid tok results,
     authentication E a = Ret (cid, tok) ->
     upload_multiple_images E (images a) cid tok = Ret results ->
     Forall (fun u => success u = true /\ error u = None) (uploads results) ->
     output_written E a ->
     main_exit_code E a = 0%Z).
Proof.
  intros HE Hw. unfold main_exit_code, main.
  destruct (authentication E a) as [[cid tok]|e] eqn:Hauth.
  2:{ assert (e = SystemExit 1).
      { unfold authentication, get_authentication in Hauth.
        repeat match type of Hauth with
               | context [if ?c then _ else _] => destruct c
               end; inversion Hauth; reflexivity. }
      subst e. cbn. split; [auto|]. split; [discriminate|discriminate]. }
  cbn [rbind].
  destruct (UploaderProofs.upload_each_returns E cid tok (images a) HE
              {| total := Z.of_nat (List.length (images a));
                 successful := 0; failed := 0; uploads := [] |})
    as [results Hres].
  change (upload_multiple_images E (images a) cid tok = Ret results) in Hres.
  rewrite Hres. cbn [rbind].
  pose proof Hres as Hres'. unfold upload_multiple_images in Hres'.
  apply upload_each_failed in Hres'. cbn in Hres'.
  destruct Hres' as (new & Hup & Hfail & Hall).
  assert (Hok : failed results = 0%Z <-> Forall (fun u => success u = true) (uploads results)).
  { rewrite Hup, <- no_failures, Hfail. lia. }
  set (written := match arg_output a with
                  | Some o => if is_empty o then Ret tt
                              else match write_raises E o with
                                   | Some e => Raise e
                                   | None => Ret tt
                                   end
                  | None => Ret tt
                  end).
  assert (Hwritten : written = Ret tt \/ exists e, written = Raise e /\ is_Exception e = true).
  { unfold written. destruct (arg_output a) as [o|]; [|now left].
    destruct (is_empty o); [now left|].
    destruct (write_raises E o) as [e|] eqn:Hwo; [right|now left].
    exists e. split; [reflexivity|]. eapply Hw; eauto. }
  destruct Hwritten as [Hwr|(e & Hwr & He)]; rewrite Hwr; cbn [rbind].
  - set (shown := rmap show_links (filter success (uploads results))).
    assert (Hshown : plain shown).
    { unfold shown. generalize (filter success (uploads results)).
      induction l as [|x l IHl]; cbn [rmap]; [apply plain_ret|].
      apply plain_rbind.
      - unfold show_links. repeat plain_step.
      - intros ?. apply plain_rbind; [exact IHl|intros ?; apply plain_ret]. }
    destruct shown as [l|e] eqn:Hsh; cbn [rbind].
    + destruct (Z.eqb_spec (failed results) 0) as [Hz|Hnz]; cbn.
      * split; [auto|]. split; [intros _; exists cid, tok, results; tauto|auto].
      * split; [auto|]. split; [discriminate|].
        intros cid' tok' results' Ha Hr Hall' _. injection Ha as <- <-.
        rewrite Hres in Hr. injection Hr as <-.
        exfalso. apply Hnz, Hok.
        eapply Forall_impl; [|exact Hall']. tauto.
    + rewrite (exit_code_exception e (Hshown e eq_refl)).
      split; [auto|]. split; [discriminate|].
      intros cid' tok' results' Ha Hr Hall' _. injection Ha as <- <-.
      rewrite Hres in Hr. injection Hr as <-. exfalso.
      assert (Hlinks : forall l,
                Forall (fun u => show_links u = Ret tt) l ->
                exists l', rmap show_links l = Ret l').
      { induction l as [|x l IHl]; intros Hl; cbn [rmap]; [eauto|].
        inversion Hl; subst. rewrite H1. cbn [rbind].
        destruct (IHl H2) as [l' ->]. cbn. eauto. }
      destruct (Hlinks (filter success (uploads results))) as [l' Hl'].
      { apply Forall_forall. intros u Hu. apply filter_In in Hu.
        destruct Hu as [Hu _].
        rewrite Forall_forall in Hall'. destruct (Hall' u Hu) as [Hs1 He1].
        rewrite Hup in Hu. cbn in Hu.
        destruct (Forall2_in_right _ _ _ _ Hall Hu) as (p & _ & Hp).
        eapply success_has_links; eauto. }
      unfold shown in Hsh. rewrite Hl' in Hsh. discriminate.
  - rewrite (exit_code_exception e He).
    split; [auto|]. split; [discriminate|].
    intros cid' tok' results' Ha Hr _ Hout. exfalso.
    unfold output_written in Hout. unfold written in Hwr.
    destruct (arg_output a) as [o|]; [|discriminate].
    destruct (is_empty o); [discriminate|].
    destruct Hout as [Hout|Hout]; [discriminate|].
    rewrite Hout in Hwr. discriminate.
Qed.

End UploaderExit.

(** *** The image generator *)

Section GeneratorExit.
Import Generator.

Variable E : env.
Hypothesis quiet_world : no_interrupt E.

Lemma plain_first (x : json) : plain (first x).
Proof. unfold first. repeat plain_step. Qed.

Lemma plain_has_some (x : json) (k : string) : plain (has_some x k).
Proof. unfold has_some. repeat plain_step. Qed.

Lemma plain_print_usage (c : bool) (x : json) : plain (print_usage c x).
Proof. unfold print_usage. repeat plain_step. Qed.

Lemma plain_extract_image (x : json) : plain (extract_image x).
Proof.
  unfold extract_image.
  repeat first [ apply plain_first | apply plain_has_some
               | apply plain_print_usage | plain_step ].
Qed.

Lemma plain_after_comma (s : string) : plain (after_comma s).
Proof.
  induction s as [|c s IH]; cbn; [now apply plain_raise|].
  destruct (Ascii.eqb c ","%char); [apply plain_ret|exact IH].
Qed.

Lemma plain_a2b_loop (s : string) :
  forall q lc pads out, plain (a2b_loop s q lc pads out).
Proof.
  induction s as [|c s IH]; intros q lc pads out; cbn [a2b_loop].
  - destruct q; [apply plain_ret|now apply plain_raise].
  - repeat first [ apply IH | plain_step ].
Qed.

Lemma plain_b64decode (s : string) : plain (b64decode s).
Proof.
  unfold b64decode. destruct (is_ascii_text s);
    [apply plain_a2b_loop|now apply plain_raise].
Qed.

(** A result that is a value or [sys.exit(1)]. *)
Definition value_or_exit_1 {A : Type} (r : result A) : Prop :=
  (exists a, r = Ret a) \/ r = Raise (SystemExit 1).

Lemma encode_value_or_exit (p : string) :
  value_or_exit_1 (encode_image_to_base64 E p).
Proof.
  unfold encode_image_to_base64.
  destruct (negb (path_exists E p)); [now right|].
  destruct (read_bytes E p) as [data|e] eqn:Hr; [left; eauto|].
  destruct quiet_world as (Hread & _).
  rewrite (Hread p e Hr). now right.
Qed.

Lemma generate_value_or_exit (api_key model prompt : string)
    (reference : option string) (ratio : string) (timeout : Z) :
  value_or_exit_1 (generate_image E api_key model prompt reference ratio timeout).
Proof.
  unfold generate_image.
  set (content := if given reference then _ else _).
  assert (Hc : value_or_exit_1 content).
  { unfold content. destruct (given reference); [|left; eauto].
    destruct (encode_value_or_exit match reference with
                                   | Some p => p | None => EmptyString end)
      as [[u ->]| ->]; [left; cbn; eauto|now right]. }
  destruct Hc as [[c ->]| ->]; [|now right]. cbn [rbind].
  match goal with
  | |- value_or_exit_1 (match ?att with _ => _ end) =>
      assert (Hatt : forall e, att = Raise e ->
                       is_Exception e = true \/ e = SystemExit 1);
      [|destruct att as [j|e]; [left; eauto|];
        destruct (Hatt e eq_refl) as [He| ->]; [rewrite He|]; now right]
  end.
  intros e He.
  destruct quiet_world as (_ & Hpost & _).
  destruct (post E _) as [resp|e0] eqn:Hp; cbn [rbind] in He.
  2:{ inversion He; subst. left. eapply Hpost; eauto. }
  destruct (negb (status_code resp =? 200)%Z); [inversion He; now right|].
  destruct (body resp) as [j|]; cbn [rbind] in He; [|inversion He; now left].
  pose proof (plain_extract_image j) as Hpl.
  destruct (extract_image j) as [[img|]|e1]; cbn [rbind] in He.
  - discriminate.
  - inversion He. now right.
  - inversion He; subst. left. now apply Hpl.
Qed.

(** What saving makes of the image: the file written, or a failure that
    leaves the files as they were. *)
Lemma save_outcome (image : json) (output_path : string) (fs : files) :
  (exists data, save_base64_image E image output_path fs =
                  (Ret tt, (output_path, data) :: fs)) \/
  (exists e, save_base64_image E image output_path fs = (Raise e, fs) /\
             exit_code (@Raise unit e) = 1%Z).
Proof.
  destruct quiet_world as (_ & _ & Hmk & Hwr).
  unfold save_base64_image.
  destruct image; try (right; eexists; split; reflexivity).
  set (payload := if startswith "data:image" s then after_comma s else Ret s).
  assert (Hpl : plain payload).
  { unfold payload. destruct (startswith _ s);
      [apply plain_after_comma|apply plain_ret]. }
  destruct payload as [text|e].
  2:{ right. exists e. split; [reflexivity|].
      apply exit_code_exception. now apply Hpl. }
  pose proof (plain_b64decode text) as Hdec.
  destruct (b64decode text) as [data|e].
  2:{ right. rewrite (Hdec e eq_refl). eexists. split; reflexivity. }
  destruct (if negb (dir_exists E (dirname output_path))
            then mkdir_raises E (dirname output_path) else None) as [e|] eqn:Hd.
  { right. assert (is_Exception e = true) as ->.
    { destruct (negb _); [eapply Hmk; eauto|discriminate]. }
    eexists. split; reflexivity. }
  destruct (write_raises E output_path) as [e|] eqn:Hw.
  { right. rewrite (Hwr _ _ Hw). eexists. split; reflexivity. }
  left. eauto.
Qed.

(** The generator exits with 0 or 1: with 0 exactly when it has written the
    image, with 1 having written nothing; a missing API key, a missing
    reference image and a failed request all end with 1. *)
Lemma generator_exit (a : args) (fs : files) :
  (main_exit_code E a fs = 0 \/ main_exit_code E a fs = 1)%Z /\
  (main_exit_code E a fs = 0%Z ->
   exists data, snd (main E a fs) = (arg_output a, data) :: fs) /\
  (main_exit_code E a fs = 1%Z -> snd (main E a fs) = fs) /\
  (given (environ E "OPENROUTER_API_KEY") = false ->
   main_exit_code E a fs = 1%Z) /\
  (forall p, arg_reference a = Some p -> is_empty p = false ->
             path_exists E p = false -> main_exit_code E a fs = 1%Z) /\
  ((forall q, exists e, post E q = Raise e) -> main_exit_code E a fs = 1%Z).
Proof.
  unfold main_exit_code, main.
  unfold get_api_key.
  destruct (environ E "OPENROUTER_API_KEY") as [key|] eqn:Hkey;
    [destruct (is_empty key) eqn:Hempty|];
    try (cbn; repeat split; auto; try discriminate; intros; reflexivity).
  set (model := if given (arg_model a) then _ else _).
  set (ratio := if given (arg_aspect_ratio a) then _ else _).
  set (timeout := match arg_timeout a with Some _ => _ | None => _ end).
  pose proof (generate_value_or_exit key model (arg_prompt a) (arg_reference a)
                ratio timeout) as Hgen.
  assert (Hno_ref : forall p, arg_reference a = Some p -> is_empty p = false ->
            path_exists E p = false ->
            generate_image E key model (arg_prompt a) (arg_reference a) ratio timeout
              = Raise (SystemExit 1)).
  { intros p Hp Hne Hex. unfold generate_image, encode_image_to_base64.
    rewrite Hp. cbn [given]. rewrite Hne, Hex. reflexivity. }
  assert (Hno_net : (forall q, exists e, post E q = Raise e) ->
            generate_image E key model (arg_prompt a) (arg_reference a) ratio timeout
              = Raise (SystemExit 1)).
  { intros Hdown. destruct Hgen as [[j Hj]|Hx]; [|exact Hx]. exfalso.
    unfold generate_image in Hj.
    destruct (if given (arg_reference a) then _ else _) as [c|e];
      cbn [rbind] in Hj; [|discriminate].
    match type of Hj with
    | context [post E ?q] => destruct (Hdown q) as [e He]; rewrite He in Hj
    end.
    cbn [rbind] in Hj. destruct (is_Exception e); discriminate. }
  destruct Hgen as [[image Hgen]|Hgen]; rewrite Hgen in *.
  - destruct (save_outcome image (arg_output a) fs) as [[data Hs]|(e & Hs & He)];
      rewrite Hs; cbn [fst snd].
    + cbn. split; [auto|]. split; [eauto|]. split; [discriminate|].
      split; [rewrite Hempty; discriminate|]. split.
      * intros p Hp Hne Hex. specialize (Hno_ref p Hp Hne Hex). discriminate.
      * intros Hdown. specialize (Hno_net Hdown). discriminate.
    + rewrite He. split; [auto|]. split; [discriminate|]. auto.
  - cbn. split; [auto|]. split; [discriminate|]. auto 10.
Qed.

End GeneratorExit.

(** *** The exporter *)

Section NoExit.
Import Exporter.
Local Open Scope py_scope.

Lemma plain_no_exit (e : exn) : is_Exception e = true -> is_SystemExit e = false.
Proof. destruct e; try discriminate; reflexivity. Qed.

Lemma request_exception_no_exit (e : exn) :
  is_RequestException e = true -> is_SystemExit e = false.
Proof. destruct e; try discriminate; reflexivity. Qed.

(** [m] never ends in [SystemExit]. *)
Definition no_exit {A : Type} (m : M A) : Prop :=
  forall s e s', m s = Some (Raise e, s') -> is_SystemExit e = false.

Lemma no_exit_ret {A : Type} (a : A) : no_exit (ret a).
Proof. intros s e s' H. discriminate. Qed.

Lemma no_exit_raise {A : Type} (e : exn) :
  is_SystemExit e = false -> no_exit (@raise A e).
Proof. intros He s e' s' H. inversion H; subst. exact He. Qed.

Lemma no_exit_lift {A : Type} (r : result A) : plain r -> no_exit (lift r).
Proof.
  intros Hr s e s' H. inversion H; subst. now apply plain_no_exit, Hr.
Qed.

Lemma no_exit_get_state : no_exit get_state.
Proof. intros s e s' H. discriminate. Qed.

Lemma no_exit_log (ev : event) : no_exit (log ev).
Proof. intros s e s' H. discriminate. Qed.

Lemma no_exit_modify_stats (f : stats -> stats) : no_exit (modify_stats f).
Proof. intros s e s' H. discriminate. Qed.

Lemma no_exit_bind {A B : Type} (m : M A) (k : A -> M B) :
  no_exit m -> (forall a, no_exit (k a)) -> no_exit (bind m k).
Proof.
  intros Hm Hk s e s' H. unfold bind in H.
  destruct (m s) as [[[a|e1] s1]|] eqn:Hms; [|inversion H; subst|discriminate].
  - eapply Hk; eauto.
  - eapply Hm; eauto.
Qed.

Lemma no_exit_try_except {A : Type} (m : M A) (c : exn -> bool) (h : exn -> M A) :
  no_exit m -> (forall e, c e = true -> no_exit (h e)) ->
  no_exit (try_except m c h).
Proof.
  intros Hm Hh s e s' H. unfold try_except in H.
  destruct (m s) as [[[a|e1] s1]|] eqn:Hms; try discriminate.
  destruct (c e1) eqn:Hc.
  - eapply Hh; eauto.
  - inversion H; subst. eapply Hm; eauto.
Qed.

Lemma no_exit_try_finally {A : Type} (m : M A) (f : M unit) :
  no_exit m -> no_exit f -> no_exit (try_finally m f).
Proof.
  intros Hm Hf s e s' H. unfold try_finally in H.
  destruct (m s) as [[r s1]|] eqn:Hms; [|discriminate].
  destruct (f s1) as [[[[]|e2] s2]|] eqn:Hfs; [| |discriminate].
  - inversion H; subst. eapply Hm; eauto.
  - inversion H; subst. eapply Hf; eauto.
Qed.

Lemma no_exit_for_each {A : Type} (xs : list A) (f : A -> M unit) :
  (forall x, no_exit (f x)) -> no_exit (for_each xs f).
Proof.
  intros Hf. induction xs as [|x xs IH]; cbn [for_each];
    [apply no_exit_ret|].
  apply no_exit_bind; auto.
Qed.

(** Pure code of the exporter raises plain exceptions. *)

Lemma plain_raise_for_status (r : response) : plain (raise_for_status r).
Proof. unfold raise_for_status. repeat plain_step. Qed.

Lemma plain_response_json (r : response) : plain (response_json r).
Proof. unfold response_json. repeat plain_step. Qed.

Lemma plain_iterate (x : json) : plain (iterate x).
Proof. unfold iterate. repeat plain_step. Qed.

Lemma plain_keys (x : json) : plain (keys x).
Proof. unfold keys. repeat plain_step. Qed.

Lemma plain_to_key (x : json) : plain (to_key x).
Proof. unfold to_key. repeat plain_step. Qed.

Lemma plain_int_add (a : Z) (b : json) : plain (int_add a b).
Proof. unfold int_add. repeat plain_step. Qed.

Lemma plain_rmap {A B : Type} (f : A -> result B) (xs : list A) :
  (forall x, plain (f x)) -> plain (rmap f xs).
Proof.
  intros Hf. induction xs as [|x xs IH]; cbn [rmap]; [apply plain_ret|].
  apply plain_rbind; [apply Hf|intros y].
  apply plain_rbind; [exact IH|intros ys; apply plain_ret].
Qed.

Lemma plain_build (fields : list (string * (json -> result json))) (x : json) :
  Forall (fun f => plain (snd f x)) fields -> plain (build fields x).
Proof.
  intros Hf. unfold build.
  apply plain_rbind; [|intros kv; apply plain_ret].
  induction Hf as [|f fields Hx _ IH]; cbn [rmap]; [apply plain_ret|].
  apply plain_rbind.
  - apply plain_rbind; [exact Hx|intros v; apply plain_ret].
  - intros y. apply plain_rbind; [exact IH|intros ys; apply plain_ret].
Qed.

Ltac plain_pure :=
  repeat first [ apply plain_iterate | apply plain_keys | apply plain_to_key
               | apply plain_int_add | apply plain_raise_for_status
               | apply plain_response_json
               | apply plain_rmap; intros ?
               | plain_step ].

Ltac plain_summary :=
  apply plain_build; repeat constructor; cbn [snd]; unfold item; plain_pure.

Lemma plain_repo_summary (x : json) : plain (repo_summary x).
Proof. plain_summary. Qed.

Lemma plain_gist_summary (x : json) : plain (gist_summary x).
Proof. plain_summary. Qed.

Lemma plain_starred_summary (x : json) : plain (starred_summary x).
Proof. plain_summary. Qed.

Lemma plain_user_summary (x : json) : plain (user_summary x).
Proof. plain_summary. Qed.

Lemma plain_org_summary (x : json) : plain (org_summary x).
Proof. plain_summary. Qed.

Lemma plain_event_summary (x : json) : plain (event_summary x).
Proof. plain_summary. Qed.

Lemma plain_subscription_summary (x : json) : plain (subscription_summary x).
Proof. plain_summary. Qed.

Lemma plain_search_summary (x : json) : plain (search_summary x).
Proof. unfold search_summary. plain_summary; unfold repository_of, labels_of; plain_pure. Qed.

Lemma plain_bump (k : pykey) (size : json) (d : list (pykey * lang_acc)) :
  forall r, bump k size d = Some r -> plain r.
Proof.
  induction d as [|[k' a] d IH]; intros r H; cbn [bump] in H; [discriminate|].
  destruct (pykey_eqb k k').
  - inversion H; subst. plain_pure.
  - destruct (bump k size d) as [r'|]; [|discriminate].
    inversion H; subst. apply plain_rbind; [now apply IH|intros ?; apply plain_ret].
Qed.

Lemma plain_count_repo (acc : list (pykey * lang_acc) * Z) (repo : json) :
  plain (count_repo acc repo).
Proof.
  unfold count_repo. destruct acc as [stats total].
  apply plain_rbind; [plain_pure|intros language].
  apply plain_rbind; [plain_pure|intros size].
  destruct (truthy language); [|apply plain_ret].
  apply plain_rbind; [plain_pure|intros k].
  apply plain_rbind; [|intros ?; plain_pure].
  destruct (bump k size stats) as [r|] eqn:Hb; [now apply (plain_bump k size stats)|].
  plain_pure.
Qed.

Lemma plain_count_repos (repos : list json) :
  forall acc, plain (count_repos acc repos).
Proof.
  induction repos as [|repo repos IH]; intros acc; cbn [count_repos];
    [apply plain_ret|].
  apply plain_rbind; [apply plain_count_repo|intros ?; apply IH].
Qed.

Lemma plain_language_stats (repos : list json) : plain (language_stats repos).
Proof.
  unfold language_stats.
  apply plain_rbind; [apply plain_count_repos|intros [stats total]; apply plain_ret].
Qed.

Lemma plain_bump_by_lang (k : pykey) (stars forks : json)
    (d : list (pykey * by_lang)) :
  forall r, bump_by_lang k stars forks d = Some r -> plain r.
Proof.
  induction d as [|[k' a] d IH]; intros r H; cbn [bump_by_lang] in H;
    [discriminate|].
  destruct (pykey_eqb k k').
  - inversion H; subst. plain_pure.
  - destruct (bump_by_lang k stars forks d) as [r'|]; [|discriminate].
    inversion H; subst. apply plain_rbind; [now apply IH|intros ?; apply plain_ret].
Qed.

Lemma plain_total_repo (acc : repo_totals) (repo : json) :
  plain (total_repo acc repo).
Proof.
  unfold total_repo.
  apply plain_rbind; [plain_pure|intros stars].
  apply plain_rbind; [plain_pure|intros ts].
  apply plain_rbind; [plain_pure|intros forks].
  apply plain_rbind; [plain_pure|intros tf].
  apply plain_rbind; [plain_pure|intros language].
  destruct (truthy language); [|apply plain_ret].
  apply plain_rbind; [plain_pure|intros k].
  apply plain_rbind; [|intros ?; apply plain_ret].
  destruct (bump_by_lang k stars forks (by_language acc)) as [r|] eqn:Hb;
    [now apply (plain_bump_by_lang k stars forks (by_language acc))|].
  plain_pure.
Qed.

Lemma plain_total_repos (repos : list json) :
  forall acc, plain (total_repos acc repos).
Proof.
  induction repos as [|repo repos IH]; intros acc; cbn [total_repos];
    [apply plain_ret|].
  apply plain_rbind; [apply plain_total_repo|intros ?; apply IH].
Qed.

Variable E : env.
Hypothesis orderly : never_exits E.

Lemma no_exit_session_get (endpoint : string) (params : option (dict json)) :
  no_exit (lift (session_get E endpoint params)).
Proof.
  intros s e s' H. inversion H; subst. destruct orderly as (Hg & _). eauto.
Qed.

Lemma no_exit_session_post (query : string) :
  no_exit (lift (session_post E query)).
Proof.
  intros s e s' H. inversion H; subst. destruct orderly as (_ & Hp & _). eauto.
Qed.

Lemma no_exit_mkdir (d : path) : no_exit (mkdir E d).
Proof.
  intros s e s' H. unfold mkdir in H.
  destruct (mkdir_raises E d) eqn:Hd; inversion H; subst.
  destruct orderly as (_ & _ & Hm & _). eauto.
Qed.

Lemma no_exit_write_json (p : path) (data : json) : no_exit (write_json E p data).
Proof.
  intros s e s' H. unfold write_json in H.
  destruct (open_raises E p) eqn:Hd; inversion H; subst.
  destruct orderly as (_ & _ & _ & Hw). eauto.
Qed.

Ltac exit_step :=
  lazymatch goal with
  | |- no_exit (bind _ _) => apply no_exit_bind; [|intros ?]
  | |- no_exit (ret _) => apply no_exit_ret
  | |- no_exit (raise _) =>
      apply no_exit_raise;
      first [ now apply request_exception_no_exit | now apply plain_no_exit ]
  | |- no_exit (lift (session_get _ _ _)) => apply no_exit_session_get
  | |- no_exit (lift (session_post _ _)) => apply no_exit_session_post
  | |- no_exit (lift _) =>
      apply no_exit_lift;
      first [ apply plain_repo_summary | apply plain_gist_summary
            | apply plain_starred_summary | apply plain_user_summary
            | apply plain_org_summary | apply plain_event_summary
            | apply plain_subscription_summary | apply plain_search_summary
            | apply plain_language_stats | apply plain_total_repos
            | apply plain_iterate | apply plain_keys
            | apply plain_raise_for_status | apply plain_response_json
            | apply plain_rmap; intros ?
            | plain_step ]
  | |- plain _ =>
      first [ apply plain_repo_summary | apply plain_gist_summary
            | apply plain_starred_summary | apply plain_user_summary
            | apply plain_org_summary | apply plain_event_summary
            | apply plain_subscription_summary | apply plain_search_summary
            | apply plain_language_stats | apply plain_total_repos
            | apply plain_iterate | apply plain_keys
            | apply plain_raise_for_status | apply plain_response_json
            | apply plain_rmap; intros ?
            | plain_step ]
  | |- no_exit get_state => apply no_exit_get_state
  | |- no_exit (print _ _) => apply no_exit_log
  | |- no_exit (log _) => apply no_exit_log
  | |- no_exit (modify_stats _) => apply no_exit_modify_stats
  | |- no_exit count_request => apply no_exit_modify_stats
  | |- no_exit (append_error _) => apply no_exit_modify_stats
  | |- no_exit (set_fetched _ _) => apply no_exit_modify_stats
  | |- no_exit (mkdir _ _) => apply no_exit_mkdir
  | |- no_exit (write_json _ _ _) => apply no_exit_write_json
  | |- no_exit (try_except _ _ _) => apply no_exit_try_except; [|intros ? ?]
  | |- no_exit (try_finally _ _) => apply no_exit_try_finally
  | |- no_exit (for_each _ _) => apply no_exit_for_each; intros ?
  | |- no_exit (if ?c then _ else _) => destruct c
  | |- no_exit (match ?x with _ => _ end) => destruct x
  | |- no_exit (let (_, _) := ?x in _) => destruct x
  end.

Lemma no_exit_make_request (endpoint : string) (params : option (dict json)) :
  no_exit (_make_request E endpoint params).
Proof. unfold _make_request. repeat exit_step. Qed.

Lemma no_exit_save_json (data : json) (p : path) : no_exit (_save_json E data p).
Proof. unfold _save_json. repeat exit_step. Qed.

Lemma no_exit_fetch_pages (fuel : nat) :
  forall endpoint params page acc,
    no_exit (fetch_pages E fuel endpoint params page acc).
Proof.
  induction fuel as [|fuel IH]; intros endpoint params page acc;
    [intros s e s' H; discriminate|].
  cbn [fetch_pages]. unfold page_body.
  repeat first [ apply IH | apply no_exit_make_request | exit_step ].
Qed.

Variable username : string.
Variable fuel : nat.

Ltac exit_method :=
  repeat first [ apply no_exit_fetch_pages | apply no_exit_make_request
               | apply no_exit_save_json | exit_step ].

Lemma no_exit_fetch_sequence (token : option string) :
  no_exit (fetch_sequence E username token fuel).
Proof.
  unfold fetch_sequence, fetch_profile, fetch_repositories, fetch_gists,
    fetch_starred, fetch_followers, fetch_following, fetch_organizations,
    fetch_events, fetch_subscriptions, fetch_contribution_calendar,
    fetch_pull_requests, fetch_issues, fetch_search, fetch_language_stats,
    fetch_repository_stats, guarded, _make_graphql_request,
    _fetch_paginated_data.
  exit_method.
Qed.

Lemma no_exit_fetch_all (token : option string) (output_directory : string) :
  no_exit (fetch_all E username token output_directory fuel).
Proof.
  unfold fetch_all, save_metadata, print_summary.
  repeat first [ apply no_exit_fetch_sequence | apply no_exit_save_json
               | exit_step ].
Qed.

End NoExit.

(** With the output directory and the metadata file writable, the exporter
    ends with status 0 whatever its requests met. *)
Lemma exporter_exit (E : Exporter.env) (a : Exporter.args)
    (environ_token : option string) (files : list (Exporter.path * json))
    (dirs : list Exporter.path) (fuel : nat) :
  Exporter.never_exits E -> Exporter.pagination_stops E fuel ->
  Exporter.mkdir_raises E [] = None ->
  Exporter.open_raises E Exporter.metadata_path = None ->
  Exporter.main_exit_code E a environ_token files dirs fuel = Some 0%Z.
Proof.
  intros Hne Hstops Hmk Hop. unfold Exporter.main_exit_code, Exporter.main.
  set (token := match Exporter.arg_token a with Some t => Some t | None => _ end).
  set (out := (_ ++ _)%string).
  pose proof (OrchestrationProofs.fetch_all_shape E (Exporter.arg_username a)
                token out fuel Hstops (Exporter.initial_state files dirs)) as H.
  rewrite Hmk in H.
  destruct H as (r & s1 & tr & handler & s' & _ & _ & _ & Hr & _ & H).
  rewrite Hop in H. destruct H as [Heq _]. rewrite Heq.
  destruct Hr as [->|[c ->]]; [reflexivity|].
  apply (no_exit_fetch_all E Hne) in Heq. discriminate.
Qed.

(** *** The token helper *)

Section TokenExit.
Import TokenHelper.

Variable E : env.

(** The helper exits with 1 on an empty client id and on a redirect URL
    without access token; it exits with 0 when Ctrl-C meets its first
    prompt, and when the credentials file it was asked to write cannot be
    written. *)
Lemma token_helper_exit :
  (forall line rest, is_empty (strip line) = true ->
     script_exit_code E (Line line :: rest) = 1%Z) /\
  (forall client_line redirect_line rest,
     contains "access_token=" redirect_line = false ->
     script_exit_code E (Line client_line :: Line redirect_line :: rest) = 1%Z) /\
  (forall rest, script_exit_code E (Interrupt :: rest) = 0%Z) /\
  (forall e stdin w,
     write_raises E = Some e -> is_Exception e = true ->
     script_writes {| write_raises := None; now := now E |} stdin = [w] ->
     script_exit_code E stdin = 0%Z /\ script_writes E stdin = []).
Proof.
  split; [|split; [|split]].
  - intros line rest H. unfold script_exit_code, script, main. cbn [input].
    now rewrite H.
  - intros client_line redirect_line rest H.
    apply (TokenHelperProofs.strip_no_field "access_token=") in H.
    apply TokenHelperProofs.re_search_no_field in H.
    unfold script_exit_code, script, main. cbn [input].
    destruct (is_empty (strip client_line)); [reflexivity|].
    destruct (is_empty (strip redirect_line)); [reflexivity|].
    now rewrite H.
  - intros rest. reflexivity.
  - intros e stdin w Hw He H.
    unfold script_exit_code, script_writes, script, main in *.
    cbn [write_raises now] in H. rewrite Hw, He.
    destruct (input stdin) as [[line1|e1] stdin1].
    2:{ destruct (is_KeyboardInterrupt e1), (is_Exception e1); discriminate. }
    destruct (is_empty (strip line1)); [discriminate|].
    destruct (input stdin1) as [[line2|e2] stdin2].
    2:{ destruct (is_KeyboardInterrupt e2), (is_Exception e2); discriminate. }
    destruct (is_empty (strip line2)); [discriminate|].
    destruct (re_search "access_token=" (strip line2)); [|discriminate].
    destruct (match re_search "expires_in=" (strip line2) with
              | Some t => rbind (parse_int t) (fun _ => Ret tt)
              | None => Ret tt
              end) as [u|e3].
    2:{ destruct (is_KeyboardInterrupt e3), (is_Exception e3); discriminate. }
    destruct (input stdin2) as [[line3|e4] stdin3].
    2:{ destruct (is_KeyboardInterrupt e4), (is_Exception e4); discriminate. }
    destruct (String.eqb (lower (strip line3)) "y"); [|discriminate].
    split; reflexivity.
Qed.

End TokenExit.

(** *** The five scripts together *)




End ExitCodeProofs.

(** ** The exporter's bookkeeping and its files *)

Module ExporterFacts.
Import Py Exporter Observations.
Local Open Scope py_scope.

(** *** Requests are counted, failures recorded *)

Lemma make_request_shape (E : env) (endpoint : string)
    (params : option (dict json)) (s : state) :
  exists r s',
    _make_request E endpoint params s = Some (r, s') /\
    requests_made (st_stats s') = S (requests_made (st_stats s)) /\
    data_fetched (st_stats s') = data_fetched (st_stats s) /\
    st_files s' = st_files s /\
    match r with
    | Ret response =>
        session_get E endpoint params = Ret response /\
        raise_for_status response = Ret tt /\
        errors (st_stats s') = errors (st_stats s) /\
        st_trace s' = st_trace s ++ [Get endpoint params]
    | Raise e =>
        (session_get E endpoint params = Raise e \/
         exists response, session_get E endpoint params = Ret response /\
                          raise_for_status response = Raise e) /\
        if is_RequestException e
        then errors (st_stats s') = errors (st_stats s) ++ [ErrRequest endpoint e] /\
             st_trace s' = st_trace s ++
               [Get endpoint params; Print Stderr (MRequestFailed endpoint e)]
        else errors (st_stats s') = errors (st_stats s) /\
             st_trace s' = st_trace s ++ [Get endpoint params]
    end.
Proof.
  unfold _make_request, bind, count_request, modify_stats, try_except, log, lift,
    ret, raise, append_error, print, log, modify_stats.
  cbn [st_stats st_files st_dirs st_trace].
  destruct (session_get E endpoint params) as [response|e] eqn:Hget.
  - destruct (raise_for_status response) as [[]|e] eqn:Hst.
    + eexists; eexists. split; [reflexivity|]. cbn. auto 10.
    + assert (Hreq : is_RequestException e = true).
      { unfold raise_for_status in Hst.
        destruct (_ && _)%bool; inversion Hst; reflexivity. }
      rewrite Hreq. eexists; eexists. split; [reflexivity|]. cbn.
      rewrite Hreq, <- app_assoc. eauto 10.
  - destruct (is_RequestException e) eqn:Hreq.
    + eexists; eexists. split; [reflexivity|]. cbn.
      rewrite Hreq, <- app_assoc. auto 10.
    + eexists; eexists. split; [reflexivity|]. cbn. rewrite Hreq. auto 10.
Qed.

(** Every call of [_make_request] counts as one request, whether it
    succeeds or not; a request that fails with a [RequestException] appends
    exactly one message to the errors and prints it on stderr before the
    exception is raised again; no file and no entry of [data_fetched] is
    touched. *)
Theorem make_request_counts_and_records (E : env) (endpoint : string)
    (params : option (dict json)) (s : state) :
  exists r s',
    _make_request E endpoint params s = Some (r, s') /\
    requests_made (st_stats s') = S (requests_made (st_stats s)) /\
    data_fetched (st_stats s') = data_fetched (st_stats s) /\
    st_files s' = st_files s /\
    match r with
    | Ret response =>
        session_get E endpoint params = Ret response /\
        raise_for_status response = Ret tt /\
        errors (st_stats s') = errors (st_stats s) /\
        st_trace s' = st_trace s ++ [Get endpoint params]
    | Raise e =>
        (session_get E endpoint params = Raise e \/
         exists response, session_get E endpoint params = Ret response /\
                          raise_for_status response = Raise e) /\
        if is_RequestException e
        then errors (st_stats s') = errors (st_stats s) ++ [ErrRequest endpoint e] /\
             st_trace s' = st_trace s ++
               [Get endpoint params; Print Stderr (MRequestFailed endpoint e)]
        else errors (st_stats s') = errors (st_stats s) /\
             st_trace s' = st_trace s ++ [Get endpoint params]
    end.
Proof. apply make_request_shape. Qed.

(** *** Files written are files read back *)

Lemma path_eqb_eq (p q : path) : path_eqb p q = true <-> p = q.
Proof.
  revert q. induction p as [|a p IH]; intros [|b q]; cbn; split; intros H;
    try discriminate; try reflexivity.
  - apply andb_true_iff in H. destruct H as [Ha Hp].
    apply String.eqb_eq in Ha. apply IH in Hp. congruence.
  - inversion H; subst. rewrite String.eqb_refl. cbn. now apply IH.
Qed.

Lemma path_eqb_refl (p : path) : path_eqb p p = true.
Proof. now apply path_eqb_eq. Qed.

Lemma read_file_set_file (p : path) (data : json) (fs : list (path * json)) :
  read_file p (set_file p data fs) = Some data.
Proof.
  induction fs as [|[q c] fs IH]; cbn.
  - now rewrite path_eqb_refl.
  - destruct (path_eqb p q) eqn:Hpq; cbn; rewrite Hpq; auto.
Qed.

Lemma read_file_set_file_other (p q : path) (data : json)
    (fs : list (path * json)) :
  path_eqb q p = false ->
  read_file q (set_file p data fs) = read_file q fs.
Proof.
  intros Hqp. induction fs as [|[q0 c] fs IH]; cbn.
  - now rewrite Hqp.
  - destruct (path_eqb p q0) eqn:Hpq; cbn.
    + apply path_eqb_eq in Hpq. subst q0. now rewrite Hqp.
    + destruct (path_eqb q q0); auto.
Qed.

Lemma save_json_shape (E : env) (data : json) (p : path) (s : state) :
  exists r s',
    _save_json E data p s = Some (r, s') /\
    st_stats s' = st_stats s /\
    match r with
    | Ret _ =>
        st_files s' = set_file p data (st_files s) /\
        st_dirs s' = parent p :: st_dirs s /\
        st_trace s' = st_trace s ++ [Write p data; Print Stdout (MSaved p)]
    | Raise e =>
        (mkdir_raises E (parent p) = Some e \/ open_raises E p = Some e) /\
        st_files s' = st_files s /\ st_trace s' = st_trace s
    end.
Proof.
  unfold _save_json, bind, mkdir, write_json, print, log.
  destruct (mkdir_raises E (parent p)) as [e|] eqn:Hmk.
  - eexists; eexists. split; [reflexivity|]. auto.
  - cbn [st_stats st_files st_dirs st_trace].
    destruct (open_raises E p) as [e|] eqn:Hop.
    + eexists; eexists. split; [reflexivity|]. cbn. auto.
    + eexists; eexists. split; [reflexivity|]. cbn.
      rewrite <- app_assoc. auto.
Qed.


(** *** The statistics agree with what was sent *)

Lemma count_requests_app (t u : list event) :
  count_requests (t ++ u) = count_requests t + count_requests u.
Proof. unfold count_requests. now rewrite filter_app, length_app. Qed.

Lemma failures_app (t u : list event) : failures (t ++ u) = failures t ++ failures u.
Proof. unfold failures. apply flat_map_app. Qed.

(** Whenever [m] ends, the requests it has counted are the requests its
    trace shows, the errors it has appended are the failures it printed,
    and there is at most one of these per request. *)
Definition accounted {A : Type} (m : M A) : Prop :=
  forall s r s', m s = Some (r, s') ->
    exists tr,
      st_trace s' = st_trace s ++ tr /\
      requests_made (st_stats s') = requests_made (st_stats s) + count_requests tr /\
      errors (st_stats s') = errors (st_stats s) ++ failures tr /\
      List.length (failures tr) <= count_requests tr.

Lemma accounted_silent {A : Type} (m : M A) :
  (forall s r s', m s = Some (r, s') ->
     st_trace s' = st_trace s /\
     requests_made (st_stats s') = requests_made (st_stats s) /\
     errors (st_stats s') = errors (st_stats s)) ->
  accounted m.
Proof.
  intros Hm s r s' H. destruct (Hm s r s' H) as (Ht & Hn & He).
  exists []. rewrite !app_nil_r. cbn. rewrite Nat.add_0_r. auto.
Qed.

Lemma accounted_ret {A : Type} (a : A) : accounted (ret a).
Proof. apply accounted_silent. intros s r s' H. inversion H; subst. auto. Qed.

Lemma accounted_raise {A : Type} (e : exn) : accounted (@raise A e).
Proof. apply accounted_silent. intros s r s' H. inversion H; subst. auto. Qed.

Lemma accounted_lift {A : Type} (r : result A) : accounted (lift r).
Proof. apply accounted_silent. intros s r' s' H. inversion H; subst. auto. Qed.

Lemma accounted_get_state : accounted get_state.
Proof. apply accounted_silent. intros s r s' H. inversion H; subst. auto. Qed.

Lemma accounted_set_fetched (key : string) (v : json) :
  accounted (set_fetched key v).
Proof. apply accounted_silent. intros s r s' H. inversion H; subst. auto. Qed.

Lemma accounted_mkdir (E : env) (d : path) : accounted (mkdir E d).
Proof.
  apply accounted_silent. intros s r s' H. unfold mkdir in H.
  destruct (mkdir_raises E d); inversion H; subst; auto.
Qed.

Lemma accounted_log (ev : event) :
  is_request ev = false -> failure_of ev = [] -> accounted (log ev).
Proof.
  intros Hr Hf s r s' H. inversion H; subst. exists [ev].
  unfold count_requests, failures. cbn. rewrite Hr, Hf, app_nil_r. cbn.
  rewrite Nat.add_0_r. auto.
Qed.

Lemma accounted_write_json (E : env) (p : path) (data : json) :
  accounted (write_json E p data).
Proof.
  intros s r s' H. unfold write_json in H.
  destruct (open_raises E p); inversion H; subst.
  - exists []. rewrite !app_nil_r. cbn. rewrite Nat.add_0_r. auto.
  - exists [Write p data]. cbn. rewrite app_nil_r, Nat.add_0_r. auto.
Qed.

Lemma accounted_then {A B : Type} (s s1 s' : state) (tr1 : list event) :
  st_trace s1 = st_trace s ++ tr1 ->
  requests_made (st_stats s1) = requests_made (st_stats s) + count_requests tr1 ->
  errors (st_stats s1) = errors (st_stats s) ++ failures tr1 ->
  List.length (failures tr1) <= count_requests tr1 ->
  (exists tr,
     st_trace s' = st_trace s1 ++ tr /\
     requests_made (st_stats s') = requests_made (st_stats s1) + count_requests tr /\
     errors (st_stats s') = errors (st_stats s1) ++ failures tr /\
     List.length (failures tr) <= count_requests tr) ->
  exists tr,
    st_trace s' = st_trace s ++ tr /\
    requests_made (st_stats s') = requests_made (st_stats s) + count_requests tr /\
    errors (st_stats s') = errors (st_stats s) ++ failures tr /\
    List.length (failures tr) <= count_requests tr.
Proof.
  intros Ht1 Hn1 He1 Hl1 (tr2 & Ht2 & Hn2 & He2 & Hl2).
  exists (tr1 ++ tr2).
  rewrite count_requests_app, failures_app, length_app.
  rewrite Ht2, Ht1, Hn2, Hn1, He2, He1, <- !app_assoc.
  repeat split; lia.
Qed.

Lemma accounted_bind {A B : Type} (m : M A) (k : A -> M B) :
  accounted m -> (forall a, accounted (k a)) -> accounted (bind m k).
Proof.
  intros Hm Hk s r s' H. unfold bind in H.
  destruct (m s) as [[[a|e] s1]|] eqn:Hms; [| |discriminate].
  - destruct (Hm s _ _ Hms) as (tr1 & Ht1 & Hn1 & He1 & Hl1).
    eapply (@accounted_then A B); eauto. eapply Hk; eauto.
  - inversion H; subst. eapply Hm; eauto.
Qed.

Lemma accounted_try_except {A : Type} (m : M A) (c : exn -> bool)
    (h : exn -> M A) :
  accounted m -> (forall e, accounted (h e)) -> accounted (try_except m c h).
Proof.
  intros Hm Hh s r s' H. unfold try_except in H.
  destruct (m s) as [[[a|e] s1]|] eqn:Hms; [| |discriminate].
  - inversion H; subst. eapply Hm; eauto.
  - destruct (c e).
    + destruct (Hm s _ _ Hms) as (tr1 & Ht1 & Hn1 & He1 & Hl1).
      eapply (@accounted_then A A); eauto. eapply Hh; eauto.
    + inversion H; subst. eapply Hm; eauto.
Qed.

Lemma accounted_try_finally {A : Type} (m : M A) (f : M unit) :
  accounted m -> accounted f -> accounted (try_finally m f).
Proof.
  intros Hm Hf s r s' H. unfold try_finally in H.
  destruct (m s) as [[r1 s1]|] eqn:Hms; [|discriminate].
  destruct (f s1) as [[[u|e] s2]|] eqn:Hfs; [| |discriminate];
    inversion H; subst;
    destruct (Hm s _ _ Hms) as (tr1 & Ht1 & Hn1 & He1 & Hl1);
    eapply (@accounted_then A A); eauto; eapply Hf; eauto.
Qed.

Lemma accounted_for_each {A : Type} (xs : list A) (f : A -> M unit) :
  (forall x, accounted (f x)) -> accounted (for_each xs f).
Proof.
  intros Hf. induction xs as [|x xs IH]; cbn [for_each];
    [apply accounted_ret|].
  apply accounted_bind; auto.
Qed.

Lemma accounted_make_request (E : env) (endpoint : string)
    (params : option (dict json)) :
  accounted (_make_request E endpoint params).
Proof.
  intros s r s' H.
  destruct (make_request_shape E endpoint params s)
    as (r0 & s0 & Heq & Hn & _ & _ & Hr).
  rewrite Heq in H. inversion H; subst r0 s0. clear H.
  destruct r as [response|e].
  - destruct Hr as (_ & _ & He & Ht).
    exists [Get endpoint params]. rewrite Ht, Hn, He. cbn.
    rewrite app_nil_r. repeat split; lia.
  - destruct Hr as (_ & Hr). destruct (is_RequestException e);
      destruct Hr as (He & Ht); rewrite Ht, Hn, He; eexists;
      (split; [reflexivity|]); cbn; rewrite ?app_nil_r; repeat split; lia.
Qed.

Lemma accounted_make_graphql_request (E : env) (query : string) :
  accounted (_make_graphql_request E query).
Proof.
  intros s r s' H.
  unfold _make_graphql_request, bind, count_request, modify_stats, try_except,
    log, lift, raise, append_error, print, log, modify_stats in H.
  cbn [st_stats st_files st_dirs st_trace] in H.
  assert (Hplain : forall e : exn,
            exists tr : list event,
              (st_trace s ++ [Post query]) = st_trace s ++ tr /\
              S (requests_made (st_stats s)) =
                requests_made (st_stats s) + count_requests tr /\
              errors (st_stats s) = errors (st_stats s) ++ failures tr /\
              List.length (failures tr) <= count_requests tr).
  { intros _. exists [Post query]. cbn. rewrite app_nil_r. repeat split; lia. }
  assert (Hfailed : forall e : exn,
            exists tr : list event,
              ((st_trace s ++ [Post query]) ++ [Print Stderr (MGraphQLFailed e)])
                = st_trace s ++ tr /\
              S (requests_made (st_stats s)) =
                requests_made (st_stats s) + count_requests tr /\
              errors (st_stats s) ++ [ErrGraphQL e] =
                errors (st_stats s) ++ failures tr /\
              List.length (failures tr) <= count_requests tr).
  { intros e. exists [Post query; Print Stderr (MGraphQLFailed e)]. cbn.
    rewrite <- app_assoc. repeat split; lia. }
  destruct (session_post E query) as [response|e].
  - destruct (raise_for_status response) as [[]|e].
    + destruct (response_json response) as [j|e].
      * inversion H; subst. cbn. apply (Hplain JSONDecodeError).
      * destruct (is_RequestException e); inversion H; subst; cbn;
          [apply Hfailed|apply (Hplain e)].
    + destruct (is_RequestException e); inversion H; subst; cbn;
        [apply Hfailed|apply (Hplain e)].
  - destruct (is_RequestException e); inversion H; subst; cbn;
      [apply Hfailed|apply (Hplain e)].
Qed.

Ltac acc_step :=
  lazymatch goal with
  | |- accounted (bind _ _) => apply accounted_bind; [|intros ?]
  | |- accounted (ret _) => apply accounted_ret
  | |- accounted (raise _) => apply accounted_raise
  | |- accounted (lift _) => apply accounted_lift
  | |- accounted get_state => apply accounted_get_state
  | |- accounted (_make_request _ _ _) => apply accounted_make_request
  | |- accounted (_make_graphql_request _ _) => apply accounted_make_graphql_request
  | |- accounted (print _ _) => apply accounted_log; reflexivity
  | |- accounted (log _) => apply accounted_log; reflexivity
  | |- accounted (set_fetched _ _) => apply accounted_set_fetched
  | |- accounted (mkdir _ _) => apply accounted_mkdir
  | |- accounted (write_json _ _ _) => apply accounted_write_json
  | |- accounted (try_except _ _ _) => apply accounted_try_except; [|intros ?]
  | |- accounted (try_finally _ _) => apply accounted_try_finally
  | |- accounted (for_each _ _) => apply accounted_for_each; intros ?
  | |- accounted (if ?c then _ else _) => destruct c
  | |- accounted (match ?x with _ => _ end) => destruct x
  | |- accounted (let (_, _) := ?x in _) => destruct x
  end.

Lemma accounted_fetch_pages (E : env) (fuel : nat) :
  forall endpoint params page acc,
    accounted (fetch_pages E fuel endpoint params page acc).
Proof.
  induction fuel as [|fuel IH]; intros endpoint params page acc;
    [intros s r s' H; discriminate|].
  cbn [fetch_pages]. unfold page_body.
  repeat first [ apply IH | acc_step ].
Qed.

Lemma accounted_fetch_all (E : env) (username : string) (token : option string)
    (output_directory : string) (fuel : nat) :
  accounted (fetch_all E username token output_directory fuel).
Proof.
  unfold fetch_all, save_metadata, print_summary,
    fetch_sequence, fetch_profile, fetch_repositories, fetch_gists,
    fetch_starred, fetch_followers, fetch_following, fetch_organizations,
    fetch_events, fetch_subscriptions, fetch_contribution_calendar,
    fetch_pull_requests, fetch_issues, fetch_search, fetch_language_stats,
    fetch_repository_stats, guarded, _fetch_paginated_data, _save_json.
  repeat first [ apply accounted_fetch_pages | acc_step ].
Qed.

(** In every run of [fetch_all] that ends, the request counter has grown by
    the number of GET and POST requests sent, the errors appended are
    exactly the request failures printed on stderr, in that order, and
    there is at most one error per request. *)
Theorem fetch_all_statistics_match_trace (E : env) (username : string)
    (token : option string) (output_directory : string) (fuel : nat)
    (s : state) (r : result unit) (s' : state) :
  fetch_all E username token output_directory fuel s = Some (r, s') ->
  exists tr,
    st_trace s' = st_trace s ++ tr /\
    requests_made (st_stats s') = requests_made (st_stats s) + count_requests tr /\
    errors (st_stats s') = errors (st_stats s) ++ failures tr /\
    List.length (failures tr) <= count_requests tr.
Proof. apply accounted_fetch_all. Qed.

(** The run for octocat while the repositories endpoint is down: eleven
    requests, one of them failed. *)
Lemma fetch_all_statistics_match_trace_witness :
  exists r s',
    fetch_all Examples.repos_down "octocat" None "out/octocat" 1
      (initial_state [] []) = Some (r, s') /\
    requests_made (st_stats s') = count_requests (st_trace s') /\
    errors (st_stats s') = failures (st_trace s') /\
    List.length (errors (st_stats s')) <= requests_made (st_stats s').
Proof.
  destruct (fetch_all Examples.repos_down "octocat" None "out/octocat" 1
              (initial_state [] [])) as [[r s']|] eqn:Heq;
    [|vm_compute in Heq; discriminate].
  destruct (fetch_all_statistics_match_trace _ _ _ _ _ _ _ _ Heq)
    as (tr & Ht & Hn & He & Hl).
  cbn in Ht, Hn, He. exists r, s'. rewrite Ht, Hn, He. auto.
Defined.

(** *** The summary *)

Lemma shown_errors_app (t u : list event) :
  shown_errors (t ++ u) = shown_errors t ++ shown_errors u.
Proof. unfold shown_errors. apply flat_map_app. Qed.

Lemma announced_counts_app (t u : list event) :
  announced_counts (t ++ u) = announced_counts t ++ announced_counts u.
Proof. unfold announced_counts. apply flat_map_app. Qed.

Lemma written_app (t u : list event) : written (t ++ u) = written t ++ written u.
Proof. unfold written. apply flat_map_app. Qed.

Lemma flat_map_none {A B : Type} (f : A -> event) (g : event -> list B)
    (l : list A) :
  (forall x, g (f x) = []) -> flat_map g (map f l) = [].
Proof.
  intros H. induction l as [|x l IH]; cbn; [reflexivity|]. now rewrite H, IH.
Qed.

Lemma shown_errors_lines (l : list error_msg) :
  shown_errors (map (fun e => Print Stdout (MSummaryError e)) l) = l.
Proof. induction l as [|e l IH]; cbn; [reflexivity|]. f_equal. exact IH. Qed.

Lemma summary_lines_observed (t : stats) :
  shown_errors (summary_lines t) = firstn 5 (errors t) /\
  announced_counts (summary_lines t) =
    match errors t with
    | [] => []
    | errs => [List.length errs]
    end /\
  count_requests (summary_lines t) = 0 /\ written (summary_lines t) = [].
Proof.
  unfold summary_lines.
  set (items := map (fun kv => Print Stdout (MSummaryItem (fst kv) (snd kv)))
                    (data_fetched t)).
  assert (Hs : shown_errors items = []) by (apply flat_map_none; reflexivity).
  assert (Ha : announced_counts items = []) by (apply flat_map_none; reflexivity).
  assert (Hw : written items = []) by (apply flat_map_none; reflexivity).
  assert (Hc : count_requests items = 0).
  { unfold count_requests, items. clear.
    induction (data_fetched t) as [|kv l IH]; cbn; auto. }
  repeat rewrite ?shown_errors_app, ?announced_counts_app, ?written_app,
    ?count_requests_app.
  rewrite Hs, Ha, Hw, Hc.
  destruct (errors t) as [|e errs]; [cbn; auto|].
  set (shown := firstn 5 (e :: errs)).
  assert (Ha' : announced_counts
                  (map (fun e => Print Stdout (MSummaryError e)) shown) = [])
    by (apply flat_map_none; reflexivity).
  assert (Hw' : written (map (fun e => Print Stdout (MSummaryError e)) shown) = [])
    by (apply flat_map_none; reflexivity).
  assert (Hc' : count_requests
                  (map (fun e => Print Stdout (MSummaryError e)) shown) = 0).
  { unfold count_requests. clear. induction shown as [|x l IH]; cbn; auto. }
  change (Print Stdout (MSummaryErrors (List.length (e :: errs))) ::
          map (fun e => Print Stdout (MSummaryError e)) shown)
    with ([Print Stdout (MSummaryErrors (List.length (e :: errs)))] ++
          map (fun e => Print Stdout (MSummaryError e)) shown).
  repeat rewrite ?shown_errors_app, ?announced_counts_app, ?written_app,
    ?count_requests_app.
  rewrite shown_errors_lines, Ha', Hw', Hc'. cbn. rewrite !app_nil_r. auto.
Qed.

(** [print_summary] always returns, changes neither statistics nor files,
    sends nothing and writes nothing.  It lists the first five errors only,
    in their order, while the count it announces is that of all errors;
    without errors it prints neither a count nor an error line. *)
Theorem print_summary_lists_first_five_errors (s : state) :
  exists s' tr,
    print_summary s = Some (Ret tt, s') /\
    st_stats s' = st_stats s /\ st_files s' = st_files s /\
    st_trace s' = st_trace s ++ tr /\
    shown_errors tr = firstn 5 (errors (st_stats s)) /\
    announced_counts tr =
      match errors (st_stats s) with
      | [] => []
      | errs => [List.length errs]
      end /\
    count_requests tr = 0 /\ written tr = [].
Proof.
  exists (OrchestrationProofs.traced s (summary_lines (st_stats s))),
         (summary_lines (st_stats s)).
  split; [apply OrchestrationProofs.print_summary_lines|].
  split; [reflexivity|]. split; [reflexivity|]. split; [reflexivity|].
  apply summary_lines_observed.
Qed.

(** *** The statistics by language *)

Lemma pykey_eqb_eq (a b : pykey) : pykey_eqb a b = true <-> a = b.
Proof.
  destruct a as [s|n], b as [t|m]; cbn; split; intros H; try discriminate.
  - apply String.eqb_eq in H. now subst.
  - inversion H. apply String.eqb_refl.
  - apply Z.eqb_eq in H. now subst.
  - inversion H. apply Z.eqb_refl.
Qed.

Lemma int_add_value (a : Z) (v : json) (t : Z) :
  int_add a v = Ret t -> t = (a + int_value v)%Z.
Proof.
  unfold int_add, int_value. intros H.
  destruct v as [| [|] | n | | | |]; inversion H; lia.
Qed.

(** Bumping a language that is there keeps the keys and counts one more
    repository. *)
Lemma bump_keys (k : pykey) (size : json) (d d' : list (pykey * lang_acc)) :
  bump k size d = Some (Ret d') ->
  map fst d' = map fst d /\
  zsum (fun e => acc_repo_count (snd e)) d' =
    (zsum (fun e => acc_repo_count (snd e)) d + 1)%Z /\
  (Forall (fun e => (1 <= acc_repo_count (snd e))%Z) d ->
   Forall (fun e => (1 <= acc_repo_count (snd e))%Z) d').
Proof.
  revert d'. induction d as [|[k' a] d IH]; intros d' H; cbn in H; [discriminate|].
  destruct (pykey_eqb k k').
  - inversion H as [H1]. clear H.
    destruct (int_add (acc_total_size_kb a) size) as [t|]; cbn in H1;
      [|discriminate].
    inversion H1; subst. cbn. split; [reflexivity|]. split; [lia|].
    intros Hall. inversion Hall; subst. constructor; [cbn in *; lia|assumption].
  - destruct (bump k size d) as [[d1|e]|]; cbn in H; try discriminate.
    inversion H; subst. destruct (IH d1 eq_refl) as (Hk & Hc & Hf).
    cbn. split; [now rewrite Hk|]. split; [lia|].
    intros Hall. inversion Hall; subst. constructor; auto.
Qed.

Lemma bump_none (k : pykey) (size : json) (d : list (pykey * lang_acc)) :
  bump k size d = None -> ~ In k (map fst d).
Proof.
  induction d as [|[k' a] d IH]; intros H; cbn in *; [tauto|].
  destruct (pykey_eqb k k') eqn:Hk; [discriminate|].
  destruct (bump k size d); [discriminate|].
  intros [Heq|Hin]; [|now apply IH].
  subst k'. assert (pykey_eqb k k = true) by now apply pykey_eqb_eq.
  congruence.
Qed.

(** What the loop over the repository files keeps. *)
Definition tally (stats : list (pykey * lang_acc)) (counted : Z) : Prop :=
  NoDup (map fst stats) /\
  zsum (fun e => acc_repo_count (snd e)) stats = counted /\
  Forall (fun e => (1 <= acc_repo_count (snd e))%Z) stats.

Lemma count_repo_tally (stats stats' : list (pykey * lang_acc))
    (total total' : Z) (repo : json) (counted : Z) :
  count_repo (stats, total) repo = Ret (stats', total') ->
  tally stats counted ->
  tally stats' (counted + (if has_language repo then 1 else 0)).
Proof.
  unfold count_repo, has_language. intros H (Hnd & Hsum & Hall).
  destruct (get repo "language") as [language|]; cbn in H; [|discriminate].
  destruct (get_default repo "size" (JNum 0)) as [size|]; cbn in H;
    [|discriminate].
  destruct (truthy language).
  2:{ inversion H; subst. unfold tally. rewrite Z.add_0_r. auto. }
  destruct (to_key language) as [k|]; cbn in H; [|discriminate].
  destruct (bump k size stats) as [[d1|e]|] eqn:Hb; cbn in H; try discriminate.
  - destruct (int_add total size) as [u|]; cbn in H; [|discriminate].
    inversion H; subst.
    destruct (bump_keys _ _ _ _ Hb) as (Hk & Hc & Hf).
    unfold tally. rewrite Hk, Hc. auto.
  - destruct (int_add 0 size) as [t|]; cbn in H; [|discriminate].
    destruct (int_add total size) as [u|]; cbn in H; [|discriminate].
    inversion H; subst. apply bump_none in Hb.
    unfold tally. rewrite map_app, LanguageStatsProofs.zsum_app. cbn.
    split; [|split; [lia|]].
    + apply NoDup_app; [exact Hnd|repeat constructor; intros []|].
      intros x Hx [<-|[]]. contradiction.
    + apply Forall_app. split; [exact Hall|]. repeat constructor. cbn. lia.
Qed.

Lemma count_repos_tally (repos : list json) :
  forall stats total stats' total' counted,
    count_repos (stats, total) repos = Ret (stats', total') ->
    tally stats counted ->
    tally stats' (counted + Z.of_nat (List.length (filter has_language repos))).
Proof.
  induction repos as [|repo repos IH];
    intros stats total stats' total' counted H Hinv.
  - cbn in H. inversion H; subst. cbn. now rewrite Z.add_0_r.
  - change (rbind (count_repo (stats, total) repo)
                  (fun acc' => count_repos acc' repos) = Ret (stats', total')) in H.
    destruct (count_repo (stats, total) repo) as [[s1 t1]|] eqn:H1;
      cbn [rbind] in H; [|discriminate].
    pose proof (count_repo_tally _ _ _ _ _ _ H1 Hinv) as Hinv1.
    pose proof (IH _ _ _ _ _ H Hinv1) as Hinv2.
    cbn [filter]. destruct (has_language repo); cbn [List.length].
    + replace (counted + Z.of_nat (S (List.length (filter has_language repos))))%Z
        with (counted + 1 + Z.of_nat (List.length (filter has_language repos)))%Z
        by lia.
      exact Hinv2.
    + now rewrite Z.add_0_r in Hinv2.
Qed.

Lemma decreasing_insert_desc (x : pykey * lang_stat)
    (l : list (pykey * lang_stat)) :
  decreasing l -> decreasing (insert_desc x l).
Proof.
  induction l as [|y l IH]; intros Hl; cbn; [auto|].
  destruct Hl as [Hy Hl].
  destruct (Z.leb_spec (total_size_kb (snd y)) (total_size_kb (snd x))).
  - cbn. split; [|split; assumption].
    constructor; [assumption|].
    eapply Forall_impl; [|exact Hy]. cbn. intros z Hz. lia.
  - cbn. split; [|now apply IH].
    apply (Permutation_Forall (Permutation_sym
             (LanguageStatsProofs.insert_desc_perm x l))).
    constructor; [lia|assumption].
Qed.

Lemma decreasing_sorted_desc (l : list (pykey * lang_stat)) :
  decreasing (sorted_desc l).
Proof.
  induction l as [|x l IH]; cbn; [exact I|]. now apply decreasing_insert_desc.
Qed.

(** The languages of the statistics come by decreasing size, each listed
    once, each with at least one repository, and their repository counts
    add up to the number of repositories that name a language:
    repositories without one are left out. *)
Theorem language_stats_ordered_and_counted (repos : list json)
    (langs : list (pykey * lang_stat)) (total : Z) :
  language_stats repos = Ret (langs, total) ->
  decreasing langs /\
  NoDup (map fst langs) /\
  Forall (fun e => (1 <= repo_count (snd e))%Z) langs /\
  zsum (fun e => repo_count (snd e)) langs =
    Z.of_nat (List.length (filter has_language repos)).
Proof.
  unfold language_stats. intros H.
  destruct (count_repos ([], 0%Z) repos) as [[stats t]|] eqn:Hc; cbn in H;
    [|discriminate].
  inversion H; subst langs t. clear H.
  assert (H0 : tally [] 0) by (repeat split; constructor).
  destruct (count_repos_tally _ _ _ _ _ _ Hc H0) as (Hnd & Hsum & Hall).
  pose proof (LanguageStatsProofs.sorted_desc_perm
                (map (with_percentage total) stats)) as Hperm.
  split; [apply decreasing_sorted_desc|]. split; [|split].
  - apply (Permutation_NoDup (Permutation_sym (Permutation_map fst Hperm))).
    rewrite map_map. cbn. exact Hnd.
  - apply (Permutation_Forall (Permutation_sym Hperm)).
    apply Forall_map. cbn. exact Hall.
  - rewrite LanguageStatsProofs.zsum_sorted_desc, LanguageStatsProofs.zsum_map.
    cbn. exact Hsum.
Qed.

(** The four demo repositories: Python before OCaml, three of the four
    counted. *)
Lemma language_stats_ordered_and_counted_witness :
  decreasing Examples.demo_langs /\
  NoDup (map fst Examples.demo_langs) /\
  Forall (fun e => (1 <= repo_count (snd e))%Z) Examples.demo_langs /\
  zsum (fun e => repo_count (snd e)) Examples.demo_langs = 3%Z.
Proof.
  apply (language_stats_ordered_and_counted Examples.demo_repos
           Examples.demo_langs 400).
  reflexivity.
Defined.

(** *** The repository statistics *)

Lemma bump_by_lang_keys (k : pykey) (stars forks : json)
    (d d' : list (pykey * by_lang)) :
  bump_by_lang k stars forks d = Some (Ret d') ->
  map fst d' = map fst d /\
  zsum (fun e => bl_repos (snd e)) d' = (zsum (fun e => bl_repos (snd e)) d + 1)%Z /\
  zsum (fun e => bl_stars (snd e)) d' =
    (zsum (fun e => bl_stars (snd e)) d + int_value stars)%Z /\
  zsum (fun e => bl_forks (snd e)) d' =
    (zsum (fun e => bl_forks (snd e)) d + int_value forks)%Z.
Proof.
  revert d'. induction d as [|[k' a] d IH]; intros d' H; cbn in H; [discriminate|].
  destruct (pykey_eqb k k').
  - inversion H as [H1]. clear H.
    destruct (int_add (bl_stars a) stars) as [st|] eqn:Hst; cbn in H1;
      [|discriminate].
    destruct (int_add (bl_forks a) forks) as [fk|] eqn:Hfk; cbn in H1;
      [|discriminate].
    inversion H1; subst. apply int_add_value in Hst, Hfk. cbn.
    repeat split; lia.
  - destruct (bump_by_lang k stars forks d) as [[d1|e]|]; cbn in H;
      try discriminate.
    inversion H; subst. destruct (IH d1 eq_refl) as (Hk & Hr & Hs & Hf).
    cbn. split; [now rewrite Hk|]. repeat split; lia.
Qed.

Lemma bump_by_lang_none (k : pykey) (stars forks : json)
    (d : list (pykey * by_lang)) :
  bump_by_lang k stars forks d = None -> ~ In k (map fst d).
Proof.
  induction d as [|[k' a] d IH]; intros H; cbn in *; [tauto|].
  destruct (pykey_eqb k k') eqn:Hk; [discriminate|].
  destruct (bump_by_lang k stars forks d); [discriminate|].
  intros [Heq|Hin]; [|now apply IH].
  subst k'. assert (pykey_eqb k k = true) by now apply pykey_eqb_eq.
  congruence.
Qed.

(** What the loop of [fetch_repository_stats] keeps, over the repositories
    read so far. *)
Definition totals_of (t : repo_totals) (repos : list json) : Prop :=
  total_stars t = zsum (field_value "stars") repos /\
  total_forks t = zsum (field_value "forks") repos /\
  NoDup (map fst (by_language t)) /\
  zsum (fun e => bl_repos (snd e)) (by_language t) =
    Z.of_nat (List.length (filter has_language repos)) /\
  zsum (fun e => bl_stars (snd e)) (by_language t) =
    zsum (field_value "stars") (filter has_language repos) /\
  zsum (fun e => bl_forks (snd e)) (by_language t) =
    zsum (field_value "forks") (filter has_language repos).

Lemma filter_snoc {A : Type} (f : A -> bool) (l : list A) (x : A) :
  filter f (l ++ [x]) = filter f l ++ (if f x then [x] else []).
Proof. rewrite filter_app. cbn. destruct (f x); reflexivity. Qed.

Lemma total_repo_totals (acc acc' : repo_totals) (repo : json)
    (seen : list json) :
  total_repo acc repo = Ret acc' ->
  totals_of acc seen -> totals_of acc' (seen ++ [repo]).
Proof.
  unfold total_repo. intros H (Hs & Hf & Hnd & Hr & Hbs & Hbf).
  destruct (get_default repo "stars" (JNum 0)) as [stars|] eqn:Gs;
    cbn [rbind] in H; [|discriminate].
  destruct (int_add (total_stars acc) stars) as [ts|] eqn:Hts; cbn [rbind] in H;
    [|discriminate].
  destruct (get_default repo "forks" (JNum 0)) as [forks|] eqn:Gf;
    cbn [rbind] in H; [|discriminate].
  destruct (int_add (total_forks acc) forks) as [tf|] eqn:Htf; cbn [rbind] in H;
    [|discriminate].
  apply int_add_value in Hts, Htf.
  destruct (get repo "language") as [language|] eqn:Gl; cbn [rbind] in H;
    [|discriminate].
  assert (Fs : field_value "stars" repo = int_value stars)
    by (unfold field_value; now rewrite Gs).
  assert (Ff : field_value "forks" repo = int_value forks)
    by (unfold field_value; now rewrite Gf).
  assert (Hl : has_language repo = truthy language)
    by (unfold has_language; now rewrite Gl).
  unfold totals_of.
  rewrite filter_snoc, !LanguageStatsProofs.zsum_app, length_app, Hl.
  cbn [zsum]. rewrite Fs, Ff.
  destruct (truthy language).
  2:{ inversion H; subst. cbn. repeat split; auto; lia. }
  destruct (to_key language) as [k|]; cbn [rbind] in H; [|discriminate].
  cbn [zsum List.length]. rewrite Fs, Ff.
  destruct (bump_by_lang k stars forks (by_language acc)) as [[bl|e]|] eqn:Hb;
    cbn [rbind] in H; try discriminate.
  - inversion H; subst. cbn.
    destruct (bump_by_lang_keys _ _ _ _ _ Hb) as (Hk & Hr1 & Hs1 & Hf1).
    rewrite Hk, Hr1, Hs1, Hf1. repeat split; auto; lia.
  - destruct (int_add 0 stars) as [st|] eqn:Hst; cbn [rbind] in H;
      [|discriminate].
    destruct (int_add 0 forks) as [fk|] eqn:Hfk; cbn [rbind] in H;
      [|discriminate].
    apply int_add_value in Hst, Hfk.
    inversion H; subst. apply bump_by_lang_none in Hb. cbn.
    rewrite map_app, !LanguageStatsProofs.zsum_app. cbn.
    split; [lia|]. split; [lia|]. split; [|repeat split; lia].
    apply NoDup_app; [exact Hnd|repeat constructor; intros []|].
    intros x Hx [<-|[]]. contradiction.
Qed.

Lemma total_repos_totals (repos : list json) :
  forall acc acc' seen,
    total_repos acc repos = Ret acc' ->
    totals_of acc seen -> totals_of acc' (seen ++ repos).
Proof.
  induction repos as [|repo repos IH]; intros acc acc' seen H Hinv.
  - cbn in H. inversion H; subst. now rewrite app_nil_r.
  - cbn [total_repos] in H.
    destruct (total_repo acc repo) as [acc1|] eqn:H1; cbn [rbind] in H;
      [|discriminate].
    replace (seen ++ repo :: repos) with ((seen ++ [repo]) ++ repos)
      by now rewrite <- app_assoc.
    eapply IH; [exact H|]. eapply total_repo_totals; eauto.
Qed.

(** The totals of [fetch_repository_stats]: stars and forks are summed
    over all repositories of the list, a missing field counting as 0; the
    figures by language cover the repositories that name a language, each
    language being listed once. *)
Theorem repository_totals_are_sums (repos : list json) (t : repo_totals) :
  total_repos {| total_stars := 0; total_forks := 0; by_language := [] |} repos
    = Ret t ->
  total_stars t = zsum (field_value "stars") repos /\
  total_forks t = zsum (field_value "forks") repos /\
  NoDup (map fst (by_language t)) /\
  zsum (fun e => bl_repos (snd e)) (by_language t) =
    Z.of_nat (List.length (filter has_language repos)) /\
  zsum (fun e => bl_stars (snd e)) (by_language t) =
    zsum (field_value "stars") (filter has_language repos) /\
  zsum (fun e => bl_forks (snd e)) (by_language t) =
    zsum (field_value "forks") (filter has_language repos).
Proof.
  intros H.
  apply (total_repos_totals repos _ t [] H).
  repeat split; constructor.
Qed.

(** Three repositories, two of them in Python: 14 stars in all, 12 of them
    under a language. *)
Lemma repository_totals_are_sums_witness :
  exists t,
    total_repos {| total_stars := 0; total_forks := 0; by_language := [] |}
      Examples.demo_summaries = Ret t /\
    total_stars t = 14%Z /\ total_forks t = 4%Z /\
    zsum (fun e => bl_stars (snd e)) (by_language t) = 12%Z.
Proof.
  eexists. split; [reflexivity|].
  destruct (repository_totals_are_sums Examples.demo_summaries _ eq_refl)
    as (Hs & Hf & _ & _ & Hbs & _).
  rewrite Hs, Hf, Hbs. repeat split; reflexivity.
Defined.

(** *** The requests of the pagination loop *)

Lemma requests_app (t u : list event) : requests (t ++ u) = requests t ++ requests u.
Proof. unfold requests. apply filter_app. Qed.

Lemma dict_get_set_other {V : Type} (k k' : string) (v : V) (d : dict V) :
  String.eqb k' k = false -> dict_get k' (dict_set k v d) = dict_get k' d.
Proof.
  intros Hk. induction d as [|[k0 v0] d IH]; cbn.
  - now rewrite Hk.
  - destruct (String.eqb k k0) eqn:Hk0; cbn.
    + apply String.eqb_eq in Hk0. subst k0. now rewrite Hk.
    + destruct (String.eqb k' k0); auto.
Qed.

(** One turn of the loop, after its progress line: one request goes out,
    with the parameters of the turn; nothing is written. *)
Lemma page_turn (E : env) (endpoint : string) (ps : dict json) (page : nat)
    (acc : list json) (s : state) :
  exists r s1 tr,
    try_except (page_body E endpoint ps acc) is_Exception
      (fun e => print Stderr (MPageError page e) ;; ret (Break, acc)) s
      = Some (r, s1) /\
    st_trace s1 = st_trace s ++ tr /\
    requests tr = [Get endpoint (Some ps)] /\
    written tr = [] /\
    requests_made (st_stats s1) = S (requests_made (st_stats s)) /\
    st_files s1 = st_files s.
Proof.
  unfold try_except, page_body, bind, lift, ret, print, log.
  destruct (make_request_shape E endpoint (Some ps) s)
    as (r0 & s0 & Heq & Hn & _ & Hfs & Hr).
  rewrite Heq.
  assert (Hquiet : exists tr,
            st_trace s0 = st_trace s ++ tr /\
            requests tr = [Get endpoint (Some ps)] /\ written tr = []).
  { destruct r0 as [response|e].
    - destruct Hr as (_ & _ & _ & Ht). eauto.
    - destruct Hr as (_ & Hr).
      destruct (is_RequestException e); destruct Hr as (_ & Ht); eauto. }
  destruct Hquiet as (tr0 & Ht0 & Hq0 & Hw0).
  assert (Hplain : forall r,
            exists (r' : result (ctl * list json)) s1 tr,
              Some (r, s0) = Some (r', s1) /\
              st_trace s1 = st_trace s ++ tr /\
              requests tr = [Get endpoint (Some ps)] /\
              written tr = [] /\
              requests_made (st_stats s1) = S (requests_made (st_stats s)) /\
              st_files s1 = st_files s).
  { intros r. exists r, s0, tr0. auto 10. }
  assert (Hcaught : forall e,
            exists (r' : result (ctl * list json)) s1 tr,
              Some (Ret (Break, acc),
                    {| st_stats := st_stats s0; st_files := st_files s0;
                       st_dirs := st_dirs s0;
                       st_trace := st_trace s0 ++ [Print Stderr (MPageError page e)] |})
                = Some (r', s1) /\
              st_trace s1 = st_trace s ++ tr /\
              requests tr = [Get endpoint (Some ps)] /\
              written tr = [] /\
              requests_made (st_stats s1) = S (requests_made (st_stats s)) /\
              st_files s1 = st_files s).
  { intros e. eexists; eexists; exists (tr0 ++ [Print Stderr (MPageError page e)]).
    split; [reflexivity|]. cbn [st_stats st_files st_dirs st_trace].
    rewrite Ht0, requests_app, written_app, Hq0, Hw0, <- app_assoc. auto 10. }
  destruct r0 as [response|e].
  - destruct (response_json response) as [data|e].
    + destruct (negb (truthy data)); [apply Hplain|].
      destruct (iterate data) as [items|e].
      * destruct (negb (contains rel_next _)); apply Hplain.
      * destruct (is_Exception e); [apply Hcaught|apply Hplain].
    + destruct (is_Exception e); [apply Hcaught|apply Hplain].
  - destruct (is_Exception e); [apply Hcaught|apply Hplain].
Qed.

Lemma fetch_pages_requests (E : env) (endpoint : string) (ps0 : dict json)
    (fuel : nat) :
  forall ps page acc s r s',
    (forall v, dict_set "page" v ps = dict_set "page" v ps0) ->
    fetch_pages E fuel endpoint ps page acc s = Some (r, s') ->
    exists tr n,
      st_trace s' = st_trace s ++ tr /\
      1 <= n /\
      requests tr =
        map (fun k => Get endpoint (Some (dict_set "page" (JNum (Z.of_nat k)) ps0)))
            (seq page n) /\
      written tr = [] /\
      requests_made (st_stats s') = requests_made (st_stats s) + n /\
      st_files s' = st_files s.
Proof.
  induction fuel as [|fuel IH]; intros ps page acc s r s' Hps H; [discriminate|].
  cbn [fetch_pages] in H. unfold bind at 1, print at 1, log in H.
  set (s0 := {| st_stats := st_stats s; st_files := st_files s;
                st_dirs := st_dirs s;
                st_trace := st_trace s ++ [Print Stdout (MPage page)] |}) in H.
  unfold bind at 1 in H.
  set (ps1 := dict_set "page" (JNum (Z.of_nat page)) ps) in *.
  assert (Hps1 : ps1 = dict_set "page" (JNum (Z.of_nat page)) ps0)
    by (unfold ps1; apply Hps).
  destruct (page_turn E endpoint ps1 page acc s0)
    as (r1 & s1 & tr1 & Heq & Ht1 & Hq1 & Hw1 & Hn1 & Hf1).
  rewrite Heq in H.
  assert (Hstop : exists tr n,
            st_trace s1 = st_trace s ++ tr /\
            1 <= n /\
            requests tr =
              map (fun k => Get endpoint
                              (Some (dict_set "page" (JNum (Z.of_nat k)) ps0)))
                  (seq page n) /\
            written tr = [] /\
            requests_made (st_stats s1) = requests_made (st_stats s) + n /\
            st_files s1 = st_files s).
  { exists (Print Stdout (MPage page) :: tr1), 1.
    split; [rewrite Ht1; cbn; now rewrite <- app_assoc|].
    split; [lia|].
    split; [cbn; unfold requests in Hq1; rewrite Hq1, Hps1; reflexivity|].
    split; [exact Hw1|]. split; [rewrite Hn1; cbn; lia|exact Hf1]. }
  destruct r1 as [[[|] acc1]|e1].
  - inversion H; subst r s'. exact Hstop.
  - apply IH in H.
    2:{ intros v. unfold ps1. rewrite PaginationProofs.dict_set_set. apply Hps. }
    destruct H as (tr & n & Ht & Hn & Hq & Hw & Hm & Hf).
    exists (Print Stdout (MPage page) :: tr1 ++ tr), (S n).
    split; [rewrite Ht, Ht1; cbn; now rewrite <- !app_assoc|].
    split; [lia|]. split.
    { change (Print Stdout (MPage page) :: tr1 ++ tr)
        with ([Print Stdout (MPage page)] ++ tr1 ++ tr).
      rewrite !requests_app, Hq1, Hq, Hps1. reflexivity. }
    split; [change (Print Stdout (MPage page) :: tr1 ++ tr)
              with ([Print Stdout (MPage page)] ++ tr1 ++ tr);
            rewrite !written_app, Hw1, Hw; reflexivity|].
    split; [rewrite Hm, Hn1; cbn; lia|].
    rewrite Hf, Hf1. reflexivity.
  - inversion H; subst r s'. exact Hstop.
Qed.

(** Whatever the server answers, a pagination loop that ends has asked for
    the pages 1, 2, ..., n of its endpoint, once each and in this order,
    with at least one request; every request carries [per_page] = 100, its
    page number and the caller's other parameters; the loop writes no
    file. *)
Theorem pagination_requests_consecutive_pages (E : env) (fuel : nat)
    (endpoint : string) (params : option (dict json))
    (s : state) (r : result (list json)) (s' : state) :
  _fetch_paginated_data E fuel endpoint params s = Some (r, s') ->
  exists tr n,
    st_trace s' = st_trace s ++ tr /\
    1 <= n /\
    requests tr =
      map (fun k => Get endpoint (Some (page_request params k))) (seq 1 n) /\
    requests_made (st_stats s') = requests_made (st_stats s) + n /\
    written tr = [] /\ st_files s' = st_files s /\
    forall k,
      dict_get "page" (page_request params k) = Some (JNum (Z.of_nat k)) /\
      dict_get "per_page" (page_request params k) = Some (JNum 100) /\
      forall key, String.eqb key "page" = false ->
                  String.eqb key "per_page" = false ->
                  dict_get key (page_request params k) =
                  dict_get key match params with Some p => p | None => [] end.
Proof.
  intros H. unfold _fetch_paginated_data in H.
  apply (fetch_pages_requests E endpoint (page_params params)) in H; [|reflexivity].
  destruct H as (tr & n & Ht & Hn & Hq & Hw & Hm & Hf).
  exists tr, n. repeat (split; [assumption|]).
  intros k. unfold page_request, page_params.
  split; [apply PaginationProofs.dict_get_set_same|].
  split.
  - rewrite dict_get_set_other by reflexivity.
    apply PaginationProofs.dict_get_set_same.
  - intros key H1 H2. now rewrite !dict_get_set_other.
Qed.

(** The gist server asked by a loop with fuel for five pages: two
    requests, for pages 1 and 2. *)
Lemma pagination_requests_consecutive_pages_witness :
  exists r s' tr,
    _fetch_paginated_data Examples.gist_server 5 "/users/octocat/gists"
      (Some [("sort", JStr "created")]) (initial_state [] []) = Some (r, s') /\
    st_trace s' = tr /\
    requests tr =
      [Get "/users/octocat/gists"
         (Some [("sort", JStr "created"); ("per_page", JNum 100); ("page", JNum 1)]);
       Get "/users/octocat/gists"
         (Some [("sort", JStr "created"); ("per_page", JNum 100); ("page", JNum 2)])].
Proof.
  destruct (_fetch_paginated_data Examples.gist_server 5 "/users/octocat/gists"
              (Some [("sort", JStr "created")]) (initial_state [] []))
    as [[r s']|] eqn:Heq; [|vm_compute in Heq; discriminate].
  destruct (pagination_requests_consecutive_pages _ _ _ _ _ _ _ Heq)
    as (tr & n & Ht & Hn & Hq & Hm & _).
  exists r, s', tr. split; [reflexivity|]. split; [exact Ht|].
  assert (Hn2 : n = 2).
  { vm_compute in Heq. inversion Heq; subst. cbn in Hm. lia. }
  rewrite Hq, Hn2. reflexivity.
Defined.

(** *** What the summary gets to list *)

(** The keys of [data_fetched] are never removed. *)
Definition keys_kept (s s' : state) : Prop :=
  forall k, dict_get k (data_fetched (st_stats s)) <> None ->
            dict_get k (data_fetched (st_stats s')) <> None.

Definition keeps {A : Type} (m : M A) : Prop :=
  forall s r s', m s = Some (r, s') -> keys_kept s s'.

Lemma keys_kept_same (s s' : state) :
  data_fetched (st_stats s') = data_fetched (st_stats s) -> keys_kept s s'.
Proof. intros H k. now rewrite H. Qed.

Lemma keys_kept_trans (s s1 s' : state) :
  keys_kept s s1 -> keys_kept s1 s' -> keys_kept s s'.
Proof. intros H1 H2 k Hk. apply H2, H1, Hk. Qed.

Lemma dict_get_set_some {V : Type} (k key : string) (v : V) (d : dict V) :
  dict_get k d <> None -> dict_get k (dict_set key v d) <> None.
Proof.
  induction d as [|[k0 v0] d IH]; cbn; [tauto|].
  destruct (String.eqb key k0) eqn:Hkey; cbn.
  - destruct (String.eqb k k0); [discriminate|auto].
  - destruct (String.eqb k k0); [discriminate|auto].
Qed.

Lemma keeps_ret {A : Type} (a : A) : keeps (ret a).
Proof. intros s r s' H. inversion H; subst. now apply keys_kept_same. Qed.

Lemma keeps_raise {A : Type} (e : exn) : keeps (@raise A e).
Proof. intros s r s' H. inversion H; subst. now apply keys_kept_same. Qed.

Lemma keeps_lift {A : Type} (r : result A) : keeps (lift r).
Proof. intros s r' s' H. inversion H; subst. now apply keys_kept_same. Qed.

Lemma keeps_get_state : keeps get_state.
Proof. intros s r s' H. inversion H; subst. now apply keys_kept_same. Qed.

Lemma keeps_log (ev : event) : keeps (log ev).
Proof. intros s r s' H. inversion H; subst. now apply keys_kept_same. Qed.

Lemma keeps_set_fetched (key : string) (v : json) : keeps (set_fetched key v).
Proof.
  intros s r s' H. inversion H; subst. intros k Hk. cbn.
  now apply dict_get_set_some.
Qed.

Lemma keeps_mkdir (E : env) (d : path) : keeps (mkdir E d).
Proof.
  intros s r s' H. unfold mkdir in H.
  destruct (mkdir_raises E d); inversion H; subst; now apply keys_kept_same.
Qed.

Lemma keeps_write_json (E : env) (p : path) (data : json) :
  keeps (write_json E p data).
Proof.
  intros s r s' H. unfold write_json in H.
  destruct (open_raises E p); inversion H; subst; now apply keys_kept_same.
Qed.

Lemma keeps_bind {A B : Type} (m : M A) (k : A -> M B) :
  keeps m -> (forall a, keeps (k a)) -> keeps (bind m k).
Proof.
  intros Hm Hk s r s' H. unfold bind in H.
  destruct (m s) as [[[a|e] s1]|] eqn:Hms; [| |discriminate].
  - eapply keys_kept_trans; [eapply Hm; eauto|eapply Hk; eauto].
  - inversion H; subst. eapply Hm; eauto.
Qed.

Lemma keeps_try_except {A : Type} (m : M A) (c : exn -> bool) (h : exn -> M A) :
  keeps m -> (forall e, keeps (h e)) -> keeps (try_except m c h).
Proof.
  intros Hm Hh s r s' H. unfold try_except in H.
  destruct (m s) as [[[a|e] s1]|] eqn:Hms; [| |discriminate].
  - inversion H; subst. eapply Hm; eauto.
  - destruct (c e).
    + eapply keys_kept_trans; [eapply Hm; eauto|eapply Hh; eauto].
    + inversion H; subst. eapply Hm; eauto.
Qed.

Lemma keeps_for_each {A : Type} (xs : list A) (f : A -> M unit) :
  (forall x, keeps (f x)) -> keeps (for_each xs f).
Proof.
  intros Hf. induction xs as [|x xs IH]; cbn [for_each]; [apply keeps_ret|].
  apply keeps_bind; auto.
Qed.

Lemma keeps_make_request (E : env) (endpoint : string)
    (params : option (dict json)) :
  keeps (_make_request E endpoint params).
Proof.
  intros s r s' H.
  destruct (make_request_shape E endpoint params s)
    as (r0 & s0 & Heq & _ & Hd & _).
  rewrite Heq in H. inversion H; subst. now apply keys_kept_same.
Qed.

Lemma keeps_make_graphql_request (E : env) (query : string) :
  keeps (_make_graphql_request E query).
Proof.
  intros s r s' H. apply keys_kept_same.
  unfold _make_graphql_request, bind, count_request, modify_stats, try_except,
    log, lift, raise, append_error, print, log, modify_stats in H.
  cbn [st_stats st_files st_dirs st_trace] in H.
  destruct (session_post E query) as [response|e].
  - destruct (raise_for_status response) as [[]|e].
    + destruct (response_json response) as [j|e].
      * inversion H; subst. reflexivity.
      * destruct (is_RequestException e); inversion H; subst; reflexivity.
    + destruct (is_RequestException e); inversion H; subst; reflexivity.
  - destruct (is_RequestException e); inversion H; subst; reflexivity.
Qed.

Ltac keeps_step :=
  lazymatch goal with
  | |- keeps (bind _ _) => apply keeps_bind; [|intros ?]
  | |- keeps (ret _) => apply keeps_ret
  | |- keeps (raise _) => apply keeps_raise
  | |- keeps (lift _) => apply keeps_lift
  | |- keeps get_state => apply keeps_get_state
  | |- keeps (_make_request _ _ _) => apply keeps_make_request
  | |- keeps (_make_graphql_request _ _) => apply keeps_make_graphql_request
  | |- keeps (print _ _) => apply keeps_log
  | |- keeps (log _) => apply keeps_log
  | |- keeps (set_fetched _ _) => apply keeps_set_fetched
  | |- keeps (mkdir _ _) => apply keeps_mkdir
  | |- keeps (write_json _ _ _) => apply keeps_write_json
  | |- keeps (try_except _ _ _) => apply keeps_try_except; [|intros ?]
  | |- keeps (for_each _ _) => apply keeps_for_each; intros ?
  | |- keeps (if ?c then _ else _) => destruct c
  | |- keeps (match ?x with _ => _ end) => destruct x
  | |- keeps (let (_, _) := ?x in _) => destruct x
  end.

Lemma keeps_fetch_pages (E : env) (fuel : nat) :
  forall endpoint params page acc,
    keeps (fetch_pages E fuel endpoint params page acc).
Proof.
  induction fuel as [|fuel IH]; intros endpoint params page acc;
    [intros s r s' H; discriminate|].
  cbn [fetch_pages]. unfold page_body.
  repeat first [ apply IH | keeps_step ].
Qed.

Ltac keeps_method :=
  unfold fetch_profile, fetch_repositories, fetch_gists,
    fetch_starred, fetch_followers, fetch_following, fetch_organizations,
    fetch_events, fetch_subscriptions, fetch_contribution_calendar,
    fetch_pull_requests, fetch_issues, fetch_search, fetch_language_stats,
    fetch_repository_stats, guarded, _fetch_paginated_data, _save_json;
  repeat first [ apply keeps_fetch_pages | keeps_step ].

(** When [m] returns, [data_fetched] has an entry for [what]. *)
Definition records {A : Type} (what : string) (m : M A) : Prop :=
  forall s a s', m s = Some (Ret a, s') ->
                 dict_get what (data_fetched (st_stats s')) <> None.

Lemma records_set_fetched (what : string) (v : json) :
  records what (set_fetched what v).
Proof.
  intros s a s' H. inversion H; subst. cbn.
  rewrite PaginationProofs.dict_get_set_same. discriminate.
Qed.

Lemma records_bind_l {A B : Type} (what : string) (m : M A) (k : A -> M B) :
  records what m -> (forall a, keeps (k a)) -> records what (bind m k).
Proof.
  intros Hm Hk s b s' H. unfold bind in H.
  destruct (m s) as [[[a|e] s1]|] eqn:Hms; try discriminate.
  eapply Hk; [exact H|]. eapply Hm; eauto.
Qed.

Lemma records_bind_r {A B : Type} (what : string) (m : M A) (k : A -> M B) :
  (forall a, records what (k a)) -> records what (bind m k).
Proof.
  intros Hk s b s' H. unfold bind in H.
  destruct (m s) as [[[a|e] s1]|] eqn:Hms; try discriminate.
  eapply Hk; eauto.
Qed.

Lemma records_try_except {A : Type} (what : string) (m : M A)
    (c : exn -> bool) (h : exn -> M A) :
  records what m -> (forall e, records what (h e)) ->
  records what (try_except m c h).
Proof.
  intros Hm Hh s a s' H. unfold try_except in H.
  destruct (m s) as [[[a0|e] s1]|] eqn:Hms; try discriminate.
  - inversion H; subst. eapply Hm; eauto.
  - destruct (c e); [eapply Hh; eauto|discriminate].
Qed.

Ltac records_step :=
  lazymatch goal with
  | |- records ?w (bind (set_fetched ?w _) _) =>
      apply records_bind_l; [apply records_set_fetched|intros ?; keeps_method]
  | |- records ?w (set_fetched ?w _) => apply records_set_fetched
  | |- records _ (bind _ _) => apply records_bind_r; intros ?
  | |- records _ (try_except _ _ _) => apply records_try_except; [|intros ?]
  | |- records _ (if ?c then _ else _) => destruct c
  | |- records _ (match ?x with _ => _ end) => destruct x
  | |- records _ (let (_, _) := ?x in _) => destruct x
  end.

Section Records.

Variable E : env.
Variable username : string.
Variable fuel : nat.

Lemma records_fetch_profile : records "profile" (fetch_profile E username).
Proof. unfold fetch_profile. repeat records_step. Qed.

Lemma records_fetch_repositories :
  records "repositories" (fetch_repositories E username fuel).
Proof. unfold fetch_repositories. repeat records_step. Qed.

Lemma records_fetch_gists : records "gists" (fetch_gists E username fuel).
Proof. unfold fetch_gists. repeat records_step. Qed.

Lemma records_fetch_starred : records "starred" (fetch_starred E username fuel).
Proof. unfold fetch_starred. repeat records_step. Qed.

Lemma records_fetch_followers :
  records "followers" (fetch_followers E username fuel).
Proof. unfold fetch_followers. repeat records_step. Qed.

Lemma records_fetch_following :
  records "following" (fetch_following E username fuel).
Proof. unfold fetch_following. repeat records_step. Qed.

Lemma records_fetch_organizations :
  records "organizations" (fetch_organizations E username fuel).
Proof. unfold fetch_organizations, guarded. repeat records_step. Qed.

Lemma records_fetch_events : records "events" (fetch_events E username fuel).
Proof. unfold fetch_events, guarded. repeat records_step. Qed.

Lemma records_fetch_subscriptions :
  records "subscriptions" (fetch_subscriptions E username fuel).
Proof. unfold fetch_subscriptions, guarded. repeat records_step. Qed.

Lemma records_fetch_contribution_calendar :
  records "contribution_calendar" (fetch_contribution_calendar E username).
Proof.
  unfold fetch_contribution_calendar, guarded. repeat records_step.
Qed.

Lemma records_fetch_pull_requests :
  records "pull_requests" (fetch_pull_requests E username).
Proof. unfold fetch_pull_requests, fetch_search, guarded. repeat records_step. Qed.

Lemma records_fetch_issues : records "issues" (fetch_issues E username).
Proof. unfold fetch_issues, fetch_search, guarded. repeat records_step. Qed.

End Records.

Ltac find_record lemma :=
  first [ apply records_bind_l; [apply lemma|intros ?; keeps_method]
        | apply lemma
        | apply records_bind_r; intros ?; find_record lemma ].

(** When the fetch sequence runs to its end, [data_fetched] has an entry
    for the profile and for each of the ten collections, whether their
    requests succeeded or not, and one for the contribution calendar when
    a token was given. *)
Theorem completed_sequence_records_every_fetch (E : env) (username : string)
    (token : option string) (fuel : nat) (s s' : state) :
  fetch_sequence E username token fuel s = Some (Ret tt, s') ->
  Forall (fun what => dict_get what (data_fetched (st_stats s')) <> None)
    ["profile"; "repositories"; "gists"; "starred"; "followers"; "following";
     "organizations"; "events"; "subscriptions"; "pull_requests"; "issues"] /\
  (token_given token = true ->
   dict_get "contribution_calendar" (data_fetched (st_stats s')) <> None).
Proof.
  intros H. split.
  - repeat constructor.
    + revert H. generalize s tt s'. change (records "profile" (fetch_sequence E username token fuel)).
      unfold fetch_sequence. find_record (records_fetch_profile E username).
    + revert H. generalize s tt s'. change (records "repositories" (fetch_sequence E username token fuel)).
      unfold fetch_sequence. find_record (records_fetch_repositories E username fuel).
    + revert H. generalize s tt s'. change (records "gists" (fetch_sequence E username token fuel)).
      unfold fetch_sequence. find_record (records_fetch_gists E username fuel).
    + revert H. generalize s tt s'. change (records "starred" (fetch_sequence E username token fuel)).
      unfold fetch_sequence. find_record (records_fetch_starred E username fuel).
    + revert H. generalize s tt s'. change (records "followers" (fetch_sequence E username token fuel)).
      unfold fetch_sequence. find_record (records_fetch_followers E username fuel).
    + revert H. generalize s tt s'. change (records "following" (fetch_sequence E username token fuel)).
      unfold fetch_sequence. find_record (records_fetch_following E username fuel).
    + revert H. generalize s tt s'. change (records "organizations" (fetch_sequence E username token fuel)).
      unfold fetch_sequence. find_record (records_fetch_organizations E username fuel).
    + revert H. generalize s tt s'. change (records "events" (fetch_sequence E username token fuel)).
      unfold fetch_sequence. find_record (records_fetch_events E username fuel).
    + revert H. generalize s tt s'. change (records "subscriptions" (fetch_sequence E username token fuel)).
      unfold fetch_sequence. find_record (records_fetch_subscriptions E username fuel).
    + revert H. generalize s tt s'. change (records "pull_requests" (fetch_sequence E username token fuel)).
      unfold fetch_sequence. find_record (records_fetch_pull_requests E username).
    + revert H. generalize s tt s'. change (records "issues" (fetch_sequence E username token fuel)).
      unfold fetch_sequence. find_record (records_fetch_issues E username).
  - intros Htok. revert H. generalize s tt s'.
    change (records "contribution_calendar" (fetch_sequence E username token fuel)).
    unfold fetch_sequence. rewrite Htok.
    find_record (records_fetch_contribution_calendar E username).
Qed.

(** The run for octocat while the repositories endpoint is down: the
    sequence ends, every fetch has its entry, and the language statistics,
    which found no repository details, have none. *)
Lemma completed_sequence_records_every_fetch_witness :
  exists s',
    fetch_sequence Examples.repos_down "octocat" None 1 (initial_state [] [])
      = Some (Ret tt, s') /\
    Forall (fun what => dict_get what (data_fetched (st_stats s')) <> None)
      ["profile"; "repositories"; "gists"; "starred"; "followers"; "following";
       "organizations"; "events"; "subscriptions"; "pull_requests"; "issues"] /\
    dict_get "contribution_calendar" (data_fetched (st_stats s')) = None /\
    dict_get "language_stats" (data_fetched (st_stats s')) = None.
Proof.
  destruct (fetch_sequence Examples.repos_down "octocat" None 1
              (initial_state [] [])) as [[[[]|e] s']|] eqn:Heq;
    try (vm_compute in Heq; discriminate).
  exists s'. split; [reflexivity|].
  split; [apply (completed_sequence_records_every_fetch _ _ _ _ _ _ Heq)|].
  vm_compute in Heq. inversion Heq; subst. split; reflexivity.
Defined.

(** *** Failures at the edges of a run *)

(** A contribution-calendar fetch whose GraphQL request fails returns all
    the same: one request is counted, the failure is printed, the error is
    recorded when it is a [RequestException], the count recorded for the
    calendar is 0 and no file is written. *)
Theorem calendar_request_failure_records_zero (E : env) (username : string)
    (s : state) (e : exn) :
  post_fails E (calendar_query username) e ->
  is_Exception e = true ->
  exists s' tr,
    fetch_contribution_calendar E username s = Some (Ret tt, s') /\
    st_trace s' = st_trace s ++ tr /\
    requests tr = [Post (calendar_query username)] /\
    written tr = [] /\
    st_files s' = st_files s /\
    In (Print Stderr (MFailed "contribution_calendar" (Some e))) tr /\
    requests_made (st_stats s') = S (requests_made (st_stats s)) /\
    errors (st_stats s') =
      errors (st_stats s) ++ (if is_RequestException e then [ErrGraphQL e] else []) /\
    dict_get "contribution_calendar" (data_fetched (st_stats s')) = Some (JNum 0).
Proof.
  intros Hfail Hexn.
  unfold fetch_contribution_calendar, guarded, _make_graphql_request.
  unfold bind, print, log, try_except, count_request, modify_stats, lift, raise,
    append_error, set_fetched, print, log, modify_stats.
  cbn [st_stats st_files st_dirs st_trace requests_made data_fetched errors].
  assert (Hreq : (exists r, session_post E (calendar_query username) = Ret r) ->
                 is_RequestException e = true).
  { intros [r Hr].
    destruct Hfail as [H|[(r' & H & Hst)|(r' & H & Hst & Hjs)]].
    - congruence.
    - unfold raise_for_status in Hst.
      destruct (_ && _)%bool; inversion Hst; reflexivity.
    - unfold response_json in Hjs. destruct (body r'); inversion Hjs; reflexivity. }
  destruct Hfail as [H|[(r & H & Hst)|(r & H & Hst & Hjs)]]; rewrite H.
  - destruct (is_RequestException e);
      cbn [st_stats st_files st_dirs st_trace requests_made data_fetched errors];
      rewrite Hexn;
      cbn [st_stats st_files st_dirs st_trace requests_made data_fetched errors];
      eexists; eexists; (split; [reflexivity|]);
      cbn [st_stats st_files st_dirs st_trace requests_made data_fetched errors];
      (split; [rewrite <- !app_assoc; reflexivity|]);
      rewrite PaginationProofs.dict_get_set_same, ?app_nil_r; cbn; auto 12.
  - rewrite Hst, (Hreq (ex_intro _ r H)).
    cbn [st_stats st_files st_dirs st_trace requests_made data_fetched errors].
    rewrite Hexn.
    cbn [st_stats st_files st_dirs st_trace requests_made data_fetched errors].
    eexists; eexists; (split; [reflexivity|]).
    cbn [st_stats st_files st_dirs st_trace requests_made data_fetched errors].
    split; [rewrite <- !app_assoc; reflexivity|].
    rewrite PaginationProofs.dict_get_set_same. cbn. auto 12.
  - rewrite Hst, Hjs, (Hreq (ex_intro _ r H)).
    cbn [st_stats st_files st_dirs st_trace requests_made data_fetched errors].
    rewrite Hexn.
    cbn [st_stats st_files st_dirs st_trace requests_made data_fetched errors].
    eexists; eexists; (split; [reflexivity|]).
    cbn [st_stats st_files st_dirs st_trace requests_made data_fetched errors].
    split; [rewrite <- !app_assoc; reflexivity|].
    rewrite PaginationProofs.dict_get_set_same. cbn. auto 12.
Qed.

(** The GraphQL endpoint refusing the credentials with status 401. *)
Lemma calendar_request_failure_records_zero_witness :
  exists s',
    fetch_contribution_calendar Examples.repos_down "octocat"
      (initial_state [] []) = Some (Ret tt, s') /\
    requests_made (st_stats s') = 1 /\
    errors (st_stats s') = [ErrGraphQL (HTTPError 401)] /\
    dict_get "contribution_calendar" (data_fetched (st_stats s')) = Some (JNum 0) /\
    st_files s' = [].
Proof.
  destruct (calendar_request_failure_records_zero Examples.repos_down "octocat"
              (initial_state [] []) (HTTPError 401))
    as (s' & tr & Heq & _ & _ & _ & Hf & _ & Hn & He & Hd).
  - left. reflexivity.
  - reflexivity.
  - exists s'. auto.
Defined.

Lemma fetch_profile_fails (E : env) (username : string) (s : state) (e : exn) :
  get_fails E (user_endpoint username EmptyString) None e ->
  exists s1 tr,
    fetch_profile E username s = Some (Raise e, s1) /\
    st_trace s1 = st_trace s ++ tr /\
    requests tr = [Get (user_endpoint username EmptyString) None] /\
    written tr = [] /\ (forall c, ~ In (Print Stderr (MError c)) tr) /\
    st_files s1 = st_files s /\
    requests_made (st_stats s1) = S (requests_made (st_stats s)) /\
    data_fetched (st_stats s1) = data_fetched (st_stats s) /\
    errors (st_stats s1) =
      errors (st_stats s) ++
      (if is_RequestException e
       then [ErrRequest (user_endpoint username EmptyString) e] else []).
Proof.
  intros Hfail. unfold fetch_profile. unfold bind at 1, print at 1, log.
  unfold bind at 1.
  match goal with
  | |- context [_make_request E ?ep None ?s0] =>
      destruct (make_request_shape E ep None s0)
        as (r0 & s1 & Heq & Hn & Hd & Hf & Hr)
  end.
  rewrite Heq. cbn [st_stats st_files st_dirs st_trace] in *.
  destruct r0 as [response|e0].
  - exfalso. destruct Hr as (Hget & Hst & _).
    destruct Hfail as [H|(r' & H & Hst')]; congruence.
  - destruct Hr as (Hwhy & Hr).
    assert (e0 = e) as ->.
    { destruct Hfail as [H|(r' & H & Hst')];
        destruct Hwhy as [H0|(r0 & H0 & Hst0)]; congruence. }
    destruct (is_RequestException e); destruct Hr as (He & Ht);
      eexists; eexists; (split; [reflexivity|]); rewrite Ht, <- app_assoc;
      (split; [reflexivity|]); rewrite ?app_nil_r; cbn;
      repeat split; auto; intros c Hc; intuition discriminate.
Qed.

(** When the profile request fails, the run ends there: it has sent that
    one request, records no data, writes the metadata file and nothing
    else, and returns. *)
Theorem profile_failure_ends_run (E : env) (username : string)
    (token : option string) (output_directory : string) (fuel : nat)
    (s : state) (e : exn) :
  get_fails E (user_endpoint username EmptyString) None e ->
  is_SystemExit e = false ->
  mkdir_raises E [] = None ->
  open_raises E metadata_path = None ->
  exists s' tr,
    fetch_all E username token output_directory fuel s = Some (Ret tt, s') /\
    st_trace s' = st_trace s ++ tr /\
    requests tr = [Get (user_endpoint username EmptyString) None] /\
    written tr =
      [(metadata_path, metadata_json E username output_directory (st_stats s'))] /\
    requests_made (st_stats s') = S (requests_made (st_stats s)) /\
    data_fetched (st_stats s') = data_fetched (st_stats s) /\
    errors (st_stats s') =
      errors (st_stats s) ++
      (if is_RequestException e
       then [ErrRequest (user_endpoint username EmptyString) e] else []).
Proof.
  intros Hfail Hne Hmk Hop.
  assert (Hstart : forall k : M unit,
            (print Stdout MStart ;; mkdir E [] ;; k) s =
            k {| st_stats := st_stats s; st_files := st_files s;
                 st_dirs := [] :: st_dirs s;
                 st_trace := st_trace s ++ [Print Stdout MStart] |}).
  { intros k. unfold bind at 1, print at 1, log.
    unfold bind at 1, mkdir. cbn [st_stats st_files st_dirs st_trace].
    now rewrite Hmk. }
  unfold fetch_all. rewrite Hstart. unfold try_finally, try_except.
  match goal with
  | |- context [fetch_sequence E username token fuel ?s0] =>
      destruct (fetch_profile_fails E username s0 e Hfail)
        as (s1 & tr1 & Heq & Ht1 & Hq1 & Hw1 & Hno & Hf1 & Hn1 & Hd1 & He1);
      assert (Hseq : fetch_sequence E username token fuel s0 = Some (Raise e, s1))
        by (unfold fetch_sequence, bind; now rewrite Heq)
  end.
  rewrite Hseq. cbn [st_stats st_files st_dirs st_trace] in *.
  assert (Hcatch : (is_KeyboardInterrupt e || is_Exception e)%bool = true)
    by (destruct e; try reflexivity; discriminate).
  rewrite Hcatch.
  set (line := if is_KeyboardInterrupt e then Print Stdout MInterrupted
               else Print Stderr (MError e)).
  assert (Hhandler :
            (if is_KeyboardInterrupt e then print Stdout MInterrupted
             else print Stderr (MError e)) s1 =
            Some (Ret tt, OrchestrationProofs.traced s1 [line])).
  { unfold line. destruct (is_KeyboardInterrupt e); reflexivity. }
  rewrite Hhandler.
  destruct (OrchestrationProofs.finally_block_shape E username output_directory
              (OrchestrationProofs.traced s1 [line]) Hmk) as (s' & Hst & Hfin).
  rewrite Hop in Hfin. destruct Hfin as [Hrun Ht'].
  rewrite Hrun.
  exists s', ([Print Stdout MStart] ++ tr1 ++ [line] ++
              [Print Stdout MSavingMetadata;
               Write metadata_path
                 (metadata_json E username output_directory (st_stats s1));
               Print Stdout (MSaved metadata_path)] ++
              summary_lines (st_stats s1)).
  cbn [OrchestrationProofs.traced st_stats st_files st_dirs st_trace] in Hst, Ht'.
  split; [reflexivity|].
  split; [rewrite Ht', Ht1, <- !app_assoc; reflexivity|].
  destruct (summary_lines_observed (st_stats s1)) as (_ & _ & Hcs & Hws).
  assert (Hline : requests [line] = [] /\ written [line] = []).
  { unfold line. destruct (is_KeyboardInterrupt e); auto. }
  destruct Hline as [Hql Hwl].
  assert (Hqs : requests (summary_lines (st_stats s1)) = []).
  { unfold count_requests in Hcs. unfold requests.
    now apply length_zero_iff_nil. }
  split.
  { rewrite !requests_app, Hq1, Hql, Hqs. reflexivity. }
  split.
  { rewrite !written_app, Hw1, Hwl, Hws, Hst. reflexivity. }
  rewrite Hst. auto.
Qed.

(** Without a network the run for octocat sends one request and writes the
    metadata file only. *)
Lemma profile_failure_ends_run_witness :
  exists s',
    fetch_all Examples.offline "octocat" None "out/octocat" 1
      (initial_state [] []) = Some (Ret tt, s') /\
    requests (st_trace s') = [Get "/users/octocat" None] /\
    map fst (written (st_trace s')) = [metadata_path] /\
    errors (st_stats s') = [ErrRequest "/users/octocat" ConnectionError].
Proof.
  destruct (profile_failure_ends_run Examples.offline "octocat" None
              "out/octocat" 1 (initial_state [] []) ConnectionError)
    as (s' & tr & Heq & Ht & Hq & Hw & _ & _ & He).
  - left. reflexivity.
  - reflexivity.
  - reflexivity.
  - reflexivity.
  - exists s'. cbn in Ht. rewrite Ht, Hq, Hw, He. auto.
Defined.

(** For an account without repositories the repositories fetch writes an
    empty list and makes no details directory, so that the language
    statistics that follow find nothing to read: they print that the
    repositories are needed, write no file and record nothing. *)
Theorem no_repositories_no_language_stats (E : env) (username : string)
    (fuel : nat) (s : state) (r : response) (data : json) :
  session_get E (user_endpoint username "/repos")
    (Some (page_request (Some [("type", JStr "all"); ("sort", JStr "updated")]) 1))
    = Ret r ->
  raise_for_status r = Ret tt ->
  body r = Some data ->
  truthy data = false ->
  mkdir_raises E ["repositories"] = None ->
  open_raises E ["repositories"; "list.json"] = None ->
  dir_exists ["repositories"; "details"] s = false ->
  exists s' tr,
    (fetch_repositories E username (S fuel) ;; fetch_language_stats E) s
      = Some (Ret tt, s') /\
    st_trace s' = st_trace s ++ tr /\
    written tr = [(["repositories"; "list.json"], JArr [])] /\
    In (Print Stderr MNeedRepos) tr /\
    dict_get "repositories" (data_fetched (st_stats s')) = Some (JNum 0) /\
    dict_get "language_stats" (data_fetched (st_stats s')) =
      dict_get "language_stats" (data_fetched (st_stats s)) /\
    dir_exists ["repositories"; "details"] s' = false.
Proof.
  intros Hget Hst Hbody Hfalsy Hmk Hop Hdir.
  unfold fetch_repositories. unfold bind at 1.
  unfold bind at 1, print at 1, log.
  unfold bind at 1, _fetch_paginated_data.
  rewrite (PaginationProofs.fetch_pages_empty E _ fuel _ 1 [] _ r data Hget Hst
             Hbody Hfalsy).
  unfold fetch_language_stats, guarded, _save_json.
  unfold bind, lift, get_state, try_except, mkdir, write_json, print, log,
    set_fetched, modify_stats.
  cbn [rmap for_each ret parent removelast].
  rewrite Hmk. cbn [st_stats st_files st_dirs st_trace].
  rewrite Hop.
  cbn [st_stats st_files st_dirs st_trace requests_made data_fetched errors
       PaginationProofs.sent].
  unfold dir_exists in *.
  cbn [st_stats st_files st_dirs st_trace existsb].
  change (is_prefix ["repositories"; "details"] ["repositories"]) with false.
  cbn [orb]. rewrite Hdir. cbn [negb].
  eexists; eexists. split; [reflexivity|].
  cbn [st_stats st_files st_dirs st_trace requests_made data_fetched errors].
  split; [rewrite <- !app_assoc; reflexivity|].
  rewrite PaginationProofs.dict_get_set_same.
  split; [reflexivity|].
  split; [cbn; auto 10|].
  split; [reflexivity|].
  split; [now apply dict_get_set_other|].
  cbn [existsb].
  change (is_prefix ["repositories"; "details"] ["repositories"]) with false.
  exact Hdir.
Qed.

(** Octocat without repositories. *)
Lemma no_repositories_no_language_stats_witness :
  exists s',
    (fetch_repositories Examples.no_repositories "octocat" 1 ;;
     fetch_language_stats Examples.no_repositories) (initial_state [] [])
      = Some (Ret tt, s') /\
    map fst (written (st_trace s')) = [["repositories"; "list.json"]] /\
    dict_get "language_stats" (data_fetched (st_stats s')) = None.
Proof.
  destruct (no_repositories_no_language_stats Examples.no_repositories "octocat"
              0 (initial_state [] [])
              {| status_code := 200; body := Some (JArr []); headers := [] |}
              (JArr []))
    as (s' & tr & Heq & Ht & Hw & _ & _ & Hl & _); try reflexivity.
  exists s'. cbn in Ht. rewrite Ht, Hw, Hl. auto.
Defined.

End ExporterFacts.

(** ** What an upload result holds *)

Module UploaderFacts.
Import Py Base64 Uploader.

(** Reading the fields of the Imgur data fails in one way only: the data
    is not an object. *)
Lemma imgur_fields_raises (data : json) (e : exn) :
  imgur_fields data = Raise e -> e = AttributeError.
Proof.
  intros H. unfold imgur_fields in H.
  destruct data; try (cbn in H; inversion H; reflexivity).
  exfalso.
  repeat match type of H with
         | context [get (JObj ?kv) ?k] =>
             let Hg := fresh in
             destruct (ExitCodeProofs.get_of_object kv k) as [? Hg];
             rewrite Hg in H; cbn [rbind] in H; clear Hg
         end.
  discriminate.
Qed.

(** The ways the [try] block of [upload_image_to_imgur] is left. *)
Lemma upload_attempt_cases (E : env) (p : string)
    (cid tok t d : option string) (r0 r1 : upload_result) (oe : option exn) :
  upload_attempt E p cid tok t d r0 = (r1, oe) ->
  (oe = None /\ exists err, r1 = set_error r0 err /\
                            forall e, err <> Unexpected e) \/
  (oe = None /\ exists data f, imgur_fields data = Ret f /\
                               r1 = set_imgur_data (set_success r0) f) \/
  (exists e, oe = Some e /\
             (r1 = r0 \/ (r1 = set_success r0 /\ e = AttributeError))).
Proof.
  unfold upload_attempt. intros H.
  repeat match type of H with
         | context [match ?x with _ => _ end] => destruct x eqn:?
         end;
    inversion H; subst; eauto 10;
    try (left; (split; [reflexivity|]); eexists; (split; [reflexivity|]);
         intros e'; discriminate).
  right. right. eexists. split; [reflexivity|]. right. split; [reflexivity|].
  eapply imgur_fields_raises; eauto.
Qed.

(** What is said of a result below. *)
Definition well_formed (p : string) (tok : option string) (r : upload_result)
    : Prop :=
  original_path r = p /\
  filename r = basename p /\
  upload_type r = (if given tok then "authenticated" else "anonymous") /\
  (error r = None <-> imgur_data r <> None) /\
  (imgur_data r <> None -> success r = true /\ show_links r = Ret tt) /\
  (success r = false -> error r <> None) /\
  (success r = true -> error r <> None -> exists e, error r = Some (Unexpected e)).

Lemma upload_result_well_formed (E : env) (p : string)
    (cid tok t d : option string) (r : upload_result) :
  upload_image_to_imgur E p cid tok t d = Ret r -> well_formed p tok r.
Proof.
  unfold upload_image_to_imgur. intros H.
  set (r0 := {| original_path := p; filename := basename p; success := false;
                error := None;
                upload_type := if given tok then "authenticated" else "anonymous";
                imgur_data := None |}) in *.
  assert (Hfail : forall err, well_formed p tok (set_error r0 err)).
  { intros err. unfold well_formed. cbn.
    repeat split; try discriminate; try tauto; intros; try discriminate; tauto. }
  destruct (negb (path_exists E p)); [inversion H; apply Hfail|].
  destruct (negb (existsb _ valid_extensions)); [inversion H; apply Hfail|].
  destruct (upload_attempt E p cid tok t d r0) as [r1 oe] eqn:Hatt.
  apply upload_attempt_cases in Hatt.
  destruct Hatt as [(-> & err & -> & Herr)
                   |[(-> & data & f & Hf & ->)|(e & -> & Hr1)]].
  - inversion H; subst. apply Hfail.
  - inversion H; subst. unfold well_formed. cbn.
    apply (ExitCodeProofs.imgur_fields_links) in Hf.
    destruct Hf as (l & dl & Hl & Hdl).
    unfold show_links. cbn. rewrite Hl, Hdl. cbn.
    repeat split; try discriminate; try tauto; intros; try discriminate; tauto.
  - destruct Hr1 as [->|[-> ->]].
    + destruct (is_Timeout e); [inversion H; apply Hfail|].
      destruct (is_RequestException e); [inversion H; apply Hfail|].
      destruct (is_Exception e); [inversion H; apply Hfail|discriminate].
    + cbn in H. inversion H; subst. unfold well_formed. cbn.
      repeat split; try discriminate; try tauto; intros; try discriminate;
        try tauto; eauto.
Qed.

(** Every result [upload_image_to_imgur] returns names the file it was
    given and the kind of upload, and carries either an error or the Imgur
    data, never both and never neither.  With the data it reports success
    and holds the two links; without success it holds an error.  Success
    together with an error happens in one way only: the fields of a
    response that had reported success could not be read. *)
Theorem upload_result_is_error_or_data (E : env) (p : string)
    (cid tok t d : option string) (r : upload_result) :
  upload_image_to_imgur E p cid tok t d = Ret r ->
  original_path r = p /\
  filename r = basename p /\
  upload_type r = (if given tok then "authenticated" else "anonymous") /\
  (error r = None <-> imgur_data r <> None) /\
  (imgur_data r <> None -> success r = true /\ show_links r = Ret tt) /\
  (success r = false -> error r <> None) /\
  (success r = true -> error r <> None -> exists e, error r = Some (Unexpected e)).
Proof. apply upload_result_well_formed. Qed.

(** A file on a machine where Imgur takes every upload. *)
Lemma upload_result_is_error_or_data_witness :
  exists r,
    upload_image_to_imgur Examples.imgur_up "shots/a.PNG" (Some "abc123") None
      None None = Ret r /\
    filename r = "a.PNG" /\ upload_type r = "anonymous" /\
    success r = true /\ error r = None.
Proof.
  eexists. split; [reflexivity|].
  match goal with
  | |- filename ?r = _ /\ _ =>
      destruct (upload_result_is_error_or_data Examples.imgur_up "shots/a.PNG"
                  (Some "abc123") None None None r eq_refl)
        as (_ & Hf & Ht & He & Hd & _)
  end.
  split; [exact Hf|]. split; [exact Ht|].
  split; [apply Hd; discriminate|apply He; discriminate].
Defined.

(** *** The batch *)

Lemma upload_each_tally (E : env) (cid tok : option string)
    (paths : list string) :
  forall acc r,
    upload_each E paths cid tok acc = Ret r ->
    exists new,
      uploads r = uploads acc ++ new /\
      successful r =
        (successful acc + Z.of_nat (List.length (filter success new)))%Z /\
      failed r =
        (failed acc
         + Z.of_nat (List.length (filter (fun u => negb (success u)) new)))%Z /\
      Forall2 (fun p u => upload_image_to_imgur E p cid tok None None = Ret u)
              paths new.
Proof.
  induction paths as [|p paths IH]; intros acc r H; cbn in H.
  - inversion H; subst. exists []. rewrite app_nil_r. cbn.
    repeat split; [lia|lia|constructor].
  - destruct (upload_image_to_imgur E p cid tok None None) as [u|e] eqn:Hu;
      cbn [rbind] in H; [|discriminate].
    apply IH in H. destruct H as (new & Hup & Hs & Hf & Hall).
    exists (u :: new).
    destruct (success u) eqn:Hsu; cbn [uploads successful failed] in *;
      rewrite Hup, <- app_assoc; cbn [filter negb]; rewrite Hsu;
      cbn [negb List.length];
      (split; [reflexivity|]); (split; [lia|]);
      (split; [lia|]); constructor; auto.
Qed.

(** The counters of a batch are counts of its entries: [successful] is the
    number of entries that report success, [failed] the number of the
    others, and each entry is what the single upload returns for its path:
    no upload depends on the ones before it. *)
Theorem batch_counts_its_entries (E : env) (cid tok : option string)
    (paths : list string) (r : summary) :
  upload_multiple_images E paths cid tok = Ret r ->
  successful r = Z.of_nat (List.length (filter success (uploads r))) /\
  failed r = Z.of_nat (List.length (filter (fun u => negb (success u)) (uploads r))) /\
  Forall2 (fun p u => upload_image_to_imgur E p cid tok None None = Ret u)
          paths (uploads r).
Proof.
  unfold upload_multiple_images. intros H.
  apply upload_each_tally in H. destruct H as (new & Hup & Hs & Hf & Hall).
  cbn in Hup, Hs, Hf. subst new. auto.
Qed.

(** A batch of three: one upload goes through, one file has no image
    extension, one is missing. *)
Lemma batch_counts_its_entries_witness :
  exists r,
    upload_multiple_images Examples.imgur_up ["a.png"; "notes.txt"; "gone.png"]
      (Some "abc123") None = Ret r /\
    successful r = 1%Z /\ failed r = 2%Z /\
    map error (uploads r) =
      [None; Some (InvalidFormat ".txt"); Some FileNotFound].
Proof.
  destruct (upload_multiple_images Examples.imgur_up
              ["a.png"; "notes.txt"; "gone.png"] (Some "abc123") None)
    as [r|e] eqn:Heq; [|vm_compute in Heq; discriminate].
  exists r. split; [reflexivity|].
  destruct (batch_counts_its_entries _ _ _ _ _ Heq) as (Hs & Hf & _).
  vm_compute in Heq. inversion Heq; subst r.
  split; [exact Hs|]. split; [exact Hf|reflexivity].
Defined.

(** *** Files that are not sent *)



(** *** Credentials *)

(** With an access token the client id plays no role: every upload and
    every batch gives the same result whatever client id comes with the
    token, and the results are marked as authenticated. *)
Theorem access_token_overrides_client_id (E : env) (paths : list string)
    (cid cid' tok : option string) :
  given tok = true ->
  upload_multiple_images E paths cid tok = upload_multiple_images E paths cid' tok /\
  forall p t d,
    upload_image_to_imgur E p cid tok t d = upload_image_to_imgur E p cid' tok t d /\
    forall r, upload_image_to_imgur E p cid tok t d = Ret r ->
              upload_type r = "authenticated".
Proof.
  intros Htok.
  assert (Hone : forall p t d,
            upload_image_to_imgur E p cid tok t d =
            upload_image_to_imgur E p cid' tok t d).
  { intros p t d. unfold upload_image_to_imgur, upload_attempt.
    rewrite Htok. reflexivity. }
  split.
  - unfold upload_multiple_images.
    generalize {| total := Z.of_nat (List.length paths); successful := 0;
                  failed := 0; uploads := [] |}.
    induction paths as [|p paths IH]; intros acc; cbn [upload_each];
      [reflexivity|].
    rewrite Hone.
    destruct (upload_image_to_imgur E p cid' tok None None); cbn [rbind];
      [apply IH|reflexivity].
  - intros p t d. split; [apply Hone|].
    intros r Hr. apply upload_result_well_formed in Hr.
    destruct Hr as (_ & _ & Ht & _). now rewrite Htok in Ht.
Qed.

(** The same batch with a token and two different client ids. *)
Lemma access_token_overrides_client_id_witness :
  upload_multiple_images Examples.imgur_up ["a.png"] (Some "abc123") (Some "tok")
  = upload_multiple_images Examples.imgur_up ["a.png"] None (Some "tok").
Proof.
  apply (access_token_overrides_client_id Examples.imgur_up ["a.png"]
           (Some "abc123") None (Some "tok")).
  reflexivity.
Defined.

Lemma upload_with_credentials (E : env) (p : string)
    (cid tok t d : option string) (r : upload_result) :
  (given cid || given tok)%bool = true ->
  upload_image_to_imgur E p cid tok t d = Ret r ->
  error r <> Some NoAuthentication.
Proof.
  intros Hcred. unfold upload_image_to_imgur. intros H.
  destruct (negb (path_exists E p)); [inversion H; discriminate|].
  destruct (negb (existsb _ valid_extensions)); [inversion H; discriminate|].
  match type of H with
  | context [upload_attempt E p cid tok t d ?r0] =>
      destruct (upload_attempt E p cid tok t d r0) as [r1 oe] eqn:Hatt;
      assert (Hr1 : error r1 <> Some NoAuthentication)
  end.
  { unfold upload_attempt in Hatt.
    destruct (read_bytes E p); [|inversion Hatt; discriminate].
    destruct (given tok); [|destruct (given cid); [|discriminate]];
      cbn [orb] in Hatt;
      repeat match type of Hatt with
             | context [match ?x with _ => _ end] => destruct x eqn:?
             end;
      inversion Hatt; subst; cbn; discriminate. }
  destruct oe as [e|]; [|inversion H; subst; exact Hr1].
  destruct (is_Timeout e); [inversion H; discriminate|].
  destruct (is_RequestException e); [inversion H; discriminate|].
  destruct (is_Exception e); [inversion H; discriminate|discriminate].
Qed.

(** The credentials [main] settles on always hold a client id or an access
    token: [get_authentication] returns the two environment variables or
    ends the script with status 1, the placeholder client id is never
    used, and no upload that [main] starts fails for lack of
    authentication. *)
Theorem main_never_uploads_without_credentials (E : env) (a : args) :
  match get_authentication E with
  | Ret (cid, tok) =>
      cid = environ E "IMGUR_CLIENT_ID" /\ tok = environ E "IMGUR_ACCESS_TOKEN" /\
      (given cid || given tok)%bool = true
  | Raise e =>
      e = SystemExit 1 /\
      given (environ E "IMGUR_CLIENT_ID") = false /\
      given (environ E "IMGUR_ACCESS_TOKEN") = false
  end /\
  match authentication E a with
  | Ret (cid, tok) =>
      (given cid || given tok)%bool = true /\
      forall paths r,
        upload_multiple_images E paths cid tok = Ret r ->
        Forall (fun u => error u <> Some NoAuthentication) (uploads r)
  | Raise e => e = SystemExit 1
  end.
Proof.
  assert (Hget :
    match get_authentication E with
    | Ret (cid, tok) =>
        cid = environ E "IMGUR_CLIENT_ID" /\ tok = environ E "IMGUR_ACCESS_TOKEN" /\
        (given cid || given tok)%bool = true
    | Raise e =>
        e = SystemExit 1 /\
        given (environ E "IMGUR_CLIENT_ID") = false /\
        given (environ E "IMGUR_ACCESS_TOKEN") = false
    end).
  { unfold get_authentication.
    change (String.eqb DEFAULT_CLIENT_ID "YOUR_CLIENT_ID_HERE") with true.
    rewrite andb_false_r.
    destruct (given (environ E "IMGUR_ACCESS_TOKEN")) eqn:Ht;
      destruct (given (environ E "IMGUR_CLIENT_ID")) eqn:Hc; cbn;
      rewrite ?Ht, ?Hc; auto. }
  split; [exact Hget|].
  assert (Hbatch : forall cid tok,
            (given cid || given tok)%bool = true ->
            (given cid || given tok)%bool = true /\
            forall paths r,
              upload_multiple_images E paths cid tok = Ret r ->
              Forall (fun u => error u <> Some NoAuthentication) (uploads r)).
  { intros cid tok Hcred. split; [exact Hcred|]. intros paths r Hr.
    unfold upload_multiple_images in Hr.
    apply upload_each_tally in Hr. destruct Hr as (new & Hup & _ & _ & Hall).
    cbn in Hup. subst new. clear -Hall Hcred.
    induction Hall as [|p u paths us Hu _ IH]; constructor; auto.
    eapply upload_with_credentials; eauto. }
  unfold authentication.
  destruct (given (arg_client_id a) || given (arg_access_token a))%bool eqn:Hcl.
  - now apply Hbatch.
  - destruct (get_authentication E) as [[cid tok]|e].
    + destruct Hget as (_ & _ & Hcred). now apply Hbatch.
    + tauto.
Qed.

End UploaderFacts.

(** ** What the token helper takes from the redirect URL and writes *)

Module TokenHelperFacts.
Import Py TokenHelper Observations.

Lemma startswith_split (f s : string) :
  startswith f s = true -> s = (f ++ drop (String.length f) s)%string.
Proof.
  revert s. induction f as [|a f IH]; intros s H; [reflexivity|].
  destruct s as [|b s]; cbn in H; [discriminate|].
  apply andb_true_iff in H. destruct H as [Hab H].
  apply Ascii.eqb_eq in Hab. subst b. cbn. f_equal. now apply IH.
Qed.

Lemma until_amp_split (t : string) :
  exists rest,
    t = (until_amp t ++ rest)%string /\
    contains "&" (until_amp t) = false /\
    (rest = EmptyString \/ exists rest', rest = String "&"%char rest').
Proof.
  induction t as [|c t (rest & Ht & Hc & Hr)]; cbn [until_amp].
  - exists EmptyString. auto.
  - destruct (Ascii.eqb c "&"%char) eqn:Hamp.
    + apply Ascii.eqb_eq in Hamp. subst c. exists (String "&"%char t).
      split; [reflexivity|]. split; [reflexivity|]. eauto.
    + exists rest. split; [cbn; now rewrite <- Ht|]. split; [|exact Hr].
      cbn [contains startswith]. rewrite Hc.
      rewrite Ascii.eqb_sym, Hamp. reflexivity.
Qed.

Lemma re_search_empty (field : string) : re_search field EmptyString = None.
Proof. destruct field; reflexivity. Qed.

Lemma re_search_step (field : string) (c : ascii) (s : string) :
  re_search field (String c s) =
  match (if startswith field (String c s)
         then match until_amp (drop (String.length field) (String c s)) with
              | EmptyString => None
              | g => Some g
              end
         else None) with
  | Some g => Some g
  | None => re_search field s
  end.
Proof. reflexivity. Qed.

Lemma re_search_sound (field s g : string) :
  re_search field s = Some g ->
  exists pre rest,
    s = (pre ++ field ++ g ++ rest)%string /\
    g <> EmptyString /\
    contains "&" g = false /\
    (rest = EmptyString \/ exists rest', rest = String "&"%char rest').
Proof.
  induction s as [|c s IH]; intros H.
  - rewrite re_search_empty in H. discriminate.
  - rewrite re_search_step in H.
    destruct (startswith field (String c s)) eqn:Hstart.
    + destruct (until_amp (drop (String.length field) (String c s)))
        as [|a g0] eqn:Hg.
      * destruct (IH H) as (pre & rest & -> & Hne & Hc & Hr).
        exists (String c pre), rest. auto.
      * inversion H; subst g.
        destruct (until_amp_split (drop (String.length field) (String c s)))
          as (rest & Ht & Hc & Hr).
        rewrite Hg in Ht, Hc.
        exists EmptyString, rest. split; [|split; [discriminate|auto]].
        change (String c s = field ++ (String a g0 ++ rest))%string.
        rewrite <- Ht. now apply startswith_split.
    + destruct (IH H) as (pre & rest & -> & Hne & Hc & Hr).
      exists (String c pre), rest. auto.
Qed.

(** The value the helper takes for a field of the redirect URL stands in
    the URL right after the field name and its [=] sign; it is not empty,
    holds no [&], and runs up to the next [&] or to the end of the URL. *)
Theorem extracted_value_comes_from_url (field url value : string) :
  re_search field url = Some value ->
  exists before after,
    url = (before ++ field ++ value ++ after)%string /\
    value <> EmptyString /\
    contains "&" value = false /\
    (after = EmptyString \/ exists rest, after = String "&"%char rest).
Proof. apply re_search_sound. Qed.

Lemma extracted_value_comes_from_url_witness :
  exists before after,
    "https://localhost/#access_token=tok&expires_in=3600" =
      (before ++ "access_token=" ++ "tok" ++ after)%string /\
    (after = EmptyString \/ exists rest, after = String "&"%char rest).
Proof.
  destruct (extracted_value_comes_from_url "access_token="
              "https://localhost/#access_token=tok&expires_in=3600" "tok" eq_refl)
    as (before & after & Hurl & _ & _ & Hafter).
  exists before, after. auto.
Defined.

(** *** The credentials file *)

Lemma main_writes (E : env) (stdin : list stdin_event) :
  snd (main E stdin) <> [] ->
  exists l1 l2 l3 rest tok,
    stdin = Line l1 :: Line l2 :: Line l3 :: rest /\
    is_empty (strip l1) = false /\
    lower (strip l3) = "y" /\
    write_raises E = None /\
    re_search "access_token=" (strip l2) = Some tok /\
    main E stdin =
      (Ret tt,
       [("imgur_credentials.txt",
         credentials_text (now E) (strip l1) tok
           (re_search "refresh_token=" (strip l2))
           (re_search "expires_in=" (strip l2))
           (re_search "account_username=" (strip l2)))]).
Proof.
  unfold main. intros H.
  destruct stdin as [|[l1|] stdin1]; cbn [input] in *; try (now elim H).
  destruct (is_empty (strip l1)) eqn:He1; [now elim H|].
  destruct stdin1 as [|[l2|] stdin2]; cbn [input] in *; try (now elim H).
  destruct (is_empty (strip l2)); [now elim H|].
  destruct (re_search "access_token=" (strip l2)) as [tok|] eqn:Htok;
    [|now elim H].
  destruct (match re_search "expires_in=" (strip l2) with
            | Some t => rbind (parse_int t) (fun _ => Ret tt)
            | None => Ret tt
            end) as [u|e]; [|now elim H].
  destruct stdin2 as [|[l3|] rest]; cbn [input] in *; try (now elim H).
  destruct (String.eqb (lower (strip l3)) "y") eqn:Hy; [|now elim H].
  apply String.eqb_eq in Hy.
  destruct (write_raises E) as [e|] eqn:Hw.
  - destruct (is_Exception e); now elim H.
  - exists l1, l2, l3, rest, tok. auto 10.
Qed.



(** *** Exit statuses *)

(** Whatever is typed, and however the terminal ends (end of input, Ctrl-C
    at any prompt), the helper ends with status 0 or 1: no exception
    escapes as a traceback. *)
Theorem token_helper_exits_0_or_1 (E : env) (stdin : list stdin_event) :
  (forall c, write_raises E <> Some (SystemExit c)) ->
  script_exit_code E stdin = 0%Z \/ script_exit_code E stdin = 1%Z.
Proof.
  intros Hw. unfold script_exit_code, script.
  assert (Hmain : forall e w, main E stdin = (Raise e, w) ->
                    is_KeyboardInterrupt e = true \/ is_Exception e = true \/
                    e = SystemExit 1).
  { intros e w. unfold main.
    assert (Hin : forall l e0 l', input l = (Raise e0, l') ->
                    is_KeyboardInterrupt e0 = true \/ is_Exception e0 = true).
    { intros l e0 l' H. destruct l as [|[x|] l]; inversion H; auto. }
    assert (Hint : forall t e0, parse_int t = Raise e0 -> e0 = ValueError).
    { intros t e0. unfold parse_int.
      destruct (match strip t with
                | String "-"%char r => ((-1)%Z, r)
                | String "+"%char r => (1%Z, r)
                | _ => (1%Z, strip t)
                end) as [sign ds].
      destruct ds; [inversion 1; reflexivity|].
      destruct (digits_value _ 0); inversion 1; reflexivity. }
    destruct (input stdin) as [[l1|e1] s1] eqn:H1.
    2:{ intros H. inversion H; subst. apply Hin in H1. tauto. }
    destruct (is_empty (strip l1)); [inversion 1; auto|].
    destruct (input s1) as [[l2|e2] s2] eqn:H2.
    2:{ intros H. inversion H; subst. apply Hin in H2. tauto. }
    destruct (is_empty (strip l2)); [inversion 1; auto|].
    destruct (re_search "access_token=" (strip l2)); [|inversion 1; auto].
    destruct (re_search "expires_in=" (strip l2)) as [t|].
    - destruct (parse_int t) as [n|e3] eqn:H3; cbn [rbind].
      2:{ intros H. inversion H; subst. apply Hint in H3. subst. auto. }
      destruct (input s2) as [[l3|e4] s3] eqn:H4.
      2:{ intros H. inversion H; subst. apply Hin in H4. tauto. }
      destruct (String.eqb (lower (strip l3)) "y"); [|discriminate].
      destruct (write_raises E) as [e5|] eqn:H5; [|discriminate].
      destruct (is_Exception e5) eqn:H6; [discriminate|].
      intros H. inversion H; subst.
      destruct e; try discriminate; [now left|]. now elim (Hw code).
    - destruct (input s2) as [[l3|e4] s3] eqn:H4.
      2:{ intros H. inversion H; subst. apply Hin in H4. tauto. }
      destruct (String.eqb (lower (strip l3)) "y"); [|discriminate].
      destruct (write_raises E) as [e5|] eqn:H5; [|discriminate].
      destruct (is_Exception e5) eqn:H6; [discriminate|].
      intros H. inversion H; subst.
      destruct e; try discriminate; [now left|]. now elim (Hw code). }
  destruct (main E stdin) as [[u|e] w] eqn:Hm; [now left|].
  destruct (Hmain e w eq_refl) as [Hk|[Hx| ->]].
  - rewrite Hk. now left.
  - destruct (is_KeyboardInterrupt e); [now left|]. rewrite Hx. now right.
  - now right.
Qed.

(** A terminal that is closed after the client id: status 1. *)
Lemma token_helper_exits_0_or_1_witness :
  script_exit_code Examples.quiet_terminal [Line "abc123"] = 0%Z \/
  script_exit_code Examples.quiet_terminal [Line "abc123"] = 1%Z.
Proof.
  apply (token_helper_exits_0_or_1 Examples.quiet_terminal [Line "abc123"]).
  intros c. discriminate.
Defined.

Lemma letter_facts (c : ascii) :
  is_ascii_letter c = true ->
  is_space c = false /\ is_digit c = false /\
  Ascii.eqb c "-"%char = false /\ Ascii.eqb c "+"%char = false.
Proof.
  destruct c as [[|] [|] [|] [|] [|] [|] [|] [|]]; intros H;
    try discriminate H; repeat split; reflexivity.
Qed.

Lemma rstrip_head (c : ascii) (v : string) :
  is_space c = false -> exists w, rstrip (String c v) = String c w.
Proof.
  intros Hc. cbn [rstrip]. destruct (rstrip v); [rewrite Hc|]; eauto.
Qed.

Lemma parse_int_letter (c : ascii) (v : string) :
  is_ascii_letter c = true -> parse_int (String c v) = Raise ValueError.
Proof.
  intros H. destruct (letter_facts c H) as (Hs & Hd & Hm & Hp).
  unfold parse_int, strip. cbn [lstrip]. rewrite Hs.
  destruct (rstrip_head c v Hs) as [w ->].
  assert (Hbody : match String c w with
                  | String "-"%char r => ((-1)%Z, r)
                  | String "+"%char r => (1%Z, r)
                  | _ => (1%Z, String c w)
                  end = (1%Z, String c w)).
  { clear -H.
    destruct c as [[|] [|] [|] [|] [|] [|] [|] [|]]; try discriminate H;
      reflexivity. }
  rewrite Hbody. cbn [digits_value]. rewrite Hd. reflexivity.
Qed.

(** A redirect URL whose [expires_in] value starts with a letter makes the
    helper end with status 1 before the question about saving, although
    the access token was found: the value is passed to [int]. *)
Theorem non_numeric_expiry_aborts (E : env) (client_line redirect_line : string)
    (rest : list stdin_event) (tok : string) (c : ascii) (v : string) :
  is_empty (strip client_line) = false ->
  re_search "access_token=" (strip redirect_line) = Some tok ->
  re_search "expires_in=" (strip redirect_line) = Some (String c v) ->
  is_ascii_letter c = true ->
  script_exit_code E (Line client_line :: Line redirect_line :: rest) = 1%Z /\
  script_writes E (Line client_line :: Line redirect_line :: rest) = [].
Proof.
  intros Hid Htok Hexp Hc.
  unfold script_exit_code, script_writes, script, main. cbn [input].
  rewrite Hid.
  assert (Hurl : is_empty (strip redirect_line) = false).
  { destruct (strip redirect_line); [discriminate Htok|reflexivity]. }
  rewrite Hurl, Htok, Hexp, (parse_int_letter c v Hc). split; reflexivity.
Qed.

(** A URL whose token never expires. *)
Lemma non_numeric_expiry_aborts_witness :
  script_exit_code Examples.quiet_terminal
    [Line "abc123"; Line "https://localhost/#access_token=tok&expires_in=never";
     Line "y"] = 1%Z /\
  script_writes Examples.quiet_terminal
    [Line "abc123"; Line "https://localhost/#access_token=tok&expires_in=never";
     Line "y"] = [].
Proof.
  apply (non_numeric_expiry_aborts Examples.quiet_terminal "abc123"
           "https://localhost/#access_token=tok&expires_in=never" [Line "y"]
           "tok" "n"%char "ever"); reflexivity.
Defined.

End TokenHelperFacts.

(** ** What the image generator takes from the answer and writes *)

Module GeneratorFacts.
Import Py Base64 Generator GeneratorObservations.

(** *** Where the image is looked for *)

Lemma getitem_has_key (x : json) (k : string) (v : json) :
  getitem x k = Ret v -> has_key k x = Ret true.
Proof.
  unfold getitem, has_key. destruct x; try discriminate.
  destruct (dict_get k kv); [reflexivity|discriminate].
Qed.

Lemma has_some_items (x : json) (k : string) (y : json) (ys : list json) :
  getitem x k = Ret (JArr (y :: ys)) -> has_some x k = Ret true.
Proof.
  intros H. unfold has_some. rewrite (getitem_has_key _ _ _ H). cbn [rbind].
  rewrite H. cbn [rbind len]. reflexivity.
Qed.



(** When the usage figures of an answer give the cost as something that
    is no number, printing them raises before the image is taken: the
    generator ends with status 1 although the answer carried an image. *)
Theorem non_numeric_cost_loses_the_image (E : env) (api_key model prompt : string)
    (ratio : string) (timeout : Z) (resp : response)
    (result choice message image usage cost : json)
    (others images : list json) :
  post E {| req_api_key := api_key; req_model := model;
            req_content := [Text prompt];
            req_aspect_ratio := ratio; req_timeout := timeout |} = Ret resp ->
  status_code resp = 200%Z ->
  body resp = Some result ->
  getitem result "choices" = Ret (JArr (choice :: others)) ->
  get_default choice "message" (JObj []) = Ret message ->
  get_default message "images" (JArr []) = Ret (JArr (image :: images)) ->
  getitem result "usage" = Ret usage ->
  getitem usage "cost" = Ret cost ->
  not_a_number cost = true ->
  generate_image E api_key model prompt None ratio timeout = Raise (SystemExit 1).
Proof.
  intros Hpost Hst Hbody Hc Hm Hi Hu Hcost Hnan.
  unfold generate_image. cbn [given rbind app]. rewrite Hpost. cbn [rbind].
  rewrite Hst. cbn [Z.eqb negb Pos.eqb]. rewrite Hbody. cbn [rbind].
  assert (Hx : exists e, extract_image result = Raise e /\ is_Exception e = true).
  { unfold extract_image.
    rewrite (has_some_items _ _ _ _ Hc). cbn [rbind].
    rewrite Hc. cbn [rbind first]. rewrite Hm. cbn [rbind]. rewrite Hi.
    cbn [rbind len List.length].
    change (0 <? Z.of_nat (S (List.length images)))%Z with true.
    unfold print_usage.
    rewrite (getitem_has_key _ _ _ Hu). cbn [rbind]. rewrite Hu. cbn [rbind].
    rewrite (getitem_has_key _ _ _ Hcost).
    assert (Hobj : exists t, get_default usage "total_tokens" (JStr "N/A") = Ret t).
    { unfold getitem in Hcost. destruct usage; try discriminate.
      unfold get_default. destruct (dict_get "total_tokens" kv); eauto. }
    destruct Hobj as [t ->]. cbn [rbind]. rewrite Hcost. cbn [rbind].
    destruct cost; try discriminate Hnan; eexists; split; reflexivity. }
  destruct Hx as (e & -> & He). cbn [rbind]. now rewrite He.
Qed.

(** The server that quotes its cost as text. *)
Lemma non_numeric_cost_loses_the_image_witness :
  main_exit_code Examples.studio_cost_as_text Examples.a_sunset [] = 1%Z.
Proof.
  unfold main_exit_code, main. cbn [get_api_key Examples.studio_cost_as_text
    environ is_empty Examples.a_sunset arg_model arg_aspect_ratio arg_timeout
    arg_prompt arg_reference arg_output given].
  erewrite (non_numeric_cost_loses_the_image Examples.studio_cost_as_text);
    reflexivity.
Defined.

(** *** What is written *)

Lemma b64_char_no_colon (v : N) : Ascii.eqb ":"%char (b64_char v) = false.
Proof.
  unfold b64_char. generalize (N.to_nat v). intros n.
  do 64 (destruct n as [|n]; [reflexivity|]).
  destruct n; reflexivity.
Qed.

(** Base64 text is no data URL. *)
Lemma b64encode_no_prefix (data : bytes) :
  startswith "data:image" (b64encode data) = false.
Proof.
  destruct data as [|a [|b [|c [|d [|e [|f rest]]]]]]; cbn [b64encode startswith];
    rewrite ?b64_char_no_colon; cbn [andb]; rewrite ?andb_false_r; reflexivity.
Qed.

Lemma save_decoded (E : env) (data : string) (b : bytes)
    (output_path : string) (fs : files) :
  startswith "data:image" data = false ->
  b64decode data = Ret b ->
  (dir_exists E (dirname output_path) = true \/
   mkdir_raises E (dirname output_path) = None) ->
  write_raises E output_path = None ->
  save_base64_image E (JStr data) output_path fs =
    (Ret tt, (output_path, b) :: fs).
Proof.
  intros Hs Hb Hdir Hwrite. unfold save_base64_image.
  rewrite Hs, Hb, Hwrite.
  destruct Hdir as [Hd|Hd]; rewrite Hd; cbn [negb]; [reflexivity|].
  destruct (negb (dir_exists E (dirname output_path))); reflexivity.
Qed.

(** The bare Base64 text of some bytes, without the data-URL prefix, is
    saved as these bytes: Base64 text never starts like a data URL, so
    nothing is cut off it, and a missing output directory is made first. *)
Theorem bare_base64_is_saved_as_its_bytes (E : env) (b : bytes)
    (output_path : string) (fs : files) :
  (dir_exists E (dirname output_path) = true \/
   mkdir_raises E (dirname output_path) = None) ->
  write_raises E output_path = None ->
  save_base64_image E (JStr (b64encode b)) output_path fs =
    (Ret tt, (output_path, b) :: fs).
Proof.
  intros Hdir Hwrite. apply save_decoded; auto.
  - apply b64encode_no_prefix.
  - apply Base64Proofs.b64decode_b64encode.
Qed.

Lemma bare_base64_is_saved_as_its_bytes_witness :
  save_base64_image Examples.studio (JStr "Cgs=") "out/night.png" [] =
    (Ret tt, [("out/night.png", [Byte.x0a; Byte.x0b])]).
Proof.
  apply (bare_base64_is_saved_as_its_bytes Examples.studio [Byte.x0a; Byte.x0b]
           "out/night.png" []).
  - left. reflexivity.
  - reflexivity.
Defined.

Lemma request_of_main (a : args) (api_key : string)
    (content : list content_part) :
  request_of a api_key content =
  {| req_api_key := api_key;
     req_model := if given (arg_model a)
                  then match arg_model a with Some m => m | None => DEFAULT_MODEL end
                  else DEFAULT_MODEL;
     req_content := content;
     req_aspect_ratio :=
       if given (arg_aspect_ratio a)
       then match arg_aspect_ratio a with
            | Some r => r | None => DEFAULT_ASPECT_RATIO end
       else DEFAULT_ASPECT_RATIO;
     req_timeout := match arg_timeout a with
                    | Some t => if (t =? 0)%Z then DEFAULT_TIMEOUT else t
                    | None => DEFAULT_TIMEOUT
                    end |}.
Proof.
  unfold request_of, given.
  destruct (arg_model a) as [[|c m]|]; destruct (arg_aspect_ratio a) as [[|d r]|];
    reflexivity.
Qed.



End GeneratorFacts.
